(** * Phaser.Physics.Matter.World: a shallow embedding and its properties

    The development follows [src/physics/matter-js/World.js].  The methods of
    the [World] class become functions over an explicit [World.t] record; the
    debug [Graphics] object becomes the list of calls made on it; the Matter
    engine, which is not part of this file, is represented by what [World.js]
    hands to it.

    JavaScript numbers are represented by exact rationals: the properties
    below only compare, add, multiply and divide them, and none depends on
    how a double rounds. *)

From Stdlib Require Import ZArith QArith Qround Lia.
From stdpp Require Import base gmap strings list.

(** ** JavaScript values *)

Module JS.

(** [q === 0] for a number. *)
Definition isZero (q : Q) : bool := Qeq_bool q 0.

(** [!v] for a value that is a number, [null] or [undefined]
    ([None] stands for both [null] and [undefined]). *)
Definition not (v : option Q) : bool :=
  match v with
  | None => true
  | Some q => isZero q
  end.

(** [v === 0] for a value that is a number, [null] or [undefined]. *)
Definition strictEqZero (v : option Q) : bool :=
  match v with
  | None => false
  | Some q => isZero q
  end.

(** Truthiness of a number-or-undefined value, as in [if (circleRadius)]. *)
Definition truthy (v : option Q) : bool := negb (not v).

End JS.

(** ** The debug Graphics object

    A [Graphics] instance is observed through the calls made on it, in
    order.  A method that renders returns the calls it made and whether it
    returned normally ([Some]) or stopped on a [TypeError] ([None]), which is
    what reading a property of [undefined] raises. *)

Module graphics.

Inductive call : Type :=
| clear
| beginPath
| closePath
| moveTo (x y : Q)
| lineTo (x y : Q)
(** [arc(x, y, radius, 0, 2 * Math.PI)]: the only arc drawn is a full turn. *)
| arc (x y radius : Q)
| fillStyle (color : Z) (alpha : option Q)
| fillPath
| lineStyle (lineWidth : Q) (color : Z) (alpha : option Q)
| strokePath
| strokeCircle (x y radius : Q)
| fillCircle (x y radius : Q).

End graphics.

Definition Draw (A : Type) : Type := (list graphics.call * option A)%type.

Definition emit (c : graphics.call) : Draw unit := ([c], Some tt).

Definition throw {A : Type} : Draw A := ([], None).

(** The calls a method made. *)
Definition calls {A : Type} (m : Draw A) : list graphics.call := fst m.

#[global] Instance Draw_ret : MRet Draw := λ A a, ([], Some a).

#[global] Instance Draw_bind : MBind Draw := λ A B k m,
  match m with
  | (o, None) => (o, None)
  | (o, Some a) => let '(o', r) := k a in (o ++ o', r)
  end.

(** [l[i]] followed by a property read: a [TypeError] out of range. *)
Definition item {A : Type} (l : list A) (i : nat) : Draw A :=
  match l !! i with
  | Some a => mret a
  | None => throw
  end.

(** [for (var i = 0; i < l.length; i++) body(l[i])] *)
Fixpoint forEach {A : Type} (l : list A) (body : A → Draw unit) : Draw unit :=
  match l with
  | [] => mret tt
  | a :: l' => body a ;; forEach l' body
  end.

(** [for (var j = from; j < to; j++) body(j)], where the body assigns neither
    [j] nor [to]. *)
Definition forRange (from to : nat) (body : nat → Draw unit) : Draw unit :=
  forEach (seq from (to - from)) body.

(** ** The objects the renderer reads *)

Module Vector.
Record t : Type := { x : Q; y : Q }.
End Vector.

Module Vertex.
Record t : Type := { x : Q; y : Q; isInternal : bool }.
End Vertex.

Module Render.
(** [body.render], as far as the body renderer reads it. *)
Record t : Type := { visible : bool; opacity : Q }.
End Render.

Module Part.
(** An element of [body.parts].  For a body that is not compound the only
    part is the body itself. *)
Record t : Type := {
  render : Render.t;
  circleRadius : option Q;
  position : Vector.t;
  vertices : list Vertex.t
}.
End Part.

Module Body.
Record t : Type := {
  render : Render.t;
  isStatic : bool;
  isSleeping : bool;
  parts : list Part.t;
  vertices : list Vertex.t
}.
End Body.

Module DebugConfig.
Record t : Type := {
  showBody : bool;
  showStaticBody : bool;
  showSleeping : bool;
  showJoint : bool;
  showInternalEdges : bool;
  showConvexHulls : bool;
  renderFill : bool;
  renderStroke : bool;
  lineThickness : Q;
  fillColor : Z;
  strokeColor : Z;
  staticFillColor : Z;
  staticStrokeColor : Z;
  staticBodySleepOpacity : Q;
  sleepFillColor : Z;
  sleepStrokeColor : Z;
  jointColor : Z;
  jointLineThickness : Q;
  pinSize : Q;
  pinColor : Z;
  springColor : Z;
  anchorColor : Z;
  anchorSize : Q;
  hullColor : Z
}.
End DebugConfig.

Module ConstraintRender.
(** [constraint.render]. [strokeStyle] is a CSS colour string. *)
Record t : Type := {
  visible : bool;
  type : string;
  custom : bool;
  lineWidth : Q;
  strokeStyle : string;
  anchors : bool
}.
End ConstraintRender.

Module Constraint.
(** [bodyA] and [bodyB] are given by the [position] of the body, the only
    field read from them; [None] is a missing point or body. *)
Record t : Type := {
  render : ConstraintRender.t;
  pointA : option Vector.t;
  pointB : option Vector.t;
  bodyA : option Vector.t;
  bodyB : option Vector.t;
  length : Q
}.
End Constraint.

(** ** What the Matter library provides

    [World.js] requires these from [./lib] and [./events]; their sources are
    not part of this file. *)

Module Rectangle.

(** Modelled from the spec: the options object of [Bodies.rectangle] (in
    [lib/factory/Bodies]) is missing; the walls are created "static" and
    "with zero friction and zero static friction". *)
Record Options : Type := {
  isStatic : bool;
  friction : Q;
  frictionStatic : Q
}.

(** Modelled from the spec: the body that [Bodies.rectangle] returns is
    missing; "a new static rectangular body" is represented by the centre,
    the size and the options it was created from, and by an [id] that tells
    two bodies apart. *)
Record t : Type := {
  id : nat;
  x : Q;
  y : Q;
  width : Q;
  height : Q;
  options : Options
}.

End Rectangle.

Module Gravity.
Record t : Type := { x : Q; y : Q; scale : Q }.
End Gravity.

Module Pair.
(** An element of [event.pairs]. *)
Record t : Type := { bodyA : Rectangle.t; bodyB : Rectangle.t }.
End Pair.

Module EngineEvent.
(** The object the engine passes to its listeners. *)
Record t : Type := { name : string; timestamp : Q; pairs : list Pair.t }.
End EngineEvent.

Module Events.

(** Modelled from the spec: the names exported by [./events] are missing;
    "Emitted events: BEFORE_UPDATE, AFTER_UPDATE, COLLISION_START/ACTIVE/END,
    PAUSE, RESUME". *)
Inductive name : Type :=
| BEFORE_UPDATE
| AFTER_UPDATE
| COLLISION_START
| COLLISION_ACTIVE
| COLLISION_END
| PAUSE
| RESUME.

(** An argument of [emit]. *)
Inductive value : Type :=
| undefined
| event (e : EngineEvent.t)
| body (b : Rectangle.t).

(** One call [_this.emit(name, ...args)] on the World. *)
Record emission : Type := { emitted : name; args : list value }.

End Events.

Module Matter.

(** Modelled from the spec: [Vector.add] of [lib/geometry/Vector] is missing;
    the start point is "[bodyA.position + pointA]". *)
Definition Vector_add (a b : Vector.t) : Vector.t :=
  {| Vector.x := Vector.x a + Vector.x b; Vector.y := Vector.y a + Vector.y b |}.

(** Modelled from the spec: [Vector.sub] of [lib/geometry/Vector] is missing;
    it gives "the straight-line delta" from start to end. *)
Definition Vector_sub (a b : Vector.t) : Vector.t :=
  {| Vector.x := Vector.x a - Vector.x b; Vector.y := Vector.y a - Vector.y b |}.

(** Modelled from the spec: [Common.clamp] of [lib/core/Common] is missing;
    "clamp(L/5, 12, 20)" keeps a value between the two bounds. *)
Definition Common_clamp (value min max : Q) : Q :=
  if negb (Qle_bool min value) then min
  else if negb (Qle_bool value max) then max
  else value.

(** Modelled from the spec: [Bodies.rectangle] of [lib/factory/Bodies] is
    missing; it makes "a new ... rectangular body" from a centre, a size and
    options. [id] is the identity the new object gets. *)
Definition Bodies_rectangle (id : nat) (x y width height : Q)
    (options : Rectangle.Options) : Rectangle.t :=
  {| Rectangle.id := id; Rectangle.x := x; Rectangle.y := y;
     Rectangle.width := width; Rectangle.height := height;
     Rectangle.options := options |}.




(** [engine.world]: the composite of simulated bodies, and gravity. *)
Record Composite : Type := {
  bodies : list Rectangle.t;
  gravity : Gravity.t
}.

(** A listener registered on the engine: what it emits on the World when it
    is called with an event. *)
Definition listener : Type := EngineEvent.t → list Events.emission.

(** Modelled from the spec: the engine of [lib/core/Engine] is missing.
    [updates] lists the calls [Engine.update(engine, delta, correction)] made
    so far, oldest first, with [None] for an argument that is [undefined]:
    the step is "black-box", so only its invocation is recorded.  [events]
    holds the listeners in registration order, and [nextId] is the identity
    of the next body created. *)
Record Engine : Type := {
  world : Composite;
  updates : list (option Q * option Q);
  events : list (string * listener);
  nextId : nat
}.

(** Modelled from the spec: [Engine.update] of [lib/core/Engine] is missing;
    "invokes the physics-engine step with stepDeltaMs ... and the configured
    correction factor". *)
Definition Engine_update (engine : Engine) (delta correction : option Q) : Engine :=
  {| world := world engine;
     updates := updates engine ++ [(delta, correction)];
     events := events engine;
     nextId := nextId engine |}.

(** Modelled from the spec: [Composite.add] ([World.add]) of [lib/body] is
    missing; "mutates world membership via add/remove on the underlying
    engine composite". *)
Definition Composite_add (c : Composite) (b : Rectangle.t) : Composite :=
  {| bodies := bodies c ++ [b]; gravity := gravity c |}.

(** Modelled from the spec: [Composite.remove] ([World.remove]) of
    [lib/body] is missing; the body object is taken out of the composite. *)
Definition Composite_remove (c : Composite) (b : Rectangle.t) : Composite :=
  {| bodies := filter (λ b', Rectangle.id b' ≠ Rectangle.id b) (bodies c);
     gravity := gravity c |}.

(** Modelled from the spec: [Events.on] of [lib/core/Events] is missing;
    "subscribes ... to the engine's ... notifications". *)
Definition Events_on (engine : Engine) (name : string) (callback : listener) : Engine :=
  {| world := world engine;
     updates := updates engine;
     events := events engine ++ [(name, callback)];
     nextId := nextId engine |}.

(** Modelled from the spec: [Events.trigger] of [lib/core/Events] is missing;
    re-emission is "synchronous ... in the order the engine raised the
    underlying notifications": every listener registered under the name is
    called with the event, in registration order, and the result is what
    they emitted before [trigger] returns. *)
Definition Events_trigger (engine : Engine) (name : string) (event : EngineEvent.t)
    : list Events.emission :=
  flat_map (λ l : string * listener, if String.eqb (fst l) name then snd l event else [])
           (events engine).

(** The collision id counters, static properties of [Body]: one copy for
    the whole process, whichever World reads or writes them. *)
Record BodyStatics : Type := {
  _nextCollidingGroupId : Z;
  _nextNonCollidingGroupId : Z;
  _nextCategory : Z
}.

(** [x << 1] on a JavaScript number holding an integer: the signed 32-bit
    integer congruent to [2 * x]. *)
Definition shiftLeft1 (x : Z) : Z :=
  let r := Z.land (Z.shiftl x 1) (Z.ones 32) in
  if Z.testbit r 31 then r - 2 ^ 32 else r.

(** Modelled from the spec: [Body.nextGroup] of [lib/body/Body] is missing;
    it "returns and advances the colliding counter (post-increment from 1) if
    false, or the non-colliding counter (post-decrement from -1) if true". *)
Definition Body_nextGroup (isNonColliding : bool) (s : BodyStatics) : Z * BodyStatics :=
  if isNonColliding then
    (_nextNonCollidingGroupId s,
     {| _nextCollidingGroupId := _nextCollidingGroupId s;
        _nextNonCollidingGroupId := _nextNonCollidingGroupId s - 1;
        _nextCategory := _nextCategory s |})
  else
    (_nextCollidingGroupId s,
     {| _nextCollidingGroupId := _nextCollidingGroupId s + 1;
        _nextNonCollidingGroupId := _nextNonCollidingGroupId s;
        _nextCategory := _nextCategory s |}).

(** [Body.nextCategory] of [lib/body/Body] is missing.  The library shifts
    the counter left by one bit and returns the shifted value
    ([Body._nextCategory = Body._nextCategory << 1; return
    Body._nextCategory]), so the first category after the counter is 0x0001
    is 0x0002; the sentence of the specification, "returns the current
    category counter then left-shifts it", has the two steps the other way
    round. *)
Definition Body_nextCategory (s : BodyStatics) : Z * BodyStatics :=
  let shifted := shiftLeft1 (_nextCategory s) in
  (shifted,
   {| _nextCollidingGroupId := _nextCollidingGroupId s;
      _nextNonCollidingGroupId := _nextNonCollidingGroupId s;
      _nextCategory := shifted |}).

End Matter.

(** ** The World class *)

Module World.

Import Matter.

#[local] Open Scope Q_scope.

(** The properties of a World instance that the methods below read or
    write.  [localWorld] is the same object as [engine.world], so it is read
    through [engine]; [scaleWidth] and [scaleHeight] stand for
    [scene.sys.scale.width] and [scene.sys.scale.height].  In [walls], a side
    maps to [None] when the slot holds [null]. *)
Record t : Type := {
  engine : Engine;
  walls : gmap string (option Rectangle.t);
  enabled : bool;
  correction : Q;
  getDelta : Q → Q → Q;
  autoUpdate : bool;
  drawDebug : bool;
  debugConfig : DebugConfig.t;
  scaleWidth : Q;
  scaleHeight : Q
}.

Definition localWorld (this : t) : Composite := world (engine this).

Definition set_engine (this : t) (e : Engine) : t :=
  {| engine := e; walls := walls this; enabled := enabled this;
     correction := correction this; getDelta := getDelta this;
     autoUpdate := autoUpdate this; drawDebug := drawDebug this;
     debugConfig := debugConfig this; scaleWidth := scaleWidth this;
     scaleHeight := scaleHeight this |}.

Definition set_walls (this : t) (w : gmap string (option Rectangle.t)) : t :=
  {| engine := engine this; walls := w; enabled := enabled this;
     correction := correction this; getDelta := getDelta this;
     autoUpdate := autoUpdate this; drawDebug := drawDebug this;
     debugConfig := debugConfig this; scaleWidth := scaleWidth this;
     scaleHeight := scaleHeight this |}.

Definition set_localWorld (this : t) (c : Composite) : t :=
  set_engine this
    {| world := c; updates := updates (engine this);
       events := events (engine this); nextId := nextId (engine this) |}.

(** [this.walls = { left: null, right: null, top: null, bottom: null }] *)
Definition initialWalls : gmap string (option Rectangle.t) :=
  <["left" := None]> (<["right" := None]> (<["top" := None]> (<["bottom" := None]> ∅))).

(** *** Normalised events *)

(** The listener of each of the three collision notifications: the same
    function body, emitting under a different name. *)
Definition collisionListener (name : Events.name) : listener := λ event,
  let pairs := EngineEvent.pairs event in
  let '(bodyA, bodyB) :=
    match pairs with
    | pairs_0 :: _ =>
        (* pairs.length > 0 *)
        (Events.body (Pair.bodyA pairs_0), Events.body (Pair.bodyB pairs_0))
    | [] => (Events.undefined, Events.undefined)
    end in
  [ {| Events.emitted := name; Events.args := [Events.event event; bodyA; bodyB] |} ].

Definition updateListener (name : Events.name) : listener := λ event,
  [ {| Events.emitted := name; Events.args := [Events.event event] |} ].

Definition setEventsProxy (this : t) : t :=
  let engine := engine this in
  let engine := Events_on engine "beforeUpdate" (updateListener Events.BEFORE_UPDATE) in
  let engine := Events_on engine "afterUpdate" (updateListener Events.AFTER_UPDATE) in
  let engine := Events_on engine "collisionStart" (collisionListener Events.COLLISION_START) in
  let engine := Events_on engine "collisionActive" (collisionListener Events.COLLISION_ACTIVE) in
  let engine := Events_on engine "collisionEnd" (collisionListener Events.COLLISION_END) in
  set_engine this engine.

(** *** Bounds *)

Definition create (x y width height : Q) (options : Rectangle.Options) (this : t)
    : Rectangle.t * t :=
  let body := Bodies_rectangle (nextId (engine this)) x y width height options in
  let this :=
    set_engine this
      {| world := Composite_add (localWorld this) body;
         updates := updates (engine this);
         events := events (engine this);
         nextId := S (nextId (engine this)) |} in
  (body, this).

(** [MatterWorld.remove(this.localWorld, wall)] under [if (wall)]: [null]
    and [undefined] are falsy, a body is truthy. *)
Definition removeIfWall (wall : option (option Rectangle.t)) (this : t) : t :=
  match wall with
  | Some (Some body) => set_localWorld this (Composite_remove (localWorld this) body)
  | _ => this
  end.

Definition updateWall (add : bool) (position : string) (x y width height : Q)
    (this : t) : t :=
  let wall := walls this !! position in
  if add then
    let this := removeIfWall wall this in
    let x := x + width / 2 in
    let y := y + height / 2 in
    let '(body, this) :=
      create x y width height
        {| Rectangle.isStatic := true; Rectangle.friction := 0;
           Rectangle.frictionStatic := 0 |} this in
    set_walls this (<[position := Some body]> (walls this))
  else
    let this := removeIfWall wall this in
    set_walls this (<[position := None]> (walls this)).

Definition setBounds (x y width height thickness : option Q)
    (left right top bottom : option bool) (this : t) : t :=
  let x := default 0 x in
  let y := default 0 y in
  let width := default (scaleWidth this) width in
  let height := default (scaleHeight this) height in
  let thickness := default 128 thickness in
  let left := default true left in
  let right := default true right in
  let top := default true top in
  let bottom := default true bottom in
  let this := updateWall left "left" (x - thickness) (y - thickness) thickness (height + thickness * 2) this in
  let this := updateWall right "right" (x + width) (y - thickness) thickness (height + thickness * 2) this in
  let this := updateWall top "top" x (y - thickness) width thickness this in
  let this := updateWall bottom "bottom" x (y + height) width thickness this in
  this.

(** *** Gravity *)

Definition set_gravity (this : t) (g : Gravity.t) : t :=
  set_localWorld this {| bodies := bodies (localWorld this); gravity := g |}.

Definition disableGravity (this : t) : t :=
  set_gravity this {| Gravity.x := 0; Gravity.y := 0; Gravity.scale := 0 |}.

Definition setGravity (x y scale : option Q) (this : t) : t :=
  let x := default 0 x in
  let y := default 1 y in
  let g := gravity (localWorld this) in
  let g := {| Gravity.x := x; Gravity.y := y; Gravity.scale := Gravity.scale g |} in
  let g :=
    match scale with
    | Some scale => {| Gravity.x := Gravity.x g; Gravity.y := Gravity.y g; Gravity.scale := scale |}
    | None => g
    end in
  set_gravity this g.

(** *** Collision ids *)

Definition nextGroup (isNonColliding : bool) (this : t) (statics : BodyStatics)
    : Z * BodyStatics :=
  Body_nextGroup isNonColliding statics.

Definition nextCategory (this : t) (statics : BodyStatics) : Z * BodyStatics :=
  Body_nextCategory statics.

Definition resetCollisionIDs (this : t) (statics : BodyStatics) : BodyStatics :=
  let statics :=
    {| _nextCollidingGroupId := 1%Z;
       _nextNonCollidingGroupId := _nextNonCollidingGroupId statics;
       _nextCategory := _nextCategory statics |} in
  let statics :=
    {| _nextCollidingGroupId := _nextCollidingGroupId statics;
       _nextNonCollidingGroupId := (-1)%Z;
       _nextCategory := _nextCategory statics |} in
  {| _nextCollidingGroupId := _nextCollidingGroupId statics;
     _nextNonCollidingGroupId := _nextNonCollidingGroupId statics;
     _nextCategory := 0x0001%Z |}.

(** *** Stepping *)

Definition update (time delta : Q) (this : t) : t :=
  if enabled this && autoUpdate this then
    set_engine this
      (Engine_update (engine this) (Some (getDelta this time delta)) (Some (correction this)))
  else this.

Definition step (delta correction : option Q) (this : t) : t :=
  set_engine this (Engine_update (engine this) delta correction).

Definition update60Hz : Q := 1000 / 60.

Definition update30Hz : Q := 1000 / 30.

(** *** Debug rendering

    [graphics] is the object whose calls [Draw] collects. *)

(** The polygon branch of [renderBody]: the path through the vertices of a
    part, internal edges left out unless [showInternalEdges]. *)
Definition polygonPath (showInternalEdges : bool) (vertices : list Vertex.t) : Draw unit :=
  let vertLength := List.length vertices in
  emit graphics.beginPath ;;
  vertices_0 ← item vertices 0;
  emit (graphics.moveTo (Vertex.x vertices_0) (Vertex.y vertices_0)) ;;
  forRange 1 vertLength (λ j,
    vert ← item vertices j;
    previous ← item vertices (j - 1);
    (if negb (Vertex.isInternal previous) || showInternalEdges
     then emit (graphics.lineTo (Vertex.x vert) (Vertex.y vert))
     else emit (graphics.moveTo (Vertex.x vert) (Vertex.y vert))) ;;
    (if Vertex.isInternal vert && negb showInternalEdges
     then
       let nextIndex := ((j + 1) mod vertLength)%nat in
       next ← item vertices nextIndex;
       emit (graphics.moveTo (Vertex.x next) (Vertex.y next))
     else mret tt)) ;;
  emit graphics.closePath.

(** One turn of the loop of [renderBody] over [parts]. *)
Definition renderPart (showInternalEdges : bool) (lineColor fillColor : option Z)
    (opacity : option Q) (lineThickness : Q) (usePartOpacity : bool)
    (part : Part.t) : Draw unit :=
  let render := Part.render part in
  let opacity := if usePartOpacity then Some (Render.opacity render) else opacity in
  if negb (Render.visible render) || JS.strictEqZero opacity then
    mret tt
  else
    let circleRadius := Part.circleRadius part in
    (if JS.truthy circleRadius then
       emit graphics.beginPath ;;
       emit (graphics.arc (Vector.x (Part.position part)) (Vector.y (Part.position part))
                 (default 0 circleRadius))
     else
       polygonPath showInternalEdges (Part.vertices part)) ;;
    (match fillColor with
     | Some fillColor => emit (graphics.fillStyle fillColor opacity) ;; emit graphics.fillPath
     | None => mret tt
     end) ;;
    (match lineColor with
     | Some lineColor => emit (graphics.lineStyle lineThickness lineColor opacity) ;; emit graphics.strokePath
     | None => mret tt
     end).

(** [None] for an argument that is [undefined] or [null]. *)
Definition renderBody (body : Body.t) (showInternalEdges : bool)
    (lineColor fillColor : option Z) (opacity : option Q) (lineThickness : option Q)
    : Draw unit :=
  let lineThickness := default 1 lineThickness in
  let usePartOpacity := JS.not opacity in
  let parts := Body.parts body in
  let partsLength := List.length parts in
  forRange (if (1 <? partsLength)%nat then 1 else 0) partsLength (λ k,
    part ← item parts k;
    renderPart showInternalEdges lineColor fillColor opacity lineThickness usePartOpacity part).

Definition renderConvexHull (body : Body.t) (hullColor : Z) (lineThickness : option Q)
    : Draw unit :=
  let lineThickness := default 1 lineThickness in
  let parts := Body.parts body in
  let partsLength := List.length parts in
  if (1 <? partsLength)%nat then
    let verts := Body.vertices body in
    emit (graphics.lineStyle lineThickness hullColor None) ;;
    emit graphics.beginPath ;;
    verts_0 ← item verts 0;
    emit (graphics.moveTo (Vertex.x verts_0) (Vertex.y verts_0)) ;;
    forRange 1 (List.length verts) (λ v,
      vert ← item verts v;
      emit (graphics.lineTo (Vertex.x vert) (Vertex.y vert))) ;;
    emit (graphics.lineTo (Vertex.x verts_0) (Vertex.y verts_0)) ;;
    emit graphics.strokePath
  else mret tt.

(** The style [renderBodies] resolves for a body it draws: the values of
    [lineStyle], [fillStyle] and [opacity] when [renderBody] is called. *)
Definition bodyStyle (config : DebugConfig.t) (body : Body.t)
    : option Z * option Z * Q :=
  let opacity := Render.opacity (Body.render body) in
  let lineStyle := DebugConfig.strokeColor config in
  let fillStyle := DebugConfig.fillColor config in
  let '(lineStyle, fillStyle, opacity) :=
    if DebugConfig.showSleeping config && Body.isSleeping body then
      if Body.isStatic body
      then (lineStyle, fillStyle, opacity * DebugConfig.staticBodySleepOpacity config)
      else (DebugConfig.sleepStrokeColor config, DebugConfig.sleepFillColor config, opacity)
    else (lineStyle, fillStyle, opacity) in
  let '(lineStyle, fillStyle) :=
    if Body.isStatic body
    then (DebugConfig.staticStrokeColor config, DebugConfig.staticFillColor config)
    else (lineStyle, fillStyle) in
  let fillStyle := if negb (DebugConfig.renderFill config) then None else Some fillStyle in
  let lineStyle := if negb (DebugConfig.renderStroke config) then None else Some lineStyle in
  (lineStyle, fillStyle, opacity).

(** One turn of the loop of [renderBodies]. *)
Definition renderBodies_body (this : t) (body : Body.t) : Draw unit :=
  let config := debugConfig this in
  let showBody := DebugConfig.showBody config in
  let showStaticBody := DebugConfig.showStaticBody config in
  let showInternalEdges := DebugConfig.showInternalEdges config in
  let showConvexHulls := DebugConfig.showConvexHulls config in
  let lineThickness := DebugConfig.lineThickness config in
  let hullColor := DebugConfig.hullColor config in
  if negb (Render.visible (Body.render body)) then
    mret tt
  else if (negb showStaticBody && Body.isStatic body)
          || (negb showBody && negb (Body.isStatic body)) then
    mret tt
  else
    let '(lineStyle, fillStyle, opacity) := bodyStyle config body in
    renderBody body showInternalEdges lineStyle fillStyle (Some opacity) (Some lineThickness) ;;
    let partsLength := List.length (Body.parts body) in
    if showConvexHulls && (1 <? partsLength)%nat
    then renderConvexHull body hullColor (Some lineThickness)
    else mret tt.

Definition renderBodies (this : t) (bodies : list Body.t) : Draw unit :=
  forEach bodies (renderBodies_body this).

Section Constraints.

(** [Vector.normalise] and [Vector.perp] of [lib/geometry/Vector] and
    [Common.colorToNumber] of [lib/core/Common] are not part of this file;
    the renderer is given them. *)
Variable Vector_normalise : Vector.t → Vector.t.
Variable Vector_perp : Vector.t → Vector.t.
Variable Common_colorToNumber : string → Z.

(** [Math.ceil(Common.clamp(constraint.length / 5, 12, 20))] *)
Definition springCoils (length : Q) : Z :=
  Qceiling (Common_clamp (length / 5) 12 20).

(** The point the spring reaches at turn [j] of its loop. *)
Definition coilPoint (start delta normal : Vector.t) (coils : Z) (j : nat) : Vector.t :=
  let offset : Q := if (Z.of_nat j mod 2 =? 0)%Z then 1 else -1 in
  let progress : Q := inject_Z (Z.of_nat j) / inject_Z coils in
  {| Vector.x := Vector.x start + Vector.x delta * progress + Vector.x normal * offset * 4;
     Vector.y := Vector.y start + Vector.y delta * progress + Vector.y normal * offset * 4 |}.

Definition renderConstraint (constraint : Constraint.t) (lineColor : Z)
    (lineThickness : Q) (springColor pinColor : Z) (pinSize : Q)
    (anchorColor : Z) (anchorSize : Q) : Draw unit :=
  let render := Constraint.render constraint in
  match ConstraintRender.visible render, Constraint.pointA constraint,
        Constraint.pointB constraint with
  | true, Some pointA, Some pointB =>
    let custom := ConstraintRender.custom render in
    (if custom
     then emit (graphics.lineStyle (ConstraintRender.lineWidth render)
                          (Common_colorToNumber (ConstraintRender.strokeStyle render)) None)
     else emit (graphics.lineStyle lineThickness lineColor None)) ;;
    let start :=
      match Constraint.bodyA constraint with
      | Some position => Vector_add position pointA
      | None => pointA
      end in
    end_ ←
      (if String.eqb (ConstraintRender.type render) "pin" then
         (if negb custom then emit (graphics.lineStyle lineThickness pinColor None) else mret tt) ;;
         emit (graphics.strokeCircle (Vector.x start) (Vector.y start) pinSize) ;;
         mret None
       else
         let end_ :=
           match Constraint.bodyB constraint with
           | Some position => Vector_add position pointB
           | None => pointB
           end in
         emit graphics.beginPath ;;
         emit (graphics.moveTo (Vector.x start) (Vector.y start)) ;;
         (if String.eqb (ConstraintRender.type render) "spring" then
            (if negb custom then emit (graphics.lineStyle lineThickness springColor None) else mret tt) ;;
            let delta := Vector_sub end_ start in
            let normal := Vector_perp (Vector_normalise delta) in
            let coils := springCoils (Constraint.length constraint) in
            forRange 1 (Z.to_nat coils) (λ j,
              let p := coilPoint start delta normal coils j in
              emit (graphics.lineTo (Vector.x p) (Vector.y p)))
          else mret tt) ;;
         emit (graphics.lineTo (Vector.x end_) (Vector.y end_)) ;;
         mret (Some end_)) ;
    emit graphics.strokePath ;;
    if ConstraintRender.anchors render && negb (Qle_bool anchorSize 0) then
      emit (graphics.fillStyle anchorColor None) ;;
      emit (graphics.fillCircle (Vector.x start) (Vector.y start) anchorSize) ;;
      (* [end] is still [undefined] after a pin *)
      end_ ← (match end_ with Some p => mret p | None => throw end);
      emit (graphics.fillCircle (Vector.x end_) (Vector.y end_) anchorSize)
    else mret tt
  | _, _, _ => mret tt
  end.

End Constraints.

(** *** Bodies in the world *)

(** [add(object)] for an object that is one body. *)
Definition add (object : Rectangle.t) (this : t) : t :=
  set_localWorld this (Composite_add (localWorld this) object).

(** The argument of [remove]: a body, or a game object that has a body. *)
Inductive removable : Type :=
| aBody (b : Rectangle.t)
| aGameObject (body : Rectangle.t).

(** The composite here has no nested composite, which is all that [deep]
    is about. *)
Definition remove (object : removable) (deep : option bool) (this : t) : t :=
  let body :=
    match object with
    | aGameObject body => body
    | aBody b => b
    end in
  set_localWorld this (Composite_remove (localWorld this) body).

(** *** Pausing *)

Definition set_enabled (this : t) (b : bool) : t :=
  {| engine := engine this; walls := walls this; enabled := b;
     correction := correction this; getDelta := getDelta this;
     autoUpdate := autoUpdate this; drawDebug := drawDebug this;
     debugConfig := debugConfig this; scaleWidth := scaleWidth this;
     scaleHeight := scaleHeight this |}.

(** [this.emit(name)]: the emission is returned with the World. *)
Definition pause (this : t) : t * list Events.emission :=
  let this := set_enabled this false in
  (this, [ {| Events.emitted := Events.PAUSE; Events.args := [] |} ]).

Definition resume (this : t) : t * list Events.emission :=
  let this := set_enabled this true in
  (this, [ {| Events.emitted := Events.RESUME; Events.args := [] |} ]).

(** *** The debug pass *)

Section PostUpdate.

Variable Vector_normalise : Vector.t → Vector.t.
Variable Vector_perp : Vector.t → Vector.t.
Variable Common_colorToNumber : string → Z.

(** [Composite.allBodies] and [Composite.allConstraints] of
    [lib/body/Composite] are not part of this file: they give the bodies
    and the constraints of the world as the renderer reads them. *)
Variable Composite_allBodies : Composite → list Body.t.
Variable Composite_allConstraints : Composite → list Constraint.t.

Definition renderJoints (this : t) : Draw unit :=
  let config := debugConfig this in
  let jointColor := DebugConfig.jointColor config in
  let jointLineThickness := DebugConfig.jointLineThickness config in
  let pinSize := DebugConfig.pinSize config in
  let pinColor := DebugConfig.pinColor config in
  let springColor := DebugConfig.springColor config in
  let anchorColor := DebugConfig.anchorColor config in
  let anchorSize := DebugConfig.anchorSize config in
  let constraints := Composite_allConstraints (localWorld this) in
  forEach constraints (λ constraint,
    renderConstraint Vector_normalise Vector_perp Common_colorToNumber constraint
      jointColor jointLineThickness springColor pinColor pinSize anchorColor anchorSize).

Definition postUpdate (this : t) : Draw unit :=
  let config := debugConfig this in
  let showBody := DebugConfig.showBody config in
  let showStaticBody := DebugConfig.showStaticBody config in
  let showJoint := DebugConfig.showJoint config in
  if negb (drawDebug this) || (negb showBody && negb showStaticBody && negb showJoint) then
    mret tt
  else
    emit graphics.clear ;;
    let bodies := Composite_allBodies (localWorld this) in
    renderBodies this bodies ;;
    if showJoint then renderJoints this else mret tt.

End PostUpdate.

(** *** Construction *)

Module GravityConfig.
Record t : Type := { x : option Q; y : option Q; scale : option Q }.
End GravityConfig.

Module BoundsConfig.
Record t : Type := {
  x : option Q;
  y : option Q;
  width : option Q;
  height : option Q;
  thickness : option Q;
  left : option bool;
  right : option bool;
  top : option bool;
  bottom : option bool
}.
End BoundsConfig.

Module DebugOverrides.
(** The [debug] object of the configuration: any key may be missing. *)
Record t : Type := {
  showBody : option bool;
  showStaticBody : option bool;
  showSleeping : option bool;
  showJoint : option bool;
  showInternalEdges : option bool;
  showConvexHulls : option bool;
  renderFill : option bool;
  renderStroke : option bool;
  lineThickness : option Q;
  fillColor : option Z;
  strokeColor : option Z;
  staticFillColor : option Z;
  staticStrokeColor : option Z;
  staticBodySleepOpacity : option Q;
  sleepFillColor : option Z;
  sleepStrokeColor : option Z;
  jointColor : option Z;
  jointLineThickness : option Q;
  pinSize : option Q;
  pinColor : option Z;
  springColor : option Z;
  anchorColor : option Z;
  anchorSize : option Q;
  hullColor : option Z
}.
End DebugOverrides.

Module Config.

(** [config.setBounds]: a boolean or an object. *)
Inductive boundsSetting : Type :=
| boundsFlag (b : bool)
| boundsObject (c : BoundsConfig.t).

(** [config.debug]: a boolean or an object. *)
Inductive debugSetting : Type :=
| debugFlag (b : bool)
| debugObject (c : DebugOverrides.t).

(** The keys of the configuration object that the constructor reads;
    [None] is a missing key. *)
Record t : Type := {
  gravity : option GravityConfig.t;
  setBounds : option boundsSetting;
  enabled : option bool;
  correction : option Q;
  getDelta : option (Q → Q → Q);
  autoUpdate : option bool;
  debug : option debugSetting;
  debugWireframes : option bool;
  debugShowBody : option bool;
  debugShowStaticBody : option bool;
  debugShowSleeping : option bool;
  debugShowJoint : option bool;
  debugShowInternalEdges : option bool;
  debugShowConvexHulls : option bool;
  debugBodyFillColor : option Z;
  debugBodyColor : option Z;
  debugStaticBodyColor : option Z;
  debugJointColor : option Z;
  debugConvexHullColor : option Z
}.

End Config.

(** Modelled from the spec: [GetValue] and [GetFastValue] of
    [utils/object] are missing; "missing configuration fields fall back to
    documented defaults". *)
Definition GetFastValue {A : Type} (value : option A) (defaultValue : A) : A :=
  default defaultValue value.

Definition set_correction (this : t) (c : Q) : t :=
  {| engine := engine this; walls := walls this; enabled := enabled this;
     correction := c; getDelta := getDelta this;
     autoUpdate := autoUpdate this; drawDebug := drawDebug this;
     debugConfig := debugConfig this; scaleWidth := scaleWidth this;
     scaleHeight := scaleHeight this |}.

Definition set_getDelta (this : t) (f : Q → Q → Q) : t :=
  {| engine := engine this; walls := walls this; enabled := enabled this;
     correction := correction this; getDelta := f;
     autoUpdate := autoUpdate this; drawDebug := drawDebug this;
     debugConfig := debugConfig this; scaleWidth := scaleWidth this;
     scaleHeight := scaleHeight this |}.

Definition set_autoUpdate (this : t) (b : bool) : t :=
  {| engine := engine this; walls := walls this; enabled := enabled this;
     correction := correction this; getDelta := getDelta this;
     autoUpdate := b; drawDebug := drawDebug this;
     debugConfig := debugConfig this; scaleWidth := scaleWidth this;
     scaleHeight := scaleHeight this |}.

Definition set_drawDebug (this : t) (b : bool) : t :=
  {| engine := engine this; walls := walls this; enabled := enabled this;
     correction := correction this; getDelta := getDelta this;
     autoUpdate := autoUpdate this; drawDebug := b;
     debugConfig := debugConfig this; scaleWidth := scaleWidth this;
     scaleHeight := scaleHeight this |}.

Definition set_debugConfig (this : t) (c : DebugConfig.t) : t :=
  {| engine := engine this; walls := walls this; enabled := enabled this;
     correction := correction this; getDelta := getDelta this;
     autoUpdate := autoUpdate this; drawDebug := drawDebug this;
     debugConfig := c; scaleWidth := scaleWidth this;
     scaleHeight := scaleHeight this |}.

(** The Graphics object made by the scene is the one whose calls [Draw]
    collects; what is left of the method is the flag. *)
Definition createDebugGraphic (this : t) : t := set_drawDebug this true.

(** The "old format" debug object, built when [config.debug] is a boolean
    or is missing. *)
Definition legacyDebugConfig (config : Config.t) : DebugOverrides.t :=
  let wireframes := GetFastValue (Config.debugWireframes config) true in
  {| DebugOverrides.showBody := Some (GetFastValue (Config.debugShowBody config) true);
     DebugOverrides.showStaticBody :=
       Some (GetFastValue (Config.debugShowStaticBody config) true);
     DebugOverrides.showSleeping :=
       Some (GetFastValue (Config.debugShowSleeping config) false);
     DebugOverrides.showJoint := Some (GetFastValue (Config.debugShowJoint config) true);
     DebugOverrides.showInternalEdges :=
       Some (GetFastValue (Config.debugShowInternalEdges config) false);
     DebugOverrides.showConvexHulls :=
       Some (GetFastValue (Config.debugShowConvexHulls config) false);
     DebugOverrides.renderFill := Some (negb wireframes);
     DebugOverrides.renderStroke := Some wireframes;
     DebugOverrides.lineThickness := None;
     DebugOverrides.fillColor :=
       Some (GetFastValue (Config.debugBodyFillColor config) 0xe3a7e3%Z);
     DebugOverrides.strokeColor :=
       Some (GetFastValue (Config.debugBodyColor config) 0xff00ff%Z);
     DebugOverrides.staticFillColor :=
       Some (GetFastValue (Config.debugStaticBodyColor config) 0x0000ff%Z);
     DebugOverrides.staticStrokeColor :=
       Some (GetFastValue (Config.debugStaticBodyColor config) 0x0000ff%Z);
     DebugOverrides.staticBodySleepOpacity := Some (5 / 10);
     DebugOverrides.sleepFillColor := None;
     DebugOverrides.sleepStrokeColor := None;
     DebugOverrides.jointColor :=
       Some (GetFastValue (Config.debugJointColor config) 0x000000%Z);
     DebugOverrides.jointLineThickness := None;
     DebugOverrides.pinSize := None;
     DebugOverrides.pinColor := None;
     DebugOverrides.springColor := None;
     DebugOverrides.anchorColor := None;
     DebugOverrides.anchorSize := None;
     DebugOverrides.hullColor :=
       Some (GetFastValue (Config.debugConvexHullColor config) 0xaaaaaa%Z) |}.

(** [this.debugConfig = { ... }]: every key of the debug object, or its
    default. *)
Definition resolveDebugConfig (debugConfig : DebugOverrides.t) : DebugConfig.t :=
  {| DebugConfig.showBody := GetFastValue (DebugOverrides.showBody debugConfig) true;
     DebugConfig.showStaticBody :=
       GetFastValue (DebugOverrides.showStaticBody debugConfig) true;
     DebugConfig.showSleeping := GetFastValue (DebugOverrides.showSleeping debugConfig) false;
     DebugConfig.showJoint := GetFastValue (DebugOverrides.showJoint debugConfig) true;
     DebugConfig.showInternalEdges :=
       GetFastValue (DebugOverrides.showInternalEdges debugConfig) false;
     DebugConfig.showConvexHulls :=
       GetFastValue (DebugOverrides.showConvexHulls debugConfig) false;
     DebugConfig.renderFill := GetFastValue (DebugOverrides.renderFill debugConfig) true;
     DebugConfig.renderStroke := GetFastValue (DebugOverrides.renderStroke debugConfig) true;
     DebugConfig.lineThickness := GetFastValue (DebugOverrides.lineThickness debugConfig) 1;
     DebugConfig.fillColor := GetFastValue (DebugOverrides.fillColor debugConfig) 0x106909%Z;
     DebugConfig.strokeColor :=
       GetFastValue (DebugOverrides.strokeColor debugConfig) 0x28de19%Z;
     DebugConfig.staticFillColor :=
       GetFastValue (DebugOverrides.staticFillColor debugConfig) 0x0d177b%Z;
     DebugConfig.staticStrokeColor :=
       GetFastValue (DebugOverrides.staticStrokeColor debugConfig) 0x1327e4%Z;
     DebugConfig.staticBodySleepOpacity :=
       GetFastValue (DebugOverrides.staticBodySleepOpacity debugConfig) (7 / 10);
     DebugConfig.sleepFillColor :=
       GetFastValue (DebugOverrides.sleepFillColor debugConfig) 0x464646%Z;
     DebugConfig.sleepStrokeColor :=
       GetFastValue (DebugOverrides.sleepStrokeColor debugConfig) 0x999a99%Z;
     DebugConfig.jointColor := GetFastValue (DebugOverrides.jointColor debugConfig) 0xe0e042%Z;
     DebugConfig.jointLineThickness :=
       GetFastValue (DebugOverrides.jointLineThickness debugConfig) 2;
     DebugConfig.pinSize := GetFastValue (DebugOverrides.pinSize debugConfig) 4;
     DebugConfig.pinColor := GetFastValue (DebugOverrides.pinColor debugConfig) 0x42e0e0%Z;
     DebugConfig.springColor :=
       GetFastValue (DebugOverrides.springColor debugConfig) 0xe042e0%Z;
     DebugConfig.anchorColor :=
       GetFastValue (DebugOverrides.anchorColor debugConfig) 0xefefef%Z;
     DebugConfig.anchorSize := GetFastValue (DebugOverrides.anchorSize debugConfig) 6;
     DebugConfig.hullColor := GetFastValue (DebugOverrides.hullColor debugConfig) 0xd703d0%Z |}.

(** The object before the constructor has assigned its properties: every
    property is assigned below before it is read.  [engine] is what
    [Engine.create(config)] returned, [width] and [height] are those of
    [scene.sys.scale]. *)
Definition blank (engine : Engine) (width height : Q) : t :=
  {| engine := engine; walls := ∅; enabled := false; correction := 0;
     getDelta := λ _ _, 0; autoUpdate := false; drawDebug := false;
     debugConfig := resolveDebugConfig
                      {| DebugOverrides.showBody := None;
                         DebugOverrides.showStaticBody := None;
                         DebugOverrides.showSleeping := None;
                         DebugOverrides.showJoint := None;
                         DebugOverrides.showInternalEdges := None;
                         DebugOverrides.showConvexHulls := None;
                         DebugOverrides.renderFill := None;
                         DebugOverrides.renderStroke := None;
                         DebugOverrides.lineThickness := None;
                         DebugOverrides.fillColor := None;
                         DebugOverrides.strokeColor := None;
                         DebugOverrides.staticFillColor := None;
                         DebugOverrides.staticStrokeColor := None;
                         DebugOverrides.staticBodySleepOpacity := None;
                         DebugOverrides.sleepFillColor := None;
                         DebugOverrides.sleepStrokeColor := None;
                         DebugOverrides.jointColor := None;
                         DebugOverrides.jointLineThickness := None;
                         DebugOverrides.pinSize := None;
                         DebugOverrides.pinColor := None;
                         DebugOverrides.springColor := None;
                         DebugOverrides.anchorColor := None;
                         DebugOverrides.anchorSize := None;
                         DebugOverrides.hullColor := None |};
     scaleWidth := width; scaleHeight := height |}.

(** The constructor. *)
Definition initialize (engine : Engine) (width height : Q) (config : Config.t) : t :=
  let this := blank engine width height in
  let this :=
    match Config.gravity config with
    | Some gravity =>
        setGravity (GravityConfig.x gravity) (GravityConfig.y gravity)
          (GravityConfig.scale gravity) this
    | None => this
    end in
  let this := set_walls this initialWalls in
  let this :=
    match Config.setBounds config with
    | Some (Config.boundsFlag true) =>
        setBounds None None None None None None None None None this
    | Some (Config.boundsObject boundsConfig) =>
        let x := GetFastValue (BoundsConfig.x boundsConfig) 0 in
        let y := GetFastValue (BoundsConfig.y boundsConfig) 0 in
        let width := GetFastValue (BoundsConfig.width boundsConfig) width in
        let height := GetFastValue (BoundsConfig.height boundsConfig) height in
        let thickness := GetFastValue (BoundsConfig.thickness boundsConfig) 64 in
        let left := GetFastValue (BoundsConfig.left boundsConfig) true in
        let right := GetFastValue (BoundsConfig.right boundsConfig) true in
        let top := GetFastValue (BoundsConfig.top boundsConfig) true in
        let bottom := GetFastValue (BoundsConfig.bottom boundsConfig) true in
        setBounds (Some x) (Some y) (Some width) (Some height) (Some thickness)
          (Some left) (Some right) (Some top) (Some bottom) this
    | Some (Config.boundsFlag false) | None => this
    end in
  let this := set_enabled this (GetFastValue (Config.enabled config) true) in
  let this := set_correction this (GetFastValue (Config.correction config) 1) in
  let this := set_getDelta this (GetFastValue (Config.getDelta config) (λ _ _, update60Hz)) in
  let this := set_autoUpdate this (GetFastValue (Config.autoUpdate config) true) in
  let '(drawDebug, debugConfig) :=
    match Config.debug config with
    | Some (Config.debugObject debugConfig) => (true, debugConfig)
    | Some (Config.debugFlag debugConfig) => (debugConfig, legacyDebugConfig config)
    | None => (false, legacyDebugConfig config)
    end in
  let this := set_drawDebug this drawDebug in
  let this := set_debugConfig this (resolveDebugConfig debugConfig) in
  let this := if drawDebug then createDebugGraphic this else this in
  setEventsProxy this.

(** *** Paths

    A string is the list of its UTF-16 code units.  The pattern of
    [fromPath] is [/L?\s*([\-\d\.e]+)[\s,]*([\-\d\.e]+)*/ig]. *)

Definition takeWhile {A : Type} (p : A → bool) : list A → list A :=
  fix go l :=
    match l with
    | a :: l' => if p a then a :: go l' else []
    | [] => []
    end.

Definition dropWhile {A : Type} (p : A → bool) : list A → list A :=
  fix go l :=
    match l with
    | a :: l' => if p a then go l' else l
    | [] => []
    end.

(** [L], which the [i] flag lets match [l] too. *)
Definition isL (c : N) : bool := ((c =? 76) || (c =? 108))%N.

(** [\s]: the white space and line terminator code units. *)
Definition isWhiteSpace (c : N) : bool :=
  (((9 <=? c) && (c <=? 13)) || (c =? 32) || (c =? 160) || (c =? 5760)
   || ((8192 <=? c) && (c <=? 8202)) || (c =? 8232) || (c =? 8233) || (c =? 8239)
   || (c =? 8287) || (c =? 12288) || (c =? 65279))%N.

(** [[\-\d\.e]], where the [i] flag lets [e] match [E] too. *)
Definition isCoordinate (c : N) : bool :=
  ((c =? 45) || ((48 <=? c) && (c <=? 57)) || (c =? 46) || (c =? 101) || (c =? 69))%N.

(** [[\s,]] *)
Definition isSeparator (c : N) : bool := (isWhiteSpace c || (c =? 44)%N).

(** A match of the pattern that starts at the head of [s]: the two groups
    and the length of the match.  Every quantifier of the pattern is greedy
    and no piece can match a code unit that the next piece can, so the match
    is the one that takes the longest run at each piece; it fails exactly
    when no coordinate follows the optional [L] and the white space.  The
    second group is [undefined] when it matched nothing. *)
Definition matchAt (s : list N) : option (list N * option (list N) * nat) :=
  let afterL := match s with c :: rest => if isL c then rest else s | [] => s end in
  let afterSpace := dropWhile isWhiteSpace afterL in
  match takeWhile isCoordinate afterSpace with
  | [] => None
  | x =>
      let afterX := dropWhile isCoordinate afterSpace in
      let afterSeparators := dropWhile isSeparator afterX in
      let y := takeWhile isCoordinate afterSeparators in
      let rest := dropWhile isCoordinate afterSeparators in
      Some (x, match y with [] => None | _ => Some y end,
            (List.length s - List.length rest)%nat)
  end.

(** The matches that [path.replace(pathPattern, ...)] finds, left to right:
    the search resumes where the last match ended, and moves on by one code
    unit where there is no match.  [skip] counts the code units of the last
    match that are still to be passed. *)
Fixpoint matches (skip : nat) (s : list N) : list (list N * option (list N)) :=
  match s with
  | [] => []
  | _ :: rest =>
      match skip with
      | S skip' => matches skip' rest
      | O =>
          match matchAt s with
          | Some (x, y, len) => (x, y) :: matches (len - 1) rest
          | None => matches 0 rest
          end
      end
  end.

Module Point.
Record t (Number : Type) : Type := { x : Number; y : Number }.
Arguments x {Number} _.
Arguments y {Number} _.
End Point.

Section FromPath.

(** What [parseFloat] returns is a JavaScript number, [NaN] included; the
    function is the language's, and is given with its type of numbers.
    [None] is the argument [undefined]. *)
Variable Number : Type.
Variable parseFloat : option (list N) → Number.

Definition fromPath (path : list N) (points : option (list (Point.t Number)))
    : list (Point.t Number) :=
  let points := default [] points in
  points ++ map (λ m : list N * option (list N),
                   {| Point.x := parseFloat (Some m.1); Point.y := parseFloat m.2 |})
                (matches 0 path).

End FromPath.

End World.

(** * What the specification says, in its own words *)

Module Spec.

Import World.

#[global] Instance Vertex_inhabited : Inhabited Vertex.t :=
  populate {| Vertex.x := 0; Vertex.y := 0; Vertex.isInternal := false |}.

(** The calls made for vertex [j >= 1] of a polygon: a line to it unless the
    previous vertex is internal and internal edges are hidden, in which case
    a move; then, when vertex [j] itself is internal and internal edges are
    hidden, a move forward to the next vertex, wrapping around. *)
Definition edgeCalls (showInternalEdges : bool) (vertices : list Vertex.t) (j : nat)
    : list graphics.call :=
  let previous := vertices !!! (j - 1)%nat in
  let vert := vertices !!! j in
  let next := vertices !!! ((j + 1) mod List.length vertices)%nat in
  (if negb (Vertex.isInternal previous) || showInternalEdges
   then [graphics.lineTo (Vertex.x vert) (Vertex.y vert)]
   else [graphics.moveTo (Vertex.x vert) (Vertex.y vert)])
  ++ (if Vertex.isInternal vert && negb showInternalEdges
      then [graphics.moveTo (Vertex.x next) (Vertex.y next)]
      else []).

(** The calls that fill and stroke the current path. *)
Definition paintCalls (lineColor fillColor : option Z) (opacity : option Q)
    (lineThickness : Q) : list graphics.call :=
  match fillColor with
  | Some c => [graphics.fillStyle c opacity; graphics.fillPath]
  | None => []
  end
  ++ match lineColor with
     | Some c => [graphics.lineStyle lineThickness c opacity; graphics.strokePath]
     | None => []
     end.

(** The test [renderBodies] makes before it draws a body. *)
Definition shown (config : DebugConfig.t) (body : Body.t) : Prop :=
  Render.visible (Body.render body) = true
  ∧ (Body.isStatic body = true → DebugConfig.showStaticBody config = true)
  ∧ (Body.isStatic body = false → DebugConfig.showBody config = true).

(** The convex hull [renderBodies] adds after the body. *)
Definition hullOf (this : World.t) (body : Body.t) : Draw unit :=
  let config := debugConfig this in
  if DebugConfig.showConvexHulls config && (1 <? List.length (Body.parts body))%nat
  then renderConvexHull body (DebugConfig.hullColor config)
         (Some (DebugConfig.lineThickness config))
  else mret tt.


(** The parts the loop of [renderBody] visits: all but the first of a
    compound body, the only one otherwise. *)
Definition drawnParts (body : Body.t) : list Part.t :=
  if (1 <? List.length (Body.parts body))%nat then drop 1 (Body.parts body)
  else Body.parts body.

(** A part that [renderBody] does not skip, given the opacity it was
    called with: render-visible, with a resolved opacity other than 0. *)
Definition partDrawn (opacity : option Q) (part : Part.t) : bool :=
  let resolved :=
    if JS.not opacity then Some (Render.opacity (Part.render part)) else opacity in
  Render.visible (Part.render part) && negb (JS.strictEqZero resolved).


(** The calls [renderConstraint] opens with: the line style of the
    constraint, custom or default. *)
Definition constraintStyle (colorToNumber : string → Z) (render : ConstraintRender.t)
    (lineThickness : Q) (lineColor : Z) : graphics.call :=
  if ConstraintRender.custom render
  then graphics.lineStyle (ConstraintRender.lineWidth render)
         (colorToNumber (ConstraintRender.strokeStyle render)) None
  else graphics.lineStyle lineThickness lineColor None.

(** The calls [renderConstraint] closes with when anchors are drawn. *)
Definition anchorCalls (render : ConstraintRender.t) (anchorColor : Z) (anchorSize : Q)
    (start end_ : Vector.t) : list graphics.call :=
  if ConstraintRender.anchors render && negb (Qle_bool anchorSize 0)
  then [graphics.fillStyle anchorColor None;
        graphics.fillCircle (Vector.x start) (Vector.y start) anchorSize;
        graphics.fillCircle (Vector.x end_) (Vector.y end_) anchorSize]
  else [].

(** The wall made for the rectangle with top-left corner [(x, y)] and the
    given size: "compute its centered rectangle (x += w/2, y += h/2), create
    a new static rectangular body with zero friction and zero static
    friction". *)
Definition wall (id : nat) (x y width height : Q) : Rectangle.t :=
  {| Rectangle.id := id;
     Rectangle.x := (x + width / 2)%Q;
     Rectangle.y := (y + height / 2)%Q;
     Rectangle.width := width;
     Rectangle.height := height;
     Rectangle.options :=
       {| Rectangle.isStatic := true;
          Rectangle.friction := 0%Q;
          Rectangle.frictionStatic := 0%Q |} |}.

(** The four walls of [setBounds(0, 0, 800, 600)] at the default
    thickness of 128. *)
Definition leftWall (id : nat) : Rectangle.t :=
  wall id (0 - 128) (0 - 128) 128 (600 + 128 * 2).

Definition rightWall (id : nat) : Rectangle.t :=
  wall id (0 + 800) (0 - 128) 128 (600 + 128 * 2).



Definition sides : list string := ["left"; "right"; "top"; "bottom"].

(** A boundary update: a call of [setBounds] or of [updateWall]. *)
Inductive boundaryCall : Type :=
| callSetBounds (x y width height thickness : option Q)
    (left right top bottom : option bool)
| callUpdateWall (add : bool) (position : string) (x y width height : Q).

Definition runCall (this : World.t) (call : boundaryCall) : World.t :=
  match call with
  | callSetBounds x y width height thickness onLeft onRight onTop onBottom =>
      setBounds x y width height thickness onLeft onRight onTop onBottom this
  | callUpdateWall add position x y width height =>
      updateWall add position x y width height this
  end.

(** The calls are made in order, the first of the list first. *)
Definition runCalls (this : World.t) (calls : list boundaryCall) : World.t :=
  fold_left runCall calls this.

(** Whether a boundary update includes a side: [None] when it does not
    concern the side, otherwise the flag it gives the side, an omitted flag
    of [setBounds] counting as true. *)
Definition includes (side : string) (call : boundaryCall) : option bool :=
  match call with
  | callSetBounds _ _ _ _ _ onLeft onRight onTop onBottom =>
      if String.eqb side "left" then Some (default true onLeft)
      else if String.eqb side "right" then Some (default true onRight)
      else if String.eqb side "top" then Some (default true onTop)
      else if String.eqb side "bottom" then Some (default true onBottom)
      else None
  | callUpdateWall add position _ _ _ _ =>
      if String.eqb side position then Some add else None
  end.

(** The flag of the most recent update that concerns the side, if any. *)
Definition lastIncluded (side : string) (calls : list boundaryCall) : option bool :=
  fold_left (λ last call, from_option Some last (includes side call)) calls None.

(** [walls[side]] holds a body: it is neither [null] nor [undefined]. *)
Definition hasWall (this : World.t) (side : string) : Prop :=
  ∃ body, walls this !! side = Some (Some body).

(** What the boundary methods read and write in a World: the walls, the
    identity of the next body, and the bodies of the composite. *)
Definition boundaryState (this : World.t)
    : gmap string (option Rectangle.t) * nat * list Rectangle.t :=
  (walls this, Matter.nextId (engine this), Matter.bodies (localWorld this)).

(** What [updateWall] does to that state: the slot of the side is set, the
    body it held is taken out of the composite, and when the side is included
    a new wall is made and added. *)
Definition updateWallState (add : bool) (position : string) (x y width height : Q)
    (state : gmap string (option Rectangle.t) * nat * list Rectangle.t)
    : gmap string (option Rectangle.t) * nat * list Rectangle.t :=
  let '(slots, next, bodies) := state in
  (<[position := if add then Some (wall next x y width height) else None]> slots,
   if add then S next else next,
   match slots !! position with
   | Some (Some old) => filter (λ b, Rectangle.id b ≠ Rectangle.id old) bodies
   | _ => bodies
   end ++ (if add then [wall next x y width height] else [])).

(** What [walls[side]] holds: [Some true] for a body, [Some false] for
    [null], [None] for [undefined]. *)
Definition wallState (this : World.t) (side : string) : option bool :=
  match walls this !! side with
  | Some (Some _) => Some true
  | Some None => Some false
  | None => None
  end.

(** The three collision notifications of the engine, each with the event
    the World emits for it. *)
Definition collisionNotifications : list (string * Events.name) :=
  [("collisionStart", Events.COLLISION_START);
   ("collisionActive", Events.COLLISION_ACTIVE);
   ("collisionEnd", Events.COLLISION_END)].

(** "[bodyA]/[bodyB] from the first element of the notification's pair list
    (undefined if the list is empty)". *)
Definition firstPairBodies (event : EngineEvent.t) : Events.value * Events.value :=
  match EngineEvent.pairs event !! 0%nat with
  | Some pair0 => (Events.body (Pair.bodyA pair0), Events.body (Pair.bodyB pair0))
  | None => (Events.undefined, Events.undefined)
  end.

(** The counters as the library starts them: 1, -1 and 0x0001. *)
Definition initialStatics : Matter.BodyStatics :=
  {| Matter._nextCollidingGroupId := 1;
     Matter._nextNonCollidingGroupId := -1;
     Matter._nextCategory := 0x0001 |}.

(** ** Words for the further properties *)

(** The test of [renderBodies], as a boolean. *)
Definition isShown (config : DebugConfig.t) (body : Body.t) : bool :=
  Render.visible (Body.render body)
  && (if Body.isStatic body
      then DebugConfig.showStaticBody config
      else DebugConfig.showBody config).

(** A call that builds the path of a part. *)
Definition isPathCall (c : graphics.call) : bool :=
  match c with
  | graphics.beginPath | graphics.closePath | graphics.moveTo _ _
  | graphics.lineTo _ _ | graphics.arc _ _ _ => true
  | _ => false
  end.

(** A part drawn as a polygon that has no vertex. *)
Definition isEmptyPolygon (opacity : option Q) (part : Part.t) : bool :=
  partDrawn opacity part
  && negb (JS.truthy (Part.circleRadius part))
  && match Part.vertices part with [] => true | _ :: _ => false end.

(** The bodies that the slots of [walls] hold, in no particular order. *)
Definition wallBodies (this : World.t) : list Rectangle.t :=
  omap snd (map_to_list (walls this)).

(** The world is tidy over [base]: its bodies are those of [base] and the
    walls held in [walls], once each; every body has its own identity, older
    than the next one to be given. *)
Definition tidy (base : list Rectangle.t) (this : World.t) : Prop :=
  Matter.bodies (localWorld this) ≡ₚ base ++ wallBodies this
  ∧ NoDup (Rectangle.id <$> Matter.bodies (localWorld this))
  ∧ Forall (λ b, Rectangle.id b < Matter.nextId (engine this))
      (Matter.bodies (localWorld this)).

(** The code units of a match that were captured: the first group, then the
    second when it is defined. *)
Definition captured (m : list N * option (list N)) : list N := m.1 ++ default [] m.2.

(** The list is empty or starts with a code unit that [p] rejects. *)
Definition stopsAt (p : N → bool) (s : list N) : Prop :=
  match s with
  | [] => True
  | c :: _ => p c = false
  end.

(** A path written as one [L] command per point, the two coordinates of a
    point separated by a comma: [Lx,yLx,y...]. *)
Definition writePath (points : list (list N * list N)) : list N :=
  flat_map (λ point : list N * list N, [76%N] ++ point.1 ++ [44%N] ++ point.2) points.

End Spec.

(** * Sample inputs *)

Module Sample.

Import World.

#[local] Open Scope Q_scope.

Definition vertex (x y : Q) (isInternal : bool) : Vertex.t :=
  {| Vertex.x := x; Vertex.y := y; Vertex.isInternal := isInternal |}.

(** A unit square whose second and fourth vertices are internal. *)
Definition square : list Vertex.t :=
  [vertex 0 0 false; vertex 1 0 true; vertex 1 1 false; vertex 0 1 true].

Definition squarePart (opacity : Q) : Part.t :=
  {| Part.render := {| Render.visible := true; Render.opacity := opacity |};
     Part.circleRadius := None;
     Part.position := {| Vector.x := 1 / 2; Vector.y := 1 / 2 |};
     Part.vertices := square |}.

(** A body that is not compound: its only part is itself. *)
Definition squareBody (isStatic isSleeping : bool) (opacity : Q) : Body.t :=
  {| Body.render := {| Render.visible := true; Render.opacity := opacity |};
     Body.isStatic := isStatic;
     Body.isSleeping := isSleeping;
     Body.parts := [squarePart opacity];
     Body.vertices := square |}.

(** The debug configuration the constructor builds when no override is
    given, but for the three settings taken as arguments. *)
Definition config (showSleeping renderFill : bool) (staticBodySleepOpacity : Q)
    : DebugConfig.t :=
  {| DebugConfig.showBody := true;
     DebugConfig.showStaticBody := true;
     DebugConfig.showSleeping := showSleeping;
     DebugConfig.showJoint := true;
     DebugConfig.showInternalEdges := false;
     DebugConfig.showConvexHulls := false;
     DebugConfig.renderFill := renderFill;
     DebugConfig.renderStroke := true;
     DebugConfig.lineThickness := 1;
     DebugConfig.fillColor := 0x106909;
     DebugConfig.strokeColor := 0x28de19;
     DebugConfig.staticFillColor := 0x0d177b;
     DebugConfig.staticStrokeColor := 0x1327e4;
     DebugConfig.staticBodySleepOpacity := staticBodySleepOpacity;
     DebugConfig.sleepFillColor := 0x464646;
     DebugConfig.sleepStrokeColor := 0x999a99;
     DebugConfig.jointColor := 0xe0e042;
     DebugConfig.jointLineThickness := 2;
     DebugConfig.pinSize := 4;
     DebugConfig.pinColor := 0x42e0e0;
     DebugConfig.springColor := 0xe042e0;
     DebugConfig.anchorColor := 0xefefef;
     DebugConfig.anchorSize := 6;
     DebugConfig.hullColor := 0xd703d0 |}.

(** A World as the constructor leaves it for an 800 x 600 scene, with no
    bounds, gravity (0, 1) at scale 0.001 and the given debug settings. *)
Definition world (config : DebugConfig.t) : World.t :=
  {| engine :=
       {| Matter.world :=
            {| Matter.bodies := [];
               Matter.gravity := {| Gravity.x := 0; Gravity.y := 1; Gravity.scale := 1 / 1000 |} |};
          Matter.updates := [];
          Matter.events := [];
          Matter.nextId := 0 |};
     walls := initialWalls;
     enabled := true;
     correction := 1;
     getDelta := λ _ _, update60Hz;
     autoUpdate := true;
     drawDebug := true;
     debugConfig := config;
     scaleWidth := 800;
     scaleHeight := 600 |}.

(** A spring of the given length between two world points. *)
Definition spring (length : Q) : Constraint.t :=
  {| Constraint.render :=
       {| ConstraintRender.visible := true;
          ConstraintRender.type := "spring";
          ConstraintRender.custom := false;
          ConstraintRender.lineWidth := 2;
          ConstraintRender.strokeStyle := "#ffffff";
          ConstraintRender.anchors := true |};
     Constraint.pointA := Some {| Vector.x := 0; Vector.y := 0 |};
     Constraint.pointB := Some {| Vector.x := length; Vector.y := 0 |};
     Constraint.bodyA := None;
     Constraint.bodyB := None;
     Constraint.length := length |}.

(** Stand-ins for the library functions the constraint renderer is given:
    the unit vector of a vector along the x axis, the perpendicular, and a
    colour parser that knows no colour. *)
Definition unitX (v : Vector.t) : Vector.t := {| Vector.x := 1; Vector.y := 0 |}.

Definition perp (v : Vector.t) : Vector.t :=
  {| Vector.x := - Vector.y v; Vector.y := Vector.x v |}.

Definition noColor (s : string) : Z := 0.

(** A circle of radius 2 about (3, 3). *)
Definition circlePart (opacity : Q) : Part.t :=
  {| Part.render := {| Render.visible := true; Render.opacity := opacity |};
     Part.circleRadius := Some 2;
     Part.position := {| Vector.x := 3; Vector.y := 3 |};
     Part.vertices := [] |}.

(** A compound body: its first part stands for the whole, the square and
    the circle are its shapes; its hull is the square. *)
Definition compoundBody (first : Part.t) : Body.t :=
  {| Body.render := {| Render.visible := true; Render.opacity := 1 |};
     Body.isStatic := false;
     Body.isSleeping := false;
     Body.parts := [first; squarePart 1; circlePart 1];
     Body.vertices := square |}.

(** A pin at (5, 5) on a body at (10, 20), with the given anchors setting. *)
Definition pin (anchors : bool) : Constraint.t :=
  {| Constraint.render :=
       {| ConstraintRender.visible := true;
          ConstraintRender.type := "pin";
          ConstraintRender.custom := false;
          ConstraintRender.lineWidth := 2;
          ConstraintRender.strokeStyle := "#ffffff";
          ConstraintRender.anchors := anchors |};
     Constraint.pointA := Some {| Vector.x := 5; Vector.y := 5 |};
     Constraint.pointB := Some {| Vector.x := 0; Vector.y := 0 |};
     Constraint.bodyA := Some {| Vector.x := 10; Vector.y := 20 |};
     Constraint.bodyB := None;
     Constraint.length := 0 |}.

(** A line between two world points, in a custom style. *)
Definition customLine : Constraint.t :=
  {| Constraint.render :=
       {| ConstraintRender.visible := true;
          ConstraintRender.type := "line";
          ConstraintRender.custom := true;
          ConstraintRender.lineWidth := 3;
          ConstraintRender.strokeStyle := "#ff0000";
          ConstraintRender.anchors := false |};
     Constraint.pointA := Some {| Vector.x := 0; Vector.y := 0 |};
     Constraint.pointB := Some {| Vector.x := 8; Vector.y := 6 |};
     Constraint.bodyA := None;
     Constraint.bodyB := None;
     Constraint.length := 10 |}.


(** The default debug configuration, but for what is shown. *)
Definition configShowing (showBody showStaticBody showJoint : bool) : DebugConfig.t :=
  {| DebugConfig.showBody := showBody;
     DebugConfig.showStaticBody := showStaticBody;
     DebugConfig.showSleeping := false;
     DebugConfig.showJoint := showJoint;
     DebugConfig.showInternalEdges := false;
     DebugConfig.showConvexHulls := false;
     DebugConfig.renderFill := true;
     DebugConfig.renderStroke := true;
     DebugConfig.lineThickness := 1;
     DebugConfig.fillColor := 0x106909;
     DebugConfig.strokeColor := 0x28de19;
     DebugConfig.staticFillColor := 0x0d177b;
     DebugConfig.staticStrokeColor := 0x1327e4;
     DebugConfig.staticBodySleepOpacity := 7 / 10;
     DebugConfig.sleepFillColor := 0x464646;
     DebugConfig.sleepStrokeColor := 0x999a99;
     DebugConfig.jointColor := 0xe0e042;
     DebugConfig.jointLineThickness := 2;
     DebugConfig.pinSize := 4;
     DebugConfig.pinColor := 0x42e0e0;
     DebugConfig.springColor := 0xe042e0;
     DebugConfig.anchorColor := 0xefefef;
     DebugConfig.anchorSize := 6;
     DebugConfig.hullColor := 0xd703d0 |}.

(** The options [updateWall] gives to the walls it makes. *)
Definition wallOptions : Rectangle.Options :=
  {| Rectangle.isStatic := true; Rectangle.friction := 0; Rectangle.frictionStatic := 0 |}.

(** A configuration object with the [setBounds] and [debug] keys only. *)
Definition settings (setBounds : option Config.boundsSetting)
    (debug : option Config.debugSetting) : Config.t :=
  {| Config.gravity := None;
     Config.setBounds := setBounds;
     Config.enabled := None;
     Config.correction := None;
     Config.getDelta := None;
     Config.autoUpdate := None;
     Config.debug := debug;
     Config.debugWireframes := None;
     Config.debugShowBody := None;
     Config.debugShowStaticBody := None;
     Config.debugShowSleeping := None;
     Config.debugShowJoint := None;
     Config.debugShowInternalEdges := None;
     Config.debugShowConvexHulls := None;
     Config.debugBodyFillColor := None;
     Config.debugBodyColor := None;
     Config.debugStaticBodyColor := None;
     Config.debugJointColor := None;
     Config.debugConvexHullColor := None |}.

(** An engine as [Engine.create] leaves it: no body, gravity (0, 1) at
    scale 0.001, no listener. *)
Definition newEngine : Matter.Engine :=
  {| Matter.world :=
       {| Matter.bodies := [];
          Matter.gravity := {| Gravity.x := 0; Gravity.y := 1; Gravity.scale := 1 / 1000 |} |};
     Matter.updates := [];
     Matter.events := [];
     Matter.nextId := 0 |}.

(** The bounds object with no key: [{}]. *)
Definition emptyBounds : BoundsConfig.t :=
  {| BoundsConfig.x := None; BoundsConfig.y := None;
     BoundsConfig.width := None; BoundsConfig.height := None;
     BoundsConfig.thickness := None;
     BoundsConfig.left := None; BoundsConfig.right := None;
     BoundsConfig.top := None; BoundsConfig.bottom := None |}.

End Sample.

(** * Properties *)

Import World.
Import Spec.

(** ** Laws of [Draw] *)

Lemma bind_returned {A B : Type} (o : list graphics.call) (a : A) (k : A → Draw B) :
  (mbind k ((o, Some a) : Draw A)) = (o ++ calls (k a), snd (k a)).
Proof. unfold mbind, Draw_bind, calls. by destruct (k a). Qed.

Lemma bind_threw {A B : Type} (o : list graphics.call) (k : A → Draw B) :
  (mbind k ((o, None) : Draw A)) = (o, None).
Proof. reflexivity. Qed.

Lemma bind_emit {B : Type} (c : graphics.call) (m : Draw B) :
  (emit c ;; m) = (c :: calls m, snd m).
Proof. unfold emit. by rewrite bind_returned. Qed.

Lemma bind_mret {A B : Type} (a : A) (k : A → Draw B) :
  (mbind k (mret a : Draw A)) = k a.
Proof. unfold mret, Draw_ret. rewrite bind_returned. by destruct (k a). Qed.

Lemma item_lookup {A : Type} (l : list A) (i : nat) (a : A) :
  l !! i = Some a → item l i = mret a.
Proof. unfold item. by intros ->. Qed.

(** A loop whose every turn returns makes the calls of its turns, in order. *)
Lemma forEach_returned {A : Type} (l : list A) (body : A → Draw unit)
    (g : A → list graphics.call) :
  (∀ a, a ∈ l → body a = (g a, Some tt)) →
  forEach l body = (flat_map g l, Some tt).
Proof.
  induction l as [|a l IH]; intros Hret; [done|].
  cbn [forEach flat_map].
  rewrite (Hret a) by left.
  rewrite bind_returned, IH; [done|].
  intros a' Ha'. apply Hret. by right.
Qed.

(** ** Style of a sleeping body (C1) *)

Lemma renderBodies_body_shown (this : World.t) (body : Body.t) :
  shown (debugConfig this) body →
  renderBodies_body this body
  = (let '(lineStyle, fillStyle, opacity) := bodyStyle (debugConfig this) body in
     renderBody body (DebugConfig.showInternalEdges (debugConfig this))
       lineStyle fillStyle (Some opacity)
       (Some (DebugConfig.lineThickness (debugConfig this))) ;;
     hullOf this body).
Proof.
  intros (Hvisible & Hstatic & Hdynamic).
  unfold renderBodies_body, hullOf. rewrite Hvisible. cbn [negb].
  destruct (Body.isStatic body).
  - rewrite (Hstatic eq_refl). cbn [negb andb orb].
    by rewrite andb_false_r.
  - rewrite (Hdynamic eq_refl). cbn [negb andb orb].
    by rewrite andb_false_r.
Qed.




(** ** The polygon path of a part *)

Lemma paint_returned (lineColor fillColor : option Z) (opacity : option Q) (lineThickness : Q) :
  ((match fillColor with
    | Some fillColor => emit (graphics.fillStyle fillColor opacity) ;; emit graphics.fillPath
    | None => mret tt
    end) ;;
   (match lineColor with
    | Some lineColor =>
        emit (graphics.lineStyle lineThickness lineColor opacity) ;; emit graphics.strokePath
    | None => mret tt
    end) : Draw unit)
  = (paintCalls lineColor fillColor opacity lineThickness, Some tt).
Proof. by destruct fillColor, lineColor. Qed.

(** One turn of the vertex loop, for an index inside the polygon. *)
Lemma polygon_turn (showInternalEdges : bool) (vertices : list Vertex.t) (j : nat) :
  (1 ≤ j < List.length vertices)%nat →
  (vert ← item vertices j;
   previous ← item vertices (j - 1);
   (if negb (Vertex.isInternal previous) || showInternalEdges
    then emit (graphics.lineTo (Vertex.x vert) (Vertex.y vert))
    else emit (graphics.moveTo (Vertex.x vert) (Vertex.y vert))) ;;
   (if Vertex.isInternal vert && negb showInternalEdges
    then
      let nextIndex := ((j + 1) mod List.length vertices)%nat in
      next ← item vertices nextIndex;
      emit (graphics.moveTo (Vertex.x next) (Vertex.y next))
    else mret tt))
  = (edgeCalls showInternalEdges vertices j, Some tt).
Proof.
  intros [Hj1 Hjn].
  assert (Hnext : ((j + 1) mod List.length vertices < List.length vertices)%nat)
    by (apply Nat.mod_upper_bound; lia).
  rewrite (item_lookup vertices j (vertices !!! j))
    by (apply list_lookup_lookup_total_lt; lia).
  rewrite bind_mret.
  rewrite (item_lookup vertices (j - 1) (vertices !!! (j - 1)%nat))
    by (apply list_lookup_lookup_total_lt; lia).
  rewrite bind_mret.
  cbv zeta.
  rewrite (item_lookup vertices _ _ (list_lookup_lookup_total_lt _ _ Hnext)).
  unfold edgeCalls.
  destruct (negb (Vertex.isInternal (vertices !!! (j - 1)%nat)) || showInternalEdges),
    (Vertex.isInternal (vertices !!! j) && negb showInternalEdges); reflexivity.
Qed.

Lemma polygonPath_calls (showInternalEdges : bool) (vertices : list Vertex.t) :
  vertices ≠ [] →
  polygonPath showInternalEdges vertices
  = ([graphics.beginPath;
      graphics.moveTo (Vertex.x (vertices !!! 0%nat)) (Vertex.y (vertices !!! 0%nat))]
     ++ flat_map (edgeCalls showInternalEdges vertices) (seq 1 (List.length vertices - 1))
     ++ [graphics.closePath], Some tt).
Proof.
  intros Hne. unfold polygonPath.
  rewrite bind_emit.
  rewrite (item_lookup vertices 0 (vertices !!! 0%nat))
    by (apply list_lookup_lookup_total_lt; destruct vertices; [done | simpl; lia]).
  rewrite bind_mret, bind_emit.
  unfold forRange.
  rewrite (forEach_returned _ _ (edgeCalls showInternalEdges vertices)).
  - by rewrite bind_returned.
  - intros j Hj%list_elem_of_In%in_seq. by rewrite polygon_turn by lia.
Qed.

(** The turn of one part that is drawn as a polygon (visible, with a
    non-zero resolved opacity, no circle radius and at least one vertex):
    [beginPath], a move to vertex 0, the calls of every vertex [j >= 1] in
    order, [closePath], then the fill and the stroke; with what the calls of
    a vertex are. *)
Lemma renderPart_polygon_edges
    (showInternalEdges : bool) (lineColor fillColor : option Z) (opacity : option Q)
    (lineThickness : Q) (usePartOpacity : bool) (part : Part.t) :
  let vertices := Part.vertices part in
  let vertLength := List.length vertices in
  let resolved :=
    if usePartOpacity then Some (Render.opacity (Part.render part)) else opacity in
  Render.visible (Part.render part) = true →
  JS.strictEqZero resolved = false →
  JS.truthy (Part.circleRadius part) = false →
  vertices ≠ [] →
  renderPart showInternalEdges lineColor fillColor opacity lineThickness usePartOpacity part
  = ([graphics.beginPath;
      graphics.moveTo (Vertex.x (vertices !!! 0%nat)) (Vertex.y (vertices !!! 0%nat))]
     ++ flat_map (edgeCalls showInternalEdges vertices) (seq 1 (vertLength - 1))
     ++ [graphics.closePath]
     ++ paintCalls lineColor fillColor resolved lineThickness, Some tt)
  ∧ (∀ j : nat, (1 ≤ j < vertLength)%nat →
       let previous := vertices !!! (j - 1)%nat in
       let vert := vertices !!! j in
       let next := vertices !!! ((j + 1) mod vertLength)%nat in
       let toVert :=
         if negb (Vertex.isInternal previous) || showInternalEdges
         then graphics.lineTo (Vertex.x vert) (Vertex.y vert)
         else graphics.moveTo (Vertex.x vert) (Vertex.y vert) in
       edgeCalls showInternalEdges vertices j
       = toVert :: (if Vertex.isInternal vert && negb showInternalEdges
                    then [graphics.moveTo (Vertex.x next) (Vertex.y next)]
                    else [])
       ∧ (graphics.lineTo (Vertex.x vert) (Vertex.y vert)
            ∈ edgeCalls showInternalEdges vertices j
          ↔ Vertex.isInternal previous = false ∨ showInternalEdges = true)
       ∧ edgeCalls true vertices j = [graphics.lineTo (Vertex.x vert) (Vertex.y vert)]).
Proof.
  intros vertices vertLength resolved Hvisible Hopacity Hcircle Hne. split.
  - unfold renderPart. fold resolved.
    rewrite Hvisible, Hopacity, Hcircle. cbn [negb orb].
    fold vertices.
    rewrite (polygonPath_calls _ _ Hne), bind_returned, paint_returned.
    cbn [calls fst snd]. by rewrite <- !app_assoc.
  - intros j Hj previous vert next toVert. split; [|split].
    + unfold edgeCalls. fold previous vert vertLength next toVert.
      by destruct (negb (Vertex.isInternal previous) || showInternalEdges).
    + unfold edgeCalls. fold previous vert vertLength next.
      rewrite list_elem_of_In.
      destruct (Vertex.isInternal previous), showInternalEdges,
        (Vertex.isInternal vert); cbn; intuition congruence.
    + unfold edgeCalls. fold previous vert.
      by rewrite orb_true_r, andb_false_r.
Qed.


(** ** Springs (C3) *)

Lemma forEach_emit {A : Type} (l : list A) (f : A → graphics.call) :
  forEach l (λ a, emit (f a)) = (map f l, Some tt).
Proof.
  induction l as [|a l IH]; [done|].
  cbn [forEach map]. by rewrite bind_emit, IH.
Qed.

Lemma Common_clamp_bounds (value min max : Q) :
  (min <= max)%Q →
  (min <= Matter.Common_clamp value min max <= max)%Q.
Proof.
  intros Hmm. unfold Matter.Common_clamp.
  destruct (Qle_bool min value) eqn:Hlo; cbn [negb].
  - destruct (Qle_bool value max) eqn:Hhi; cbn [negb].
    + by split; apply Qle_bool_iff.
    + split; [done | apply Qle_refl].
  - split; [apply Qle_refl | done].
Qed.

Lemma springCoils_bounds (length : Q) : (12 ≤ springCoils length ≤ 20)%Z.
Proof.
  unfold springCoils.
  destruct (Common_clamp_bounds (length / 5)%Q 12%Q 20%Q) as [Hlo Hhi]; [done|].
  split.
  - change 12%Z with (Qceiling 12%Q). by apply Qceiling_resp_le.
  - change 20%Z with (Qceiling 20%Q). by apply Qceiling_resp_le.
Qed.

(** C3. For a constraint of render type 'spring' that [renderConstraint]
    draws, the number of coils is [ceil(clamp(length / 5, 12, 20))]: 12 for
    length 0 and 50, 14 for 70, 20 for 100 and 1000, and between 12 and 20
    for every length.  The spring is drawn as that many line segments: one
    to each coil point [j = 1 .. coils - 1], which lies at progress
    [j / coils] along the delta from start to end, moved by 4 units along
    the normal (forward for even [j], backward for odd [j]), then one to the
    end point. *)
Theorem renderConstraint_spring_coils :
  (∀ length : Q,
     springCoils length = Qceiling (Matter.Common_clamp (length / 5)%Q 12%Q 20%Q)
     ∧ (12 ≤ springCoils length ≤ 20)%Z)
  ∧ springCoils 0 = 12%Z
  ∧ springCoils 50 = 12%Z
  ∧ springCoils 70 = 14%Z
  ∧ springCoils 100 = 20%Z
  ∧ springCoils 1000 = 20%Z
  ∧ (∀ (start delta normal : Vector.t) (coils : Z) (j : nat),
       let offset : Q := (if Z.even (Z.of_nat j) then 1 else -1)%Q in
       let progress : Q := (inject_Z (Z.of_nat j) / inject_Z coils)%Q in
       coilPoint start delta normal coils j
       = {| Vector.x :=
              (Vector.x start + Vector.x delta * progress + Vector.x normal * offset * 4)%Q;
            Vector.y :=
              (Vector.y start + Vector.y delta * progress + Vector.y normal * offset * 4)%Q |})
  ∧ (∀ (Vector_normalise Vector_perp : Vector.t → Vector.t)
       (Common_colorToNumber : string → Z) (constraint : Constraint.t)
       (lineColor : Z) (lineThickness : Q) (springColor pinColor : Z) (pinSize : Q)
       (anchorColor : Z) (anchorSize : Q) (pointA pointB : Vector.t),
       let render := Constraint.render constraint in
       let start := from_option (λ position, Matter.Vector_add position pointA) pointA
                      (Constraint.bodyA constraint) in
       let end_ := from_option (λ position, Matter.Vector_add position pointB) pointB
                     (Constraint.bodyB constraint) in
       let delta := Matter.Vector_sub end_ start in
       let normal := Vector_perp (Vector_normalise delta) in
       let coils := springCoils (Constraint.length constraint) in
       let coilCalls :=
         map (λ j, let p := coilPoint start delta normal coils j in
                   graphics.lineTo (Vector.x p) (Vector.y p))
             (seq 1 (Z.to_nat coils - 1)) in
       ConstraintRender.visible render = true →
       Constraint.pointA constraint = Some pointA →
       Constraint.pointB constraint = Some pointB →
       ConstraintRender.type render = "spring" →
       renderConstraint Vector_normalise Vector_perp Common_colorToNumber constraint
         lineColor lineThickness springColor pinColor pinSize anchorColor anchorSize
       = ([constraintStyle Common_colorToNumber render lineThickness lineColor;
           graphics.beginPath;
           graphics.moveTo (Vector.x start) (Vector.y start)]
          ++ (if ConstraintRender.custom render then []
              else [graphics.lineStyle lineThickness springColor None])
          ++ coilCalls
          ++ [graphics.lineTo (Vector.x end_) (Vector.y end_); graphics.strokePath]
          ++ anchorCalls render anchorColor anchorSize start end_, Some tt)
       ∧ (Z.of_nat (List.length coilCalls) + 1 = coils)%Z).
Proof.
  split; [intros length; split; [reflexivity | apply springCoils_bounds]|].
  do 5 (split; [reflexivity|]).
  split.
  - intros start delta normal coils j. unfold coilPoint.
    by rewrite Zeven_mod.
  - intros Vector_normalise Vector_perp Common_colorToNumber constraint lineColor
      lineThickness springColor pinColor pinSize anchorColor anchorSize pointA pointB
      render start end_ delta normal coils coilCalls Hvisible HpointA HpointB Htype.
    split; [|unfold coilCalls; rewrite length_map, length_seq;
             pose proof (springCoils_bounds (Constraint.length constraint)); lia].
    unfold renderConstraint. fold render.
    rewrite Hvisible, HpointA, HpointB, Htype.
    cbn [String.eqb Ascii.eqb Bool.eqb].
    unfold forRange. rewrite forEach_emit.
    unfold constraintStyle, anchorCalls, coilCalls, coils, normal, delta, end_, start.
    fold render.
    destruct (ConstraintRender.custom render),
      (ConstraintRender.anchors render && negb (Qle_bool anchorSize 0)),
      (Constraint.bodyA constraint), (Constraint.bodyB constraint);
      cbn [negb from_option];
      repeat (rewrite ?bind_emit, ?bind_mret, ?bind_returned;
              cbn [calls fst snd app mret Draw_ret emit]);
      by rewrite <- ?app_assoc.
Qed.

Lemma renderConstraint_spring_coils_witness :
  let constraint := Sample.spring 70 in
  let start := {| Vector.x := 0%Q; Vector.y := 0%Q |} in
  let end_ := {| Vector.x := 70%Q; Vector.y := 0%Q |} in
  let delta := Matter.Vector_sub end_ start in
  let normal := Sample.perp (Sample.unitX delta) in
  let coilCalls :=
    map (λ j, let p := coilPoint start delta normal 14 j in
              graphics.lineTo (Vector.x p) (Vector.y p))
        (seq 1 13) in
  renderConstraint Sample.unitX Sample.perp Sample.noColor constraint
    0xe0e042 2 0xe042e0 0x42e0e0 4 0xefefef 6
  = ([graphics.lineStyle 2 0xe0e042 None;
      graphics.beginPath;
      graphics.moveTo 0 0;
      graphics.lineStyle 2 0xe042e0 None]
     ++ coilCalls
     ++ [graphics.lineTo 70 0; graphics.strokePath;
         graphics.fillStyle 0xefefef None;
         graphics.fillCircle 0 0 6;
         graphics.fillCircle 70 0 6], Some tt)
  ∧ (Z.of_nat (List.length coilCalls) + 1 = 14)%Z.
Proof.
  exact (proj2 (proj2 (proj2 (proj2 (proj2 (proj2 (proj2
           renderConstraint_spring_coils))))))
           Sample.unitX Sample.perp Sample.noColor (Sample.spring 70)
           0xe0e042%Z 2%Q 0xe042e0%Z 0x42e0e0%Z 4%Q 0xefefef%Z 6%Q
           {| Vector.x := 0%Q; Vector.y := 0%Q |}
           {| Vector.x := 70%Q; Vector.y := 0%Q |}
           eq_refl eq_refl eq_refl eq_refl).
Defined.

(** ** Which bodies are drawn (C4) *)



(** A loop over the indices of an array that only reads the element at its
    index is a loop over the elements. *)
Lemma forEach_item {A : Type} (f : A → Draw unit) (l pre : list A) :
  forEach (seq (List.length pre) (List.length l)) (λ k, part ← item (pre ++ l) k; f part)
  = forEach l f.
Proof.
  revert pre. induction l as [|a l IH]; intros pre; [done|].
  cbn [List.length seq forEach].
  rewrite (item_lookup (pre ++ a :: l) (List.length pre) a) by (by apply list_lookup_middle).
  rewrite bind_mret.
  specialize (IH (pre ++ [a])).
  rewrite length_app, Nat.add_1_r, <- app_assoc in IH.
  cbn [app] in IH. by rewrite IH.
Qed.

Lemma forRange_item {A : Type} (f : A → Draw unit) (l : list A) (from : nat) :
  (from ≤ List.length l)%nat →
  forRange from (List.length l) (λ k, part ← item l k; f part) = forEach (drop from l) f.
Proof.
  intros Hfrom. unfold forRange.
  rewrite <- (forEach_item f (drop from l) (take from l)).
  by rewrite take_drop, length_take, length_drop, Nat.min_l.
Qed.

Lemma renderBody_parts (body : Body.t) (showInternalEdges : bool)
    (lineColor fillColor : option Z) (opacity lineThickness : option Q) :
  renderBody body showInternalEdges lineColor fillColor opacity lineThickness
  = forEach (drawnParts body)
      (renderPart showInternalEdges lineColor fillColor opacity
         (default 1%Q lineThickness) (JS.not opacity)).
Proof.
  unfold renderBody, drawnParts.
  destruct (1 <? List.length (Body.parts body))%nat eqn:Hcompound.
  - apply forRange_item. apply Nat.ltb_lt in Hcompound. lia.
  - rewrite forRange_item by lia. by rewrite drop_0.
Qed.

Lemma renderPart_skipped (showInternalEdges : bool) (lineColor fillColor : option Z)
    (opacity : option Q) (lineThickness : Q) (part : Part.t) :
  partDrawn opacity part = false →
  renderPart showInternalEdges lineColor fillColor opacity lineThickness
    (JS.not opacity) part = ([], Some tt).
Proof.
  unfold partDrawn, renderPart. intros Hskip.
  apply andb_false_iff in Hskip as [-> | ->%negb_false_iff]; [done|].
  by rewrite orb_true_r.
Qed.



Lemma hullOf_calls (this : World.t) (body : Body.t) :
  calls (hullOf this body) ≠ []
  ↔ DebugConfig.showConvexHulls (debugConfig this) = true
    ∧ (1 < List.length (Body.parts body))%nat.
Proof.
  unfold hullOf, renderConvexHull.
  destruct (DebugConfig.showConvexHulls (debugConfig this));
    destruct (1 <? List.length (Body.parts body))%nat eqn:Hcompound; cbn [andb].
  - rewrite bind_emit. apply Nat.ltb_lt in Hcompound. by split.
  - apply Nat.ltb_ge in Hcompound. split; [done|]. intros [_ ?]. lia.
  - split; [done|]. by intros [? _].
  - split; [done|]. by intros [? _].
Qed.

Lemma renderBodies_body_hidden (this : World.t) (body : Body.t) :
  ¬ shown (debugConfig this) body →
  renderBodies_body this body = ([], Some tt).
Proof.
  unfold shown, renderBodies_body. intros Hhidden.
  destruct (Render.visible (Body.render body)); [|done].
  destruct (Body.isStatic body), (DebugConfig.showStaticBody (debugConfig this)),
    (DebugConfig.showBody (debugConfig this)); try done; exfalso; apply Hhidden; by repeat split.
Qed.



(** ** The walls (C5, C6) *)

Lemma removeIfWall_walls (wall : option (option Rectangle.t)) (this : World.t) :
  walls (removeIfWall wall this) = walls this.
Proof. by destruct wall as [[?|]|]. Qed.

Lemma removeIfWall_nextId (wall : option (option Rectangle.t)) (this : World.t) :
  Matter.nextId (engine (removeIfWall wall this)) = Matter.nextId (engine this).
Proof. by destruct wall as [[?|]|]. Qed.

Lemma removeIfWall_bodies (wall : option (option Rectangle.t)) (this : World.t) :
  Matter.bodies (localWorld (removeIfWall wall this))
  = match wall with
    | Some (Some old) =>
        filter (λ b, Rectangle.id b ≠ Rectangle.id old) (Matter.bodies (localWorld this))
    | _ => Matter.bodies (localWorld this)
    end.
Proof. by destruct wall as [[?|]|]. Qed.

Lemma updateWall_walls (add : bool) (position : string) (x y width height : Q)
    (this : World.t) :
  walls (updateWall add position x y width height this)
  = <[position := if add
                  then Some (wall (Matter.nextId (engine this)) x y width height)
                  else None]> (walls this).
Proof.
  unfold updateWall. destruct add; cbn.
  - by rewrite removeIfWall_walls, removeIfWall_nextId.
  - by rewrite removeIfWall_walls.
Qed.

Lemma updateWall_nextId (add : bool) (position : string) (x y width height : Q)
    (this : World.t) :
  Matter.nextId (engine (updateWall add position x y width height this))
  = if add then S (Matter.nextId (engine this)) else Matter.nextId (engine this).
Proof.
  unfold updateWall. destruct add; cbn; by rewrite removeIfWall_nextId.
Qed.

Lemma updateWall_bodies (add : bool) (position : string) (x y width height : Q)
    (this : World.t) :
  Matter.bodies (localWorld (updateWall add position x y width height this))
  = match walls this !! position with
    | Some (Some old) =>
        filter (λ b, Rectangle.id b ≠ Rectangle.id old) (Matter.bodies (localWorld this))
    | _ => Matter.bodies (localWorld this)
    end
    ++ (if add then [wall (Matter.nextId (engine this)) x y width height] else []).
Proof.
  unfold updateWall.
  destruct add, (walls this !! position) as [[old|]|]; cbn; by rewrite ?app_nil_r.
Qed.

Lemma boundaryState_updateWall (add : bool) (position : string) (x y width height : Q)
    (this : World.t) :
  boundaryState (updateWall add position x y width height this)
  = updateWallState add position x y width height (boundaryState this).
Proof.
  unfold boundaryState, updateWallState.
  by rewrite updateWall_walls, updateWall_nextId, updateWall_bodies.
Qed.

Lemma boundaryState_setBounds (x y width height thickness : option Q)
    (onLeft onRight onTop onBottom : option bool) (this : World.t) :
  let x' := default 0%Q x in
  let y' := default 0%Q y in
  let width' := default (scaleWidth this) width in
  let height' := default (scaleHeight this) height in
  let thickness' := default 128%Q thickness in
  boundaryState (setBounds x y width height thickness onLeft onRight onTop onBottom this)
  = updateWallState (default true onBottom) "bottom" x' (y' + height') width' thickness'
      (updateWallState (default true onTop) "top" x' (y' - thickness') width' thickness'
         (updateWallState (default true onRight) "right" (x' + width') (y' - thickness')
            thickness' (height' + thickness' * 2)
            (updateWallState (default true onLeft) "left" (x' - thickness')
               (y' - thickness') thickness' (height' + thickness' * 2)
               (boundaryState this)))).
Proof.
  intros x' y' width' height' thickness'. unfold setBounds.
  by rewrite !boundaryState_updateWall.
Qed.

(** Taking out a body whose identity is not in the list changes nothing. *)
Lemma filter_fresh (bodies : list Rectangle.t) (next id : nat) :
  Forall (λ b, Rectangle.id b < next) bodies →
  next ≤ id →
  filter (λ b, Rectangle.id b ≠ id) bodies = bodies.
Proof.
  intros Hold Hfresh. induction Hold as [|b bodies Hb _ IH]; [done|].
  rewrite filter_cons_True by lia. by rewrite IH.
Qed.

Lemma initialWalls_lookup (side : string) :
  side ∈ sides → initialWalls !! side = Some None.
Proof.
  unfold sides. intros Hside.
  repeat (apply elem_of_cons in Hside as [-> | Hside]; [reflexivity|]).
  by apply elem_of_nil in Hside.
Qed.

Ltac lookup_wall :=
  repeat first
    [ rewrite lookup_insert_eq
    | rewrite lookup_insert_ne by done
    | rewrite initialWalls_lookup by (apply list_elem_of_In; simpl; tauto) ].








Lemma wallState_updateWall (add : bool) (position : string) (x y width height : Q)
    (this : World.t) (side : string) :
  wallState (updateWall add position x y width height this) side
  = if String.eqb side position then Some add else wallState this side.
Proof.
  unfold wallState. rewrite updateWall_walls.
  destruct (String.eqb_spec side position) as [-> | Hne].
  - rewrite lookup_insert_eq. by destruct add.
  - by rewrite lookup_insert_ne.
Qed.

Lemma wallState_setBounds (x y width height thickness : option Q)
    (onLeft onRight onTop onBottom : option bool) (this : World.t) (side : string) :
  wallState (setBounds x y width height thickness onLeft onRight onTop onBottom this) side
  = from_option Some (wallState this side)
      (includes side
         (callSetBounds x y width height thickness onLeft onRight onTop onBottom)).
Proof.
  unfold setBounds, includes. rewrite !wallState_updateWall.
  destruct (String.eqb_spec side "left") as [-> | _]; [done|].
  destruct (String.eqb_spec side "right") as [-> | _]; [done|].
  destruct (String.eqb_spec side "top") as [-> | _]; [done|].
  by destruct (String.eqb_spec side "bottom") as [-> | _].
Qed.

Lemma wallState_runCall (this : World.t) (call : boundaryCall) (side : string) :
  wallState (runCall this call) side
  = from_option Some (wallState this side) (includes side call).
Proof.
  destruct call as [x y width height thickness onLeft onRight onTop onBottom
                   | add position x y width height]; cbn [runCall].
  - apply wallState_setBounds.
  - rewrite wallState_updateWall. cbn [includes].
    by destruct (String.eqb side position).
Qed.

Lemma wallState_runCalls (calls : list boundaryCall) (this : World.t) (side : string) :
  wallState (runCalls this calls) side
  = from_option Some (wallState this side) (lastIncluded side calls).
Proof.
  unfold runCalls, lastIncluded.
  assert (Hfold : ∀ (history : list boundaryCall) (last : option bool) (earlier : option bool),
            from_option Some earlier
              (fold_left (λ last call, from_option Some last (includes side call)) history last)
            = fold_left (λ last call, from_option Some last (includes side call)) history
                (from_option Some earlier last)).
  { intros history. induction history as [|call history IH]; intros last earlier; [done|].
    cbn [fold_left]. rewrite IH. f_equal.
    by destruct (includes side call), last. }
  rewrite Hfold. cbn [from_option].
  revert this. induction calls as [|call calls IH]; intros this; [done|].
  cbn [fold_left]. by rewrite IH, wallState_runCall.
Qed.

Lemma hasWall_wallState (this : World.t) (side : string) :
  hasWall this side ↔ wallState this side = Some true.
Proof.
  unfold hasWall, wallState. split.
  - by intros [body ->].
  - destruct (walls this !! side) as [[body|]|]; [by exists body|done|done].
Qed.

(** C6. After every sequence of [setBounds] and [updateWall] calls on a World
    whose walls started as [null], and for every side in left, right, top,
    bottom, [walls[side]] holds a body iff the most recent boundary update
    of that side had its flag true (an omitted [setBounds] flag being true).
    [updateWall] with a false flag always leaves [walls[side]] [null], and
    with a true flag always leaves it referencing the body just created. *)
Theorem walls_follow_last_update :
  (∀ (this : World.t) (calls : list boundaryCall) (side : string),
     walls this = initialWalls →
     side ∈ sides →
     hasWall (runCalls this calls) side ↔ lastIncluded side calls = Some true)
  ∧ (∀ (this : World.t) (position : string) (x y width height : Q),
       walls (updateWall false position x y width height this) !! position = Some None)
  ∧ (∀ (this : World.t) (position : string) (x y width height : Q),
       walls (updateWall true position x y width height this) !! position
       = Some (Some (wall (Matter.nextId (engine this)) x y width height))
       ∧ hasWall (updateWall true position x y width height this) position).
Proof.
  split; [|split].
  - intros this calls side Hwalls Hside.
    rewrite hasWall_wallState, wallState_runCalls.
    assert (Hnull : wallState this side = Some false).
    { unfold wallState. rewrite Hwalls. unfold sides in Hside.
      repeat (apply elem_of_cons in Hside as [-> | Hside]; [reflexivity|]).
      by apply elem_of_nil in Hside. }
    rewrite Hnull. by destruct (lastIncluded side calls) as [[|]|].
  - intros this position x y width height.
    by rewrite updateWall_walls, lookup_insert_eq.
  - intros this position x y width height.
    assert (walls (updateWall true position x y width height this) !! position
            = Some (Some (wall (Matter.nextId (engine this)) x y width height)))
      by (by rewrite updateWall_walls, lookup_insert_eq).
    split; [done|]. by eexists.
Qed.

Lemma walls_follow_last_update_witness :
  let history :=
    [callSetBounds (Some 0%Q) (Some 0%Q) (Some 800%Q) (Some 600%Q) None None None None None;
     callSetBounds (Some 0%Q) (Some 0%Q) (Some 800%Q) (Some 600%Q) None
       (Some false) None None None;
     callUpdateWall false "top" 0 (-128) 800 128] in
  let this := runCalls (Sample.world (Sample.config false true (7 / 10))) history in
  lastIncluded "right" history = Some true
  ∧ hasWall this "right"
  ∧ lastIncluded "left" history = Some false
  ∧ ¬ hasWall this "left"
  ∧ lastIncluded "top" history = Some false
  ∧ ¬ hasWall this "top".
Proof.
  intros history this.
  pose proof (proj1 walls_follow_last_update
                (Sample.world (Sample.config false true (7 / 10))) history) as H.
  assert (Hsides : ∀ side, In side sides → side ∈ sides)
    by (intros side; apply list_elem_of_In).
  split; [reflexivity|]. split.
  { apply (proj2 (H "right" eq_refl (Hsides "right" ltac:(simpl; tauto)))). reflexivity. }
  split; [reflexivity|]. split.
  { intros Hwall.
    apply (proj1 (H "left" eq_refl (Hsides "left" ltac:(simpl; tauto)))) in Hwall.
    discriminate Hwall. }
  split; [reflexivity|].
  intros Hwall.
  apply (proj1 (H "top" eq_refl (Hsides "top" ltac:(simpl; tauto)))) in Hwall.
  discriminate Hwall.
Defined.

(** ** Stepping (C7) *)

(** C7. [update(time, delta)] invokes the engine step iff [enabled] and
    [autoUpdate] are both true, and then with [getDelta(time, delta)] as
    delta and the configured [correction]; otherwise it changes nothing.
    [step(delta, correction)] invokes the engine step with its own two
    arguments whatever [enabled], [autoUpdate] and [getDelta] are. *)
Theorem update_steps_iff_enabled :
  (∀ (time delta : Q) (this : World.t),
     Matter.updates (engine (update time delta this))
     = Matter.updates (engine this)
       ++ (if enabled this && autoUpdate this
           then [(Some (getDelta this time delta), Some (correction this))]
           else [])
     ∧ (Matter.updates (engine (update time delta this)) ≠ Matter.updates (engine this)
        ↔ enabled this = true ∧ autoUpdate this = true)
     ∧ (enabled this && autoUpdate this = false → update time delta this = this))
  ∧ (∀ (delta correction : option Q) (this : World.t),
       Matter.updates (engine (step delta correction this))
       = Matter.updates (engine this) ++ [(delta, correction)]).
Proof.
  split.
  - intros time delta this. unfold update.
    destruct (enabled this), (autoUpdate this); cbn [andb]; repeat split;
      try (by rewrite ?app_nil_r); try congruence; try (by intros [? ?]).
    intros _ Heq. cbn in Heq.
    apply (f_equal List.length) in Heq. rewrite length_app in Heq. cbn in Heq. lia.
  - reflexivity.
Qed.

(** ** Collision events (C8) *)

(** C8. For each of the engine's [collisionStart], [collisionActive] and
    [collisionEnd] notifications, triggering it on the engine makes the
    listener of [setEventsProxy] emit, before the trigger returns, the
    corresponding World event with the arguments [(event, bodyA, bodyB)]:
    the raw event object itself, and the bodies of the first pair of
    [event.pairs], or [undefined] twice when there is no pair. *)
Theorem collision_events_carry_first_pair :
  ∀ (this : World.t) (notification : string) (name : Events.name) (event : EngineEvent.t),
    (notification, name) ∈ collisionNotifications →
    Matter.Events_trigger (engine (setEventsProxy this)) notification event
    = Matter.Events_trigger (engine this) notification event
      ++ [ {| Events.emitted := name;
              Events.args := [Events.event event;
                              (firstPairBodies event).1;
                              (firstPairBodies event).2] |} ]
    ∧ (EngineEvent.pairs event = [] →
       firstPairBodies event = (Events.undefined, Events.undefined))
    ∧ (∀ pair0 rest, EngineEvent.pairs event = pair0 :: rest →
       firstPairBodies event
       = (Events.body (Pair.bodyA pair0), Events.body (Pair.bodyB pair0))).
Proof.
  intros this notification name event Hin.
  split; [|split].
  - unfold collisionNotifications in Hin.
    unfold Matter.Events_trigger, setEventsProxy, Matter.Events_on, firstPairBodies.
    cbn [engine set_engine Matter.events].
    rewrite !flat_map_app. cbn [flat_map fst snd app].
    repeat (apply elem_of_cons in Hin as [[= -> ->] | Hin];
            [cbn; rewrite ?app_nil_r; unfold collisionListener;
             by destruct (EngineEvent.pairs event)|]).
    by apply elem_of_nil in Hin.
  - unfold firstPairBodies. by intros ->.
  - unfold firstPairBodies. by intros pair0 rest ->.
Qed.

Lemma collision_events_carry_first_pair_witness :
  let this := Sample.world (Sample.config false true (7 / 10)) in
  let a := leftWall 0 in
  let b := rightWall 1 in
  let event :=
    {| EngineEvent.name := "collisionStart"; EngineEvent.timestamp := 0%Q;
       EngineEvent.pairs := [ {| Pair.bodyA := a; Pair.bodyB := b |} ] |} in
  Matter.Events_trigger (engine (setEventsProxy this)) "collisionStart" event
  = [ {| Events.emitted := Events.COLLISION_START;
         Events.args := [Events.event event; Events.body a; Events.body b] |} ].
Proof.
  intros this a b event.
  refine (proj1 (collision_events_carry_first_pair this "collisionStart"
                   Events.COLLISION_START event _)).
  unfold collisionNotifications. constructor.
Defined.

(** ** Collision ids (C9) *)

(** C9, amended.  [resetCollisionIDs()] called on any World puts the three
    counters shared by the whole process back to 1, -1 and 0x0001, whatever
    they were; on any World the next [nextGroup(false)] then returns 1 and
    the next [nextGroup(true)] returns -1.  The next [nextCategory()]
    returns 0x0002, not 0x0001: the counter is shifted before it is
    returned. *)
Theorem resetCollisionIDs_restores :
  ∀ (this other : World.t) (statics : Matter.BodyStatics),
    let statics' := resetCollisionIDs this statics in
    statics' = initialStatics
    ∧ (nextGroup false other statics').1 = 1%Z
    ∧ (nextGroup true other statics').1 = (-1)%Z
    ∧ (nextCategory other statics').1 = 0x0002%Z
    ∧ Matter._nextCategory (nextCategory other statics').2 = 0x0002%Z.
Proof. by intros this other [colliding nonColliding category]. Qed.

(** The claim as it was made fails: after a reset the next category is not
    0x0001. *)
Lemma resetCollisionIDs_restores_counterexample :
  let this := Sample.world (Sample.config false true (7 / 10)) in
  let used :=
    {| Matter._nextCollidingGroupId := 5; Matter._nextNonCollidingGroupId := -3;
       Matter._nextCategory := 0x0008 |} in
  (nextCategory this (resetCollisionIDs this used)).1 ≠ 0x0001%Z.
Proof. intros this used. vm_compute. discriminate. Qed.

(** ** Gravity (C10) *)

(** C10. [setGravity(x, y, scale)] sets the x and y components of the world
    gravity to [x] and [y], an omitted [x] counting as 0 and an omitted [y]
    as 1; it sets [gravity.scale] to [scale] when [scale] is given and
    leaves it as it was when [scale] is undefined, so the scale changes only
    when a scale is supplied.  [disableGravity()] sets all three of x, y and
    scale to 0.  Neither touches the bodies of the world. *)
Theorem setGravity_keeps_scale :
  ∀ (x y scale : option Q) (this : World.t),
    let before := Matter.gravity (localWorld this) in
    let after := Matter.gravity (localWorld (setGravity x y scale this)) in
    after = {| Gravity.x := default 0%Q x;
               Gravity.y := default 1%Q y;
               Gravity.scale := default (Gravity.scale before) scale |}
    ∧ Matter.gravity (localWorld (setGravity x y None this))
      = {| Gravity.x := default 0%Q x;
           Gravity.y := default 1%Q y;
           Gravity.scale := Gravity.scale before |}
    ∧ (Gravity.scale after ≠ Gravity.scale before → scale ≠ None)
    ∧ Matter.gravity (localWorld (disableGravity this))
      = {| Gravity.x := 0%Q; Gravity.y := 0%Q; Gravity.scale := 0%Q |}
    ∧ Matter.bodies (localWorld (setGravity x y scale this))
      = Matter.bodies (localWorld this)
    ∧ Matter.bodies (localWorld (disableGravity this))
      = Matter.bodies (localWorld this).
Proof.
  intros x y scale this before after. unfold after, before.
  destruct scale as [scale|]; repeat split; try done.
Qed.

(** * Further properties *)

(** ** More laws of [Draw] *)

Lemma calls_bind {A B : Type} (m : Draw A) (k : A → Draw B) :
  calls (mbind k m)
  = calls m ++ match snd m with Some a => calls (k a) | None => [] end.
Proof.
  destruct m as [o [a|]].
  - by rewrite bind_returned.
  - by rewrite bind_threw, app_nil_r.
Qed.

Lemma snd_bind {A B : Type} (m : Draw A) (k : A → Draw B) :
  snd (mbind k m) = match snd m with Some a => snd (k a) | None => None end.
Proof.
  destruct m as [o [a|]]; [by rewrite bind_returned | done].
Qed.

Lemma Draw_eq {A : Type} (m m' : Draw A) :
  calls m = calls m' → snd m = snd m' → m = m'.
Proof. destruct m, m'. cbn. by intros -> ->. Qed.

Lemma bind_assoc {A B C : Type} (m : Draw A) (k : A → Draw B) (k' : B → Draw C) :
  mbind k' (mbind k m) = mbind (λ a, mbind k' (k a)) m.
Proof.
  apply Draw_eq.
  - rewrite !calls_bind, !snd_bind. destruct (snd m) as [a|].
    + by rewrite calls_bind, app_assoc.
    + by rewrite app_nil_r.
  - rewrite !snd_bind. destruct (snd m) as [a|]; [by rewrite snd_bind | done].
Qed.

Lemma forEach_app {A : Type} (l l' : list A) (body : A → Draw unit) :
  forEach (l ++ l') body = (forEach l body ;; forEach l' body).
Proof.
  induction l as [|a l IH]; cbn [app forEach].
  - by rewrite bind_mret.
  - by rewrite IH, bind_assoc.
Qed.

(** Every call of a loop is a call of one of its turns. *)
Lemma forEach_calls_elem {A : Type} (l : list A) (body : A → Draw unit)
    (c : graphics.call) :
  c ∈ calls (forEach l body) → ∃ a, a ∈ l ∧ c ∈ calls (body a).
Proof.
  induction l as [|a l IH]; cbn [forEach].
  - intros Hc. by apply elem_of_nil in Hc.
  - rewrite calls_bind. intros [Hc | Hc]%elem_of_app.
    + exists a. split; [left | done].
    + destruct (snd (body a)); [|by apply elem_of_nil in Hc].
      destruct (IH Hc) as (a' & Ha' & Hc'). exists a'. split; [by right | done].
Qed.

(** A loop stops on a [TypeError] exactly when one of its turns does. *)
Lemma forEach_threw {A : Type} (l : list A) (body : A → Draw unit) :
  snd (forEach l body) = None ↔ ∃ a, a ∈ l ∧ snd (body a) = None.
Proof.
  induction l as [|a l IH]; cbn [forEach].
  - split; [done|]. intros (a & Ha & _). by apply elem_of_nil in Ha.
  - rewrite snd_bind. destruct (snd (body a)) as [[]|] eqn:Ha.
    + rewrite IH. split.
      * intros (a' & Ha' & Hthrew). exists a'. split; [by right | done].
      * intros (a' & [-> | Ha']%elem_of_cons & Hthrew); [congruence|]. by exists a'.
    + split; [|done]. intros _. exists a. split; [left | done].
Qed.

(** ** Drawing a body *)

Lemma polygonPath_empty (showInternalEdges : bool) :
  polygonPath showInternalEdges [] = ([graphics.beginPath], None).
Proof. reflexivity. Qed.

Lemma edgeCalls_path (showInternalEdges : bool) (vertices : list Vertex.t) (j : nat)
    (c : graphics.call) :
  c ∈ edgeCalls showInternalEdges vertices j → isPathCall c = true.
Proof.
  unfold edgeCalls. rewrite list_elem_of_In.
  destruct (negb _ || showInternalEdges), (Vertex.isInternal _ && negb showInternalEdges);
    cbn; intuition (subst; done).
Qed.

Lemma polygonPath_path (showInternalEdges : bool) (vertices : list Vertex.t)
    (c : graphics.call) :
  c ∈ calls (polygonPath showInternalEdges vertices) → isPathCall c = true.
Proof.
  destruct vertices as [|v vertices].
  - rewrite polygonPath_empty. cbn. by intros ->%list_elem_of_singleton.
  - rewrite polygonPath_calls by done. cbn [calls fst].
    rewrite !elem_of_app, list_elem_of_In. intros [Hc | [Hc | Hc]].
    + cbn in Hc. intuition (subst; done).
    + apply list_elem_of_In, in_flat_map in Hc as (j & _ & Hc).
      by apply list_elem_of_In, edgeCalls_path in Hc.
    + by apply list_elem_of_singleton in Hc as ->.
Qed.

(** A part makes path calls and the calls that paint the path in the
    colours, thickness and resolved opacity it was given. *)
Lemma renderPart_calls_elem (showInternalEdges : bool) (lineColor fillColor : option Z)
    (opacity : option Q) (lineThickness : Q) (usePartOpacity : bool) (part : Part.t)
    (c : graphics.call) :
  let resolved :=
    if usePartOpacity then Some (Render.opacity (Part.render part)) else opacity in
  c ∈ calls (renderPart showInternalEdges lineColor fillColor opacity lineThickness
               usePartOpacity part) →
  isPathCall c = true ∨ c ∈ paintCalls lineColor fillColor resolved lineThickness.
Proof.
  intros resolved. unfold renderPart. fold resolved.
  destruct (negb (Render.visible (Part.render part)) || JS.strictEqZero resolved).
  { intros Hc. by apply elem_of_nil in Hc. }
  rewrite calls_bind, paint_returned. intros [Hc | Hc]%elem_of_app.
  - left. destruct (JS.truthy (Part.circleRadius part)).
    + rewrite bind_emit in Hc. cbn in Hc. apply list_elem_of_In in Hc.
      cbn in Hc. intuition (subst; done).
    + by apply polygonPath_path in Hc.
  - right. destruct (snd _); [done | by apply elem_of_nil in Hc].
Qed.

Lemma polygonPath_threw (showInternalEdges : bool) (vertices : list Vertex.t) :
  snd (polygonPath showInternalEdges vertices) = None ↔ vertices = [].
Proof.
  destruct vertices as [|v vertices]; [done|].
  by rewrite polygonPath_calls.
Qed.

Lemma renderPart_threw (showInternalEdges : bool) (lineColor fillColor : option Z)
    (opacity : option Q) (lineThickness : Q) (part : Part.t) :
  snd (renderPart showInternalEdges lineColor fillColor opacity lineThickness
         (JS.not opacity) part) = None
  ↔ isEmptyPolygon opacity part = true.
Proof.
  unfold isEmptyPolygon. destruct (partDrawn opacity part) eqn:Hdrawn.
  - unfold partDrawn in Hdrawn. apply andb_true_iff in Hdrawn as [Hv Hz%negb_true_iff].
    unfold renderPart. rewrite Hv, Hz. cbn [negb orb andb].
    rewrite snd_bind, paint_returned.
    destruct (JS.truthy (Part.circleRadius part)); cbn [negb].
    + by rewrite !bind_emit.
    + destruct (Part.vertices part) as [|v vertices] eqn:Hvertices.
      * by rewrite polygonPath_empty.
      * by rewrite polygonPath_calls.
  - rewrite renderPart_skipped by done. done.
Qed.

(** ** Internal edges (C2) *)

(** A loop none of whose turns stops on a [TypeError] returns. *)
Lemma forEach_parts_returned (showInternalEdges : bool) (lineColor fillColor : option Z)
    (opacity : option Q) (lineThickness : Q) (parts : list Part.t) :
  Forall (λ part, isEmptyPolygon opacity part = false) parts →
  snd (forEach parts
         (renderPart showInternalEdges lineColor fillColor opacity lineThickness
            (JS.not opacity)))
  = Some tt.
Proof.
  intros Hparts.
  destruct (snd (forEach parts _)) as [[]|] eqn:Hthrew; [done|].
  apply forEach_threw in Hthrew as (part & Hpart & Hthrew).
  apply renderPart_threw in Hthrew.
  rewrite Forall_forall in Hparts. specialize (Hparts part Hpart). congruence.
Qed.

(** C2. In the polygon path that [renderBody] emits for a part: take a part
    that [renderBody] visits and draws as a polygon (visible, with a
    non-zero resolved opacity, no circle radius and at least one vertex),
    after parts none of which stops the loop (none is drawn as a polygon
    without a vertex).  The calls of [renderBody] are then those of the
    parts before it, then [beginPath], a move to vertex 0 of the part, the
    calls of every vertex [j >= 1] in order, [closePath], the fill and the
    stroke, then the calls of the parts after it.  For vertex [j >= 1] a
    line to vertex [j] is drawn iff vertex [j - 1] is not internal or
    [showInternalEdges] is true, and a move to vertex [j] is made otherwise;
    when vertex [j] is internal and [showInternalEdges] is false a further
    move to vertex [(j + 1) mod vertexCount] follows; with
    [showInternalEdges] true every vertex gets exactly its line. *)
Theorem renderBody_polygon_edges (body : Body.t) (showInternalEdges : bool)
    (lineColor fillColor : option Z) (opacity lineThickness : option Q)
    (before after : list Part.t) (part : Part.t) :
  let vertices := Part.vertices part in
  let vertLength := List.length vertices in
  let resolved :=
    if JS.not opacity then Some (Render.opacity (Part.render part)) else opacity in
  let others (parts : list Part.t) :=
    forEach parts
      (renderPart showInternalEdges lineColor fillColor opacity
         (default 1%Q lineThickness) (JS.not opacity)) in
  drawnParts body = before ++ part :: after →
  Forall (λ earlier, isEmptyPolygon opacity earlier = false) before →
  Render.visible (Part.render part) = true →
  JS.strictEqZero resolved = false →
  JS.truthy (Part.circleRadius part) = false →
  vertices ≠ [] →
  renderBody body showInternalEdges lineColor fillColor opacity lineThickness
  = (calls (others before)
     ++ ([graphics.beginPath;
          graphics.moveTo (Vertex.x (vertices !!! 0%nat)) (Vertex.y (vertices !!! 0%nat))]
         ++ flat_map (edgeCalls showInternalEdges vertices) (seq 1 (vertLength - 1))
         ++ [graphics.closePath]
         ++ paintCalls lineColor fillColor resolved (default 1%Q lineThickness))
     ++ calls (others after),
     snd (others after))
  ∧ (∀ j : nat, (1 ≤ j < vertLength)%nat →
       let previous := vertices !!! (j - 1)%nat in
       let vert := vertices !!! j in
       let next := vertices !!! ((j + 1) mod vertLength)%nat in
       let toVert :=
         if negb (Vertex.isInternal previous) || showInternalEdges
         then graphics.lineTo (Vertex.x vert) (Vertex.y vert)
         else graphics.moveTo (Vertex.x vert) (Vertex.y vert) in
       edgeCalls showInternalEdges vertices j
       = toVert :: (if Vertex.isInternal vert && negb showInternalEdges
                    then [graphics.moveTo (Vertex.x next) (Vertex.y next)]
                    else [])
       ∧ (graphics.lineTo (Vertex.x vert) (Vertex.y vert)
            ∈ edgeCalls showInternalEdges vertices j
          ↔ Vertex.isInternal previous = false ∨ showInternalEdges = true)
       ∧ edgeCalls true vertices j = [graphics.lineTo (Vertex.x vert) (Vertex.y vert)]).
Proof.
  intros vertices vertLength resolved others Hparts Hbefore Hvisible Hopacity Hcircle Hne.
  destruct (renderPart_polygon_edges showInternalEdges lineColor fillColor opacity
              (default 1%Q lineThickness) (JS.not opacity) part
              Hvisible Hopacity Hcircle Hne) as [Hpart Hedges].
  split; [|exact Hedges].
  rewrite renderBody_parts, Hparts, forEach_app. cbn [forEach].
  rewrite Hpart. fold (others before) (others after).
  pose proof (forEach_parts_returned showInternalEdges lineColor fillColor opacity
                (default 1%Q lineThickness) before Hbefore) as Hreturned.
  fold (others before) in Hreturned.
  apply Draw_eq.
  - rewrite calls_bind, Hreturned, bind_returned. reflexivity.
  - rewrite snd_bind, Hreturned, bind_returned. reflexivity.
Qed.

Lemma renderBody_polygon_edges_witness :
  renderBody (Sample.squareBody false false 1) false (Some 0x28de19%Z) None
    (Some 1%Q) None
  = ([graphics.beginPath; graphics.moveTo 0 0;
      graphics.lineTo 1 0; graphics.moveTo 1 1;
      graphics.moveTo 1 1;
      graphics.lineTo 0 1; graphics.moveTo 0 0;
      graphics.closePath;
      graphics.lineStyle 1 0x28de19 (Some 1%Q); graphics.strokePath], Some tt).
Proof.
  exact (proj1 (renderBody_polygon_edges (Sample.squareBody false false 1) false
                  (Some 0x28de19%Z) None (Some 1%Q) None [] [] (Sample.squarePart 1)
                  eq_refl (List.Forall_nil _) eq_refl eq_refl eq_refl
                  ltac:(discriminate))).
Defined.

(** ** What [renderBody] draws *)

(** X1. An opacity of exactly 0 given to [renderBody] counts as no opacity
    given: every part is then drawn at its own render opacity, exactly as
    when the argument is [null]. *)
Theorem renderBody_opacity_zero_is_unset (body : Body.t) (showInternalEdges : bool)
    (lineColor fillColor : option Z) (opacity : Q) (lineThickness : option Q) :
  JS.isZero opacity = true →
  renderBody body showInternalEdges lineColor fillColor (Some opacity) lineThickness
  = renderBody body showInternalEdges lineColor fillColor None lineThickness.
Proof.
  intros Hzero. rewrite !renderBody_parts. cbn [JS.not]. rewrite Hzero.
  revert Hzero. generalize (drawnParts body). intros parts Hzero.
  induction parts as [|part parts IH]; [done|].
  cbn [forEach]. by rewrite IH.
Qed.

Lemma renderBody_opacity_zero_is_unset_witness :
  renderBody (Sample.squareBody true true 1) false (Some 0x1327e4%Z) None (Some 0%Q) None
  = renderBody (Sample.squareBody true true 1) false (Some 0x1327e4%Z) None None None.
Proof.
  exact (renderBody_opacity_zero_is_unset (Sample.squareBody true true 1) false
           (Some 0x1327e4%Z) None 0 None eq_refl).
Defined.

(** Where each call of [renderBody] comes from. *)
Lemma renderBody_call (body : Body.t) (showInternalEdges : bool)
    (lineColor fillColor : option Z) (opacity lineThickness : option Q)
    (c : graphics.call) :
  c ∈ calls (renderBody body showInternalEdges lineColor fillColor opacity lineThickness) →
  let carried (alpha : option Q) : Prop :=
    if JS.not opacity
    then ∃ part, part ∈ drawnParts body ∧ alpha = Some (Render.opacity (Part.render part))
    else alpha = opacity in
  isPathCall c = true
  ∨ c = graphics.fillPath
  ∨ c = graphics.strokePath
  ∨ (∃ color alpha, c = graphics.fillStyle color alpha
                    ∧ fillColor = Some color ∧ carried alpha)
  ∨ (∃ color alpha, c = graphics.lineStyle (default 1%Q lineThickness) color alpha
                    ∧ lineColor = Some color ∧ carried alpha).
Proof.
  rewrite renderBody_parts. intros (part & Hpart & Hc)%forEach_calls_elem carried.
  apply renderPart_calls_elem in Hc as [Hpath | Hpaint]; [by left|].
  right. unfold paintCalls in Hpaint.
  assert (Hcarried : carried (if JS.not opacity
                              then Some (Render.opacity (Part.render part))
                              else opacity)).
  { unfold carried. destruct (JS.not opacity); [by exists part | done]. }
  apply list_elem_of_In in Hpaint.
  destruct fillColor as [fill|], lineColor as [line|]; cbn in Hpaint;
    intuition (subst; eauto 10).
Qed.

(** X2. [renderBody] makes no call but path calls, fills in the fill colour
    it was given and strokes in the line colour and thickness it was given
    (1 when none is given).  When it is given an opacity other than 0 every
    fill and stroke carries that opacity; otherwise each carries the render
    opacity of one of the parts drawn. *)
Theorem renderBody_paints_as_told (body : Body.t) (showInternalEdges : bool)
    (lineColor fillColor : option Z) (opacity lineThickness : option Q)
    (c : graphics.call) :
  c ∈ calls (renderBody body showInternalEdges lineColor fillColor opacity lineThickness) →
  let carried (alpha : option Q) : Prop :=
    if JS.not opacity
    then ∃ part, part ∈ drawnParts body ∧ alpha = Some (Render.opacity (Part.render part))
    else alpha = opacity in
  isPathCall c = true
  ∨ c = graphics.fillPath
  ∨ c = graphics.strokePath
  ∨ (∃ color alpha, c = graphics.fillStyle color alpha
                    ∧ fillColor = Some color ∧ carried alpha)
  ∨ (∃ color alpha, c = graphics.lineStyle (default 1%Q lineThickness) color alpha
                    ∧ lineColor = Some color ∧ carried alpha).
Proof.
  exact (renderBody_call body showInternalEdges lineColor fillColor opacity lineThickness c).
Qed.

Lemma renderBody_paints_as_told_witness :
  let c := graphics.lineStyle 1 0x1327e4 (Some (7 / 10)%Q) in
  isPathCall c = true
  ∨ c = graphics.fillPath
  ∨ c = graphics.strokePath
  ∨ (∃ color alpha, c = graphics.fillStyle color alpha
                    ∧ (None : option Z) = Some color ∧ alpha = Some (7 / 10)%Q)
  ∨ (∃ color alpha, c = graphics.lineStyle 1 color alpha
                    ∧ Some 0x1327e4%Z = Some color ∧ alpha = Some (7 / 10)%Q).
Proof.
  refine (renderBody_paints_as_told (Sample.squareBody true true 1) false
            (Some 0x1327e4%Z) None (Some (7 / 10)%Q) None _ _).
  apply list_elem_of_In. vm_compute.
  repeat first [left; reflexivity | right].
Defined.

(** X3. The first part of a compound body is never drawn: two bodies of
    more than one part that differ only in their first part are drawn by
    the same calls. *)
Theorem renderBody_skips_first_part (body body' : Body.t) (first first' : Part.t)
    (others : list Part.t) (showInternalEdges : bool)
    (lineColor fillColor : option Z) (opacity lineThickness : option Q) :
  Body.parts body = first :: others →
  Body.parts body' = first' :: others →
  others ≠ [] →
  renderBody body showInternalEdges lineColor fillColor opacity lineThickness
  = renderBody body' showInternalEdges lineColor fillColor opacity lineThickness
  ∧ renderBody body showInternalEdges lineColor fillColor opacity lineThickness
    = forEach others
        (renderPart showInternalEdges lineColor fillColor opacity
           (default 1%Q lineThickness) (JS.not opacity)).
Proof.
  intros Hparts Hparts' Hothers. rewrite !renderBody_parts. unfold drawnParts.
  rewrite Hparts, Hparts'. destruct others as [|part others]; done.
Qed.

Lemma renderBody_threw (body : Body.t) (showInternalEdges : bool)
    (lineColor fillColor : option Z) (opacity lineThickness : option Q) :
  snd (renderBody body showInternalEdges lineColor fillColor opacity lineThickness) = None
  ↔ ∃ part, part ∈ drawnParts body ∧ isEmptyPolygon opacity part = true.
Proof.
  rewrite renderBody_parts, forEach_threw.
  split; intros (part & Hpart & H); exists part; (split; [done|]).
  - exact (proj1 (renderPart_threw _ _ _ _ _ _) H).
  - exact (proj2 (renderPart_threw _ _ _ _ _ _) H).
Qed.

(** X4. [renderBody] stops on a [TypeError] iff one of the parts it draws as
    a polygon (visible, resolved opacity other than 0, no circle radius) has
    no vertex; in every other case it returns. *)
Theorem renderBody_throws_iff (body : Body.t) (showInternalEdges : bool)
    (lineColor fillColor : option Z) (opacity lineThickness : option Q) :
  snd (renderBody body showInternalEdges lineColor fillColor opacity lineThickness) = None
  ↔ ∃ part, part ∈ drawnParts body ∧ isEmptyPolygon opacity part = true.
Proof.
  exact (renderBody_threw body showInternalEdges lineColor fillColor opacity lineThickness).
Qed.

Lemma renderBody_skips_first_part_witness :
  renderBody (Sample.compoundBody (Sample.squarePart 1)) false (Some 1%Z) None None None
  = renderBody (Sample.compoundBody (Sample.circlePart 0)) false (Some 1%Z) None None None
  ∧ renderBody (Sample.compoundBody (Sample.squarePart 1)) false (Some 1%Z) None None None
    = forEach [Sample.squarePart 1; Sample.circlePart 1]
        (renderPart false (Some 1%Z) None None 1 true).
Proof.
  exact (renderBody_skips_first_part (Sample.compoundBody (Sample.squarePart 1))
           (Sample.compoundBody (Sample.circlePart 0)) (Sample.squarePart 1)
           (Sample.circlePart 0) [Sample.squarePart 1; Sample.circlePart 1]
           false (Some 1%Z) None None None eq_refl eq_refl ltac:(discriminate)).
Defined.

(** ** Drawing the bodies of the world *)

Lemma isShown_shown (config : DebugConfig.t) (body : Body.t) :
  isShown config body = true ↔ shown config body.
Proof.
  unfold isShown, shown.
  destruct (Render.visible (Body.render body)), (Body.isStatic body),
    (DebugConfig.showStaticBody config), (DebugConfig.showBody config);
    cbn; intuition congruence.
Qed.

(** A body that fails the visibility test takes no part in the drawing. *)
Lemma renderBodies_filter (this : World.t) (bodies : list Body.t) :
  renderBodies this bodies
  = renderBodies this (List.filter (isShown (debugConfig this)) bodies).
Proof.
  unfold renderBodies. induction bodies as [|body bodies IH]; [done|].
  cbn [forEach List.filter].
  destruct (isShown (debugConfig this) body) eqn:Hshown.
  - cbn [forEach]. by rewrite IH.
  - rewrite renderBodies_body_hidden by (rewrite <- isShown_shown; congruence).
    rewrite bind_returned, <- IH. cbn [app].
    by destruct (forEach bodies (renderBodies_body this)).
Qed.

(** X5. [renderBodies] draws the bodies in array order, so drawing an array
    in two pieces is drawing it whole; a body that fails the visibility test
    takes no part, so dropping every such body from the array changes
    nothing. *)
Theorem renderBodies_ignores_hidden (this : World.t) (bodies bodies' : list Body.t) :
  renderBodies this (bodies ++ bodies')
  = (renderBodies this bodies ;; renderBodies this bodies')
  ∧ renderBodies this bodies
    = renderBodies this (List.filter (isShown (debugConfig this)) bodies).
Proof.
  split; [apply forEach_app | apply renderBodies_filter].
Qed.

(** ** The convex hull *)

Lemma forRange_emit {A : Type} (l : list A) (f : A → graphics.call) (from : nat) :
  (from ≤ List.length l)%nat →
  forRange from (List.length l) (λ k, a ← item l k; emit (f a))
  = (map f (drop from l), Some tt).
Proof.
  intros Hfrom. by rewrite (forRange_item (λ a, emit (f a))), forEach_emit.
Qed.

(** X6. For a body of more than one part whose hull has a first vertex,
    [renderConvexHull] strokes one closed outline in the hull colour: a move
    to the first vertex, a line to every other vertex in order, and a line
    back to the first.  For a body of one part (or none) it makes no call.
    For a compound body whose hull has no vertex it stops on a [TypeError]
    after [lineStyle] and [beginPath]. *)
Theorem renderConvexHull_outline (body : Body.t) (hullColor : Z)
    (lineThickness : option Q) :
  let width := default 1%Q lineThickness in
  ((List.length (Body.parts body) ≤ 1)%nat →
   renderConvexHull body hullColor lineThickness = ([], Some tt))
  ∧ (∀ (first : Vertex.t) (others : list Vertex.t),
       (1 < List.length (Body.parts body))%nat →
       Body.vertices body = first :: others →
       renderConvexHull body hullColor lineThickness
       = ([graphics.lineStyle width hullColor None;
           graphics.beginPath;
           graphics.moveTo (Vertex.x first) (Vertex.y first)]
          ++ map (λ v, graphics.lineTo (Vertex.x v) (Vertex.y v)) others
          ++ [graphics.lineTo (Vertex.x first) (Vertex.y first);
              graphics.strokePath], Some tt))
  ∧ ((1 < List.length (Body.parts body))%nat →
     Body.vertices body = [] →
     renderConvexHull body hullColor lineThickness
     = ([graphics.lineStyle width hullColor None; graphics.beginPath], None)).
Proof.
  intros width. unfold renderConvexHull. fold width. split; [|split].
  - intros Hsimple. apply Nat.ltb_ge in Hsimple. by rewrite Hsimple.
  - intros first others Hcompound Hvertices. apply Nat.ltb_lt in Hcompound.
    rewrite Hcompound, Hvertices, !bind_emit.
    cbn [item lookup list_lookup]. rewrite bind_mret, bind_emit.
    rewrite (forRange_emit (first :: others)
               (λ v, graphics.lineTo (Vertex.x v) (Vertex.y v)) 1) by (cbn; lia).
    rewrite bind_returned, bind_emit. cbn [calls fst snd drop emit].
    reflexivity.
  - intros Hcompound Hvertices. apply Nat.ltb_lt in Hcompound.
    by rewrite Hcompound, Hvertices.
Qed.

Lemma renderConvexHull_outline_witness :
  renderConvexHull (Sample.compoundBody (Sample.squarePart 1)) 0xd703d0 None
  = ([graphics.lineStyle 1 0xd703d0 None; graphics.beginPath; graphics.moveTo 0 0;
      graphics.lineTo 1 0; graphics.lineTo 1 1; graphics.lineTo 0 1;
      graphics.lineTo 0 0; graphics.strokePath], Some tt).
Proof.
  exact (proj1 (proj2 (renderConvexHull_outline
                         (Sample.compoundBody (Sample.squarePart 1)) 0xd703d0 None))
           (Sample.vertex 0 0 false) _ ltac:(cbn; lia) eq_refl).
Defined.

(** X7. While [renderBodies] draws a body, the outline of its convex hull
    (the stroke in the hull colour with no opacity) is drawn iff the body
    passes the visibility test, [showConvexHulls] is true, the body has more
    than one part, and [renderBody] returned, that is, no part drawn as a
    polygon is without vertices.  It is never drawn for a body of one
    part. *)
Theorem convex_hull_drawn_iff (this : World.t) (body : Body.t) :
  let config := debugConfig this in
  let opacity := Some (bodyStyle config body).2 in
  let hullStyle :=
    graphics.lineStyle (DebugConfig.lineThickness config) (DebugConfig.hullColor config)
      None in
  hullStyle ∈ calls (renderBodies_body this body)
  ↔ shown config body
    ∧ DebugConfig.showConvexHulls config = true
    ∧ (1 < List.length (Body.parts body))%nat
    ∧ ¬ ∃ part, part ∈ drawnParts body ∧ isEmptyPolygon opacity part = true.
Proof.
  intros config opacity hullStyle.
  assert (Hbody : ∀ lineStyle fillStyle,
            hullStyle ∉ calls (renderBody body (DebugConfig.showInternalEdges config)
                                 lineStyle fillStyle opacity
                                 (Some (DebugConfig.lineThickness config)))).
  { intros lineStyle fillStyle Hin.
    apply renderBody_call in Hin.
    cbv zeta in Hin. unfold hullStyle in Hin.
    destruct Hin as [Hin | [Hin | [Hin | [(c & a & Hin & _) | (c & a & [= <- <-] & _ & Hin)]]]];
      try done.
    unfold opacity in Hin. destruct (JS.not _); [by destruct Hin as (? & _ & ?) | done]. }
  split.
  - intros Hin.
    assert (Hshown : shown config body).
    { destruct (isShown config body) eqn:His; [by apply isShown_shown|].
      rewrite renderBodies_body_hidden in Hin; [by apply elem_of_nil in Hin|].
      rewrite <- isShown_shown. fold config. congruence. }
    split; [done|].
    rewrite (renderBodies_body_shown this body Hshown) in Hin. fold config in Hin.
    unfold opacity in *. destruct (bodyStyle config body) as [[lineStyle fillStyle] o].
    cbn [snd] in *.
    rewrite calls_bind in Hin. apply elem_of_app in Hin as [Hin | Hin];
      [by apply Hbody in Hin|].
    destruct (snd (renderBody _ _ _ _ _ _)) as [[]|] eqn:Hreturned;
      [|by apply elem_of_nil in Hin].
    assert (Hhull : calls (hullOf this body) ≠ []) by (intros Heq; rewrite Heq in Hin;
                                                        by apply elem_of_nil in Hin).
    apply hullOf_calls in Hhull as [Hshow Hparts]. repeat split; try done.
    intros Hempty.
    apply (proj2 (renderBody_threw body (DebugConfig.showInternalEdges config)
                    lineStyle fillStyle (Some o)
                    (Some (DebugConfig.lineThickness config)))) in Hempty.
    congruence.
  - intros (Hshown & Hshow & Hparts & Hfull).
    rewrite (renderBodies_body_shown this body Hshown). fold config.
    unfold opacity in *. destruct (bodyStyle config body) as [[lineStyle fillStyle] o].
    cbn [snd] in *.
    rewrite calls_bind. apply elem_of_app. right.
    destruct (snd (renderBody _ _ _ _ _ _)) as [[]|] eqn:Hreturned.
    + unfold hullOf, renderConvexHull. fold config.
      apply Nat.ltb_lt in Hparts. rewrite Hshow, Hparts. cbn [andb default].
      rewrite bind_emit. left.
    + exfalso. apply Hfull.
      by apply (proj1 (renderBody_threw body (DebugConfig.showInternalEdges config)
                         lineStyle fillStyle (Some o)
                         (Some (DebugConfig.lineThickness config)))).
Qed.

(** ** Drawing a constraint *)

Ltac draw_simpl :=
  repeat (rewrite ?bind_emit, ?bind_mret, ?bind_returned, ?bind_threw;
          cbn [calls fst snd app mret Draw_ret emit throw]).

Section ConstraintProperties.

Variable Vector_normalise : Vector.t → Vector.t.
Variable Vector_perp : Vector.t → Vector.t.
Variable Common_colorToNumber : string → Z.

(** The two outcomes of [renderConstraint] once past its first test. *)
Lemma renderConstraint_outcome (constraint : Constraint.t) (lineColor : Z)
    (lineThickness : Q) (springColor pinColor : Z) (pinSize : Q)
    (anchorColor : Z) (anchorSize : Q) (pointA pointB : Vector.t) :
  let render := Constraint.render constraint in
  ConstraintRender.visible render = true →
  Constraint.pointA constraint = Some pointA →
  Constraint.pointB constraint = Some pointB →
  ∃ rest,
    calls (renderConstraint Vector_normalise Vector_perp Common_colorToNumber
             constraint lineColor lineThickness springColor pinColor pinSize
             anchorColor anchorSize)
    = constraintStyle Common_colorToNumber render lineThickness lineColor :: rest
    ∧ snd (renderConstraint Vector_normalise Vector_perp Common_colorToNumber
             constraint lineColor lineThickness springColor pinColor pinSize
             anchorColor anchorSize)
      = if String.eqb (ConstraintRender.type render) "pin"
           && ConstraintRender.anchors render && negb (Qle_bool anchorSize 0)
        then None else Some tt.
Proof.
  intros render Hvisible HpointA HpointB.
  unfold renderConstraint, constraintStyle. fold render.
  rewrite Hvisible, HpointA, HpointB.
  unfold forRange. rewrite forEach_emit.
  destruct (ConstraintRender.custom render),
    (String.eqb (ConstraintRender.type render) "pin"),
    (String.eqb (ConstraintRender.type render) "spring"),
    (ConstraintRender.anchors render && negb (Qle_bool anchorSize 0)) eqn:Hanchors;
    rewrite ?andb_true_l, ?andb_false_l, ?Hanchors;
    cbn [negb andb]; draw_simpl; by eexists.
Qed.

Lemma renderConstraint_skipped (constraint : Constraint.t) (lineColor : Z)
    (lineThickness : Q) (springColor pinColor : Z) (pinSize : Q)
    (anchorColor : Z) (anchorSize : Q) :
  ¬ (ConstraintRender.visible (Constraint.render constraint) = true
     ∧ is_Some (Constraint.pointA constraint)
     ∧ is_Some (Constraint.pointB constraint)) →
  renderConstraint Vector_normalise Vector_perp Common_colorToNumber constraint
    lineColor lineThickness springColor pinColor pinSize anchorColor anchorSize
  = ([], Some tt).
Proof.
  intros Hskip. unfold renderConstraint.
  destruct (ConstraintRender.visible _), (Constraint.pointA constraint),
    (Constraint.pointB constraint); try done.
  exfalso. apply Hskip. by repeat split.
Qed.

(** X8. [renderConstraint] draws something iff the constraint is
    render-visible and has both of its points; when it draws, its first call
    sets the line style, to the constraint's own width and colour when its
    style is custom and to the given thickness and colour otherwise. *)
Theorem renderConstraint_draws_iff (constraint : Constraint.t) (lineColor : Z)
    (lineThickness : Q) (springColor pinColor : Z) (pinSize : Q)
    (anchorColor : Z) (anchorSize : Q) :
  let drawn :=
    renderConstraint Vector_normalise Vector_perp Common_colorToNumber constraint
      lineColor lineThickness springColor pinColor pinSize anchorColor anchorSize in
  let render := Constraint.render constraint in
  (calls drawn ≠ []
   ↔ ConstraintRender.visible render = true
     ∧ is_Some (Constraint.pointA constraint)
     ∧ is_Some (Constraint.pointB constraint))
  ∧ (calls drawn ≠ [] →
     head (calls drawn)
     = Some (if ConstraintRender.custom render
             then graphics.lineStyle (ConstraintRender.lineWidth render)
                    (Common_colorToNumber (ConstraintRender.strokeStyle render)) None
             else graphics.lineStyle lineThickness lineColor None)).
Proof.
  intros drawn render.
  assert (Hdrawn : ConstraintRender.visible render = true
                   ∧ is_Some (Constraint.pointA constraint)
                   ∧ is_Some (Constraint.pointB constraint) →
                   calls drawn ≠ []
                   ∧ head (calls drawn)
                     = Some (constraintStyle Common_colorToNumber render
                               lineThickness lineColor)).
  { intros (Hvisible & [pointA HpointA] & [pointB HpointB]).
    destruct (renderConstraint_outcome constraint lineColor lineThickness springColor
                pinColor pinSize anchorColor anchorSize pointA pointB
                Hvisible HpointA HpointB) as (rest & Hcalls & _).
    fold drawn in Hcalls. by rewrite Hcalls. }
  assert (Hdec : (ConstraintRender.visible render = true
                  ∧ is_Some (Constraint.pointA constraint)
                  ∧ is_Some (Constraint.pointB constraint))
                 ∨ ¬ (ConstraintRender.visible render = true
                      ∧ is_Some (Constraint.pointA constraint)
                      ∧ is_Some (Constraint.pointB constraint))).
  { unfold render. destruct (ConstraintRender.visible _), (Constraint.pointA constraint),
      (Constraint.pointB constraint); first [by left; repeat split
                                          | right; intros (? & [? ?] & [? ?]); done]. }
  split.
  - split; [|intros H; by apply Hdrawn].
    intros Hcalls. destruct Hdec as [H | H]; [done|].
    exfalso. apply Hcalls. unfold drawn. by rewrite renderConstraint_skipped.
  - intros Hcalls. destruct Hdec as [H | H]; [by apply Hdrawn|].
    exfalso. apply Hcalls. unfold drawn. by rewrite renderConstraint_skipped.
Qed.

(** X9. [renderConstraint] stops on a [TypeError] in one case only: a
    visible constraint with both points, of render type 'pin', whose anchors
    are to be drawn ([render.anchors] true and [anchorSize] above 0), since
    a pin has no end point to put the second anchor on.  In every other case
    it returns. *)
Theorem renderConstraint_throws_iff (constraint : Constraint.t) (lineColor : Z)
    (lineThickness : Q) (springColor pinColor : Z) (pinSize : Q)
    (anchorColor : Z) (anchorSize : Q) :
  let render := Constraint.render constraint in
  snd (renderConstraint Vector_normalise Vector_perp Common_colorToNumber constraint
         lineColor lineThickness springColor pinColor pinSize anchorColor anchorSize)
  = None
  ↔ ConstraintRender.visible render = true
    ∧ is_Some (Constraint.pointA constraint)
    ∧ is_Some (Constraint.pointB constraint)
    ∧ ConstraintRender.type render = "pin"
    ∧ ConstraintRender.anchors render = true
    ∧ (0 < anchorSize)%Q.
Proof.
  intros render.
  destruct (ConstraintRender.visible render) eqn:Hvisible,
    (Constraint.pointA constraint) as [pointA|] eqn:HpointA,
    (Constraint.pointB constraint) as [pointB|] eqn:HpointB;
    try (rewrite renderConstraint_skipped
           by (fold render; rewrite ?Hvisible, ?HpointA, ?HpointB;
               intros (? & [? ?] & [? ?]); done);
         split; [done | intros (? & [? ?] & [? ?] & _); done]).
  destruct (renderConstraint_outcome constraint lineColor lineThickness springColor
              pinColor pinSize anchorColor anchorSize pointA pointB
              Hvisible HpointA HpointB) as (rest & _ & ->).
  fold render.
  destruct (String.eqb_spec (ConstraintRender.type render) "pin") as [Hpin | Hpin],
    (ConstraintRender.anchors render); cbn [andb].
  - destruct (Qle_bool anchorSize 0) eqn:Hle; cbn [negb].
    + split; [done|]. intros (_ & _ & _ & _ & _ & Hlt).
      apply Qle_bool_iff in Hle. by apply Qlt_not_le in Hlt.
    + split; [|done]. intros _.
      split; [done|]. split; [by eexists|]. split; [by eexists|].
      split; [done|]. split; [done|].
      apply Qnot_le_lt. intros H%Qle_bool_iff. congruence.
  - split; [done|]. by intros (_ & _ & _ & _ & ? & _).
  - split; [done|]. by intros (_ & _ & _ & ? & _).
  - split; [done|]. by intros (_ & _ & _ & ? & _).
Qed.

(** X10. A pin is drawn as one circle of [pinSize] about its start point
    ([pointA], moved by the position of [bodyA] when there is one): the end
    point, [bodyB] and the length are not read.  When anchors are drawn the
    first anchor is filled and the method stops there. *)
Theorem renderConstraint_pin (constraint : Constraint.t) (lineColor : Z)
    (lineThickness : Q) (springColor pinColor : Z) (pinSize : Q)
    (anchorColor : Z) (anchorSize : Q) (pointA pointB : Vector.t) :
  let render := Constraint.render constraint in
  let start := from_option (λ position, Matter.Vector_add position pointA) pointA
                 (Constraint.bodyA constraint) in
  let withAnchors := ConstraintRender.anchors render && negb (Qle_bool anchorSize 0) in
  ConstraintRender.visible render = true →
  Constraint.pointA constraint = Some pointA →
  Constraint.pointB constraint = Some pointB →
  ConstraintRender.type render = "pin" →
  renderConstraint Vector_normalise Vector_perp Common_colorToNumber constraint
    lineColor lineThickness springColor pinColor pinSize anchorColor anchorSize
  = ([constraintStyle Common_colorToNumber render lineThickness lineColor]
     ++ (if ConstraintRender.custom render then []
         else [graphics.lineStyle lineThickness pinColor None])
     ++ [graphics.strokeCircle (Vector.x start) (Vector.y start) pinSize;
         graphics.strokePath]
     ++ (if withAnchors
         then [graphics.fillStyle anchorColor None;
               graphics.fillCircle (Vector.x start) (Vector.y start) anchorSize]
         else []),
     if withAnchors then None else Some tt).
Proof.
  intros render start withAnchors Hvisible HpointA HpointB Htype.
  unfold renderConstraint, constraintStyle. fold render.
  rewrite Hvisible, HpointA, HpointB, Htype. cbn [String.eqb Ascii.eqb Bool.eqb].
  unfold withAnchors, start.
  destruct (ConstraintRender.custom render),
    (ConstraintRender.anchors render && negb (Qle_bool anchorSize 0)),
    (Constraint.bodyA constraint); cbn [negb from_option]; by draw_simpl.
Qed.

(** X11. A constraint with a custom render style is drawn in its own line
    width and colour only: the joint, spring and pin colours and the line
    thickness that [renderConstraint] is given have no effect on it. *)
Theorem renderConstraint_custom_style (constraint : Constraint.t)
    (lineColor lineColor' : Z) (lineThickness lineThickness' : Q)
    (springColor springColor' pinColor pinColor' : Z) (pinSize : Q)
    (anchorColor : Z) (anchorSize : Q) :
  ConstraintRender.custom (Constraint.render constraint) = true →
  renderConstraint Vector_normalise Vector_perp Common_colorToNumber constraint
    lineColor lineThickness springColor pinColor pinSize anchorColor anchorSize
  = renderConstraint Vector_normalise Vector_perp Common_colorToNumber constraint
      lineColor' lineThickness' springColor' pinColor' pinSize anchorColor anchorSize.
Proof.
  intros Hcustom. unfold renderConstraint. by rewrite Hcustom.
Qed.

End ConstraintProperties.

Lemma renderConstraint_pin_witness :
  renderConstraint Sample.unitX Sample.perp Sample.noColor (Sample.pin true)
    0xe0e042 2 0xe042e0 0x42e0e0 4 0xefefef 6
  = ([graphics.lineStyle 2 0xe0e042 None;
      graphics.lineStyle 2 0x42e0e0 None;
      graphics.strokeCircle (10 + 5) (20 + 5) 4;
      graphics.strokePath;
      graphics.fillStyle 0xefefef None;
      graphics.fillCircle (10 + 5) (20 + 5) 6], None).
Proof.
  exact (renderConstraint_pin Sample.unitX Sample.perp Sample.noColor (Sample.pin true)
           0xe0e042%Z 2%Q 0xe042e0%Z 0x42e0e0%Z 4%Q 0xefefef%Z 6%Q
           {| Vector.x := 5%Q; Vector.y := 5%Q |} {| Vector.x := 0%Q; Vector.y := 0%Q |}
           eq_refl eq_refl eq_refl eq_refl).
Defined.

Lemma renderConstraint_custom_style_witness :
  renderConstraint Sample.unitX Sample.perp Sample.noColor Sample.customLine
    0xe0e042 2 0xe042e0 0x42e0e0 4 0xefefef 6
  = renderConstraint Sample.unitX Sample.perp Sample.noColor Sample.customLine
      0 1 0 0 4 0xefefef 6.
Proof.
  exact (renderConstraint_custom_style Sample.unitX Sample.perp Sample.noColor
           Sample.customLine 0xe0e042%Z 0%Z 2%Q 1%Q 0xe042e0%Z 0%Z 0x42e0e0%Z 0%Z
           4%Q 0xefefef%Z 6%Q eq_refl).
Defined.

(** ** The debug pass *)

Section PostUpdateProperties.

Variable Vector_normalise : Vector.t → Vector.t.
Variable Vector_perp : Vector.t → Vector.t.
Variable Common_colorToNumber : string → Z.
Variable Composite_allBodies : Matter.Composite → list Body.t.
Variable Composite_allConstraints : Matter.Composite → list Constraint.t.

(** X12. [postUpdate] makes no call at all iff [drawDebug] is false or
    [showBody], [showStaticBody] and [showJoint] are all false; in every
    other case its first call clears the Graphics object. *)
Theorem postUpdate_idle_iff (this : World.t) :
  let config := debugConfig this in
  let pass :=
    postUpdate Vector_normalise Vector_perp Common_colorToNumber
      Composite_allBodies Composite_allConstraints this in
  let idle :=
    drawDebug this = false
    ∨ (DebugConfig.showBody config = false
       ∧ DebugConfig.showStaticBody config = false
       ∧ DebugConfig.showJoint config = false) in
  (calls pass = [] ↔ idle)
  ∧ (idle → pass = ([], Some tt))
  ∧ (¬ idle → head (calls pass) = Some graphics.clear).
Proof.
  intros config pass idle.
  assert (Hidle : idle → pass = ([], Some tt)).
  { unfold idle, pass, postUpdate. fold config.
    intros [-> | (-> & -> & ->)]; [done|]. by rewrite orb_true_r. }
  assert (Hbusy : ¬ idle → head (calls pass) = Some graphics.clear).
  { unfold idle, pass, postUpdate. fold config. intros Hbusy.
    destruct (drawDebug this); [|exfalso; apply Hbusy; by left].
    destruct (DebugConfig.showBody config), (DebugConfig.showStaticBody config),
      (DebugConfig.showJoint config);
      try (cbn [negb andb orb]; by rewrite bind_emit).
    exfalso. apply Hbusy. by right. }
  split; [|by split].
  split; [|by intros ->%Hidle].
  intros Hcalls.
  assert (Hdec : idle ∨ ¬ idle).
  { unfold idle. destruct (drawDebug this), (DebugConfig.showBody config),
      (DebugConfig.showStaticBody config), (DebugConfig.showJoint config);
      first [by left; left | by left; right | right; intros [? | (? & ? & ?)]; done]. }
  destruct Hdec as [H | H]; [done|].
  apply Hbusy in H. by rewrite Hcalls in H.
Qed.

Lemma renderBodies_all_hidden (this : World.t) (bodies : list Body.t) :
  DebugConfig.showBody (debugConfig this) = false →
  DebugConfig.showStaticBody (debugConfig this) = false →
  renderBodies this bodies = ([], Some tt).
Proof.
  intros HshowBody HshowStatic.
  rewrite (renderBodies_filter this bodies).
  replace (List.filter (isShown (debugConfig this)) bodies) with (@nil Body.t); [done|].
  induction bodies as [|body bodies IH]; [done|].
  cbn [List.filter]. unfold isShown at 1. rewrite HshowBody, HshowStatic.
  by destruct (Render.visible _), (Body.isStatic body).
Qed.

(** X13. With [showJoint] true and both [showBody] and [showStaticBody]
    false, the debug pass clears the Graphics object and draws the
    constraints only: no body is drawn, whatever the bodies of the world
    are.  With [showJoint] false it clears and draws the bodies only: the
    constraints of the world are not consulted. *)
Theorem postUpdate_modes (this : World.t) :
  let config := debugConfig this in
  let pass :=
    postUpdate Vector_normalise Vector_perp Common_colorToNumber
      Composite_allBodies Composite_allConstraints this in
  drawDebug this = true →
  (DebugConfig.showBody config = false →
   DebugConfig.showStaticBody config = false →
   DebugConfig.showJoint config = true →
   pass = (emit graphics.clear ;;
           renderJoints Vector_normalise Vector_perp Common_colorToNumber
             Composite_allConstraints this))
  ∧ (DebugConfig.showJoint config = false →
     (DebugConfig.showBody config = true ∨ DebugConfig.showStaticBody config = true) →
     pass = (emit graphics.clear ;;
             renderBodies this (Composite_allBodies (localWorld this)))).
Proof.
  intros config pass HdrawDebug. unfold pass, postUpdate. fold config.
  rewrite HdrawDebug. split.
  - intros HshowBody HshowStatic HshowJoint.
    rewrite HshowBody, HshowStatic, HshowJoint. cbn [negb andb orb].
    rewrite renderBodies_all_hidden by done.
    rewrite bind_returned. cbn [app]. f_equal.
    by destruct (renderJoints _ _ _ _ _).
  - intros HshowJoint Hshown. rewrite HshowJoint.
    replace (negb true || negb (DebugConfig.showBody config)
                          && negb (DebugConfig.showStaticBody config) && negb false)
      with false by (by destruct Hshown as [-> | ->]; rewrite ?andb_false_r).
    f_equal.
    destruct (renderBodies this (Composite_allBodies (localWorld this))) as [o [[]|]];
      [|done].
    by rewrite bind_returned, app_nil_r.
Qed.

End PostUpdateProperties.

Lemma postUpdate_modes_witness :
  World.postUpdate Sample.unitX Sample.perp Sample.noColor
    (λ _, [Sample.squareBody false false 1]) (λ _, [Sample.spring 70])
    (Sample.world (Sample.configShowing false false true))
  = (emit graphics.clear ;;
     World.renderJoints Sample.unitX Sample.perp Sample.noColor (λ _, [Sample.spring 70])
       (Sample.world (Sample.configShowing false false true))).
Proof.
  exact (proj1 (postUpdate_modes Sample.unitX Sample.perp Sample.noColor
                  (λ _, [Sample.squareBody false false 1]) (λ _, [Sample.spring 70])
                  (Sample.world (Sample.configShowing false false true)) eq_refl)
           eq_refl eq_refl eq_refl).
Defined.

(** ** The walls and the bodies of the world *)

Lemma wallBodies_slot (slots : gmap string (option Rectangle.t)) (position : string) :
  omap snd (map_to_list slots)
  ≡ₚ from_option (λ slot, from_option (λ b, [b]) [] slot) [] (slots !! position)
     ++ omap snd (map_to_list (delete position slots)).
Proof.
  destruct (slots !! position) as [slot|] eqn:Hslot; cbn [from_option].
  - rewrite <- (map_to_list_delete slots position slot Hslot). cbn [omap list_omap snd].
    by destruct slot.
  - by rewrite delete_id.
Qed.

Lemma wallBodies_insert (slots : gmap string (option Rectangle.t)) (position : string)
    (slot : option Rectangle.t) :
  omap snd (map_to_list (<[position := slot]> slots))
  ≡ₚ from_option (λ b, [b]) [] slot ++ omap snd (map_to_list (delete position slots)).
Proof.
  rewrite <- insert_delete_eq.
  rewrite map_to_list_insert by apply lookup_delete_eq.
  cbn [omap list_omap snd]. by destruct slot.
Qed.

(** Taking a body out by its identity takes out that body alone when
    identities are not shared. *)
Lemma filter_remove_one (old : Rectangle.t) (others : list Rectangle.t) :
  NoDup (Rectangle.id <$> old :: others) →
  filter (λ b, Rectangle.id b ≠ Rectangle.id old) (old :: others) = others.
Proof.
  intros [Hold _]%NoDup_cons. rewrite filter_cons_False by (by intros ?).
  induction others as [|b others IH]; [done|].
  cbn [fmap list_fmap] in Hold. apply not_elem_of_cons in Hold as [Hne Hold].
  rewrite filter_cons_True by done. by rewrite IH.
Qed.

Lemma updateWall_tidy (base : list Rectangle.t) (add : bool) (position : string)
    (x y width height : Q) (this : World.t) :
  tidy base this → tidy base (updateWall add position x y width height this).
Proof.
  unfold tidy, wallBodies. intros (Hbodies & Hids & Hfresh).
  rewrite updateWall_walls, updateWall_nextId, updateWall_bodies.
  set (bodies := Matter.bodies (localWorld this)) in *.
  set (next := Matter.nextId (engine this)) in *.
  set (others := omap snd (map_to_list (delete position (walls this)))).
  rewrite wallBodies_insert. fold others.
  rewrite (wallBodies_slot (walls this) position) in Hbodies. fold others in Hbodies.
  assert (Hkept : match walls this !! position with
                  | Some (Some old) =>
                      filter (λ b, Rectangle.id b ≠ Rectangle.id old) bodies
                  | _ => bodies
                  end ≡ₚ base ++ others
                  ∧ NoDup (Rectangle.id <$> base ++ others)
                  ∧ Forall (λ b, Rectangle.id b < next) (base ++ others)).
  { destruct (walls this !! position) as [[old|]|]; cbn [from_option app] in Hbodies.
    - assert (Hfront : bodies ≡ₚ old :: (base ++ others))
        by (by rewrite Hbodies, Permutation_middle).
      rewrite Hfront in Hids, Hfresh. rewrite Hfront.
      rewrite (filter_remove_one old (base ++ others) Hids).
      split; [done|]. split.
      + by apply NoDup_cons in Hids as [_ ?].
      + by apply Forall_cons in Hfresh as [_ ?].
    - by rewrite <- Hbodies.
    - by rewrite <- Hbodies. }
  destruct Hkept as (Hkept & Hkeptids & Hkeptfresh). rewrite Hkept.
  destruct add; cbn [from_option].
  - split; [|split].
    + rewrite <- app_assoc. apply Permutation_app_head, Permutation_app_comm.
    + rewrite fmap_app. cbn [fmap list_fmap]. apply NoDup_app. split; [done|].
      split; [|apply NoDup_singleton].
      intros id Hid ->%list_elem_of_singleton. cbn [Rectangle.id wall] in Hid.
      apply list_elem_of_fmap in Hid as (b & Hb & Hin).
      rewrite Forall_forall in Hkeptfresh. specialize (Hkeptfresh b Hin). lia.
    + apply Forall_app. split.
      * eapply Forall_impl; [exact Hkeptfresh|]. intros b Hb. cbn beta in *. lia.
      * apply Forall_singleton. cbn. lia.
  - by rewrite app_nil_r.
Qed.

Lemma setBounds_tidy (base : list Rectangle.t) (x y width height thickness : option Q)
    (onLeft onRight onTop onBottom : option bool) (this : World.t) :
  tidy base this →
  tidy base (setBounds x y width height thickness onLeft onRight onTop onBottom this).
Proof.
  intros Htidy. unfold setBounds. by do 4 apply updateWall_tidy.
Qed.

(** X14. Boundary updates keep the world tidy.  If the bodies of the world
    are some bodies [base] and the walls held in [walls], each once and each
    with its own identity, then after every sequence of [setBounds] and
    [updateWall] calls they still are: every body of [base] is still in the
    world, every wall now held in [walls] is in the world exactly once, and
    no wall that was replaced or dropped is left behind. *)
Theorem boundary_updates_keep_world_tidy (base : list Rectangle.t) (this : World.t)
    (history : list boundaryCall) :
  tidy base this → tidy base (runCalls this history).
Proof.
  unfold runCalls. revert this.
  induction history as [|call history IH]; intros this Htidy; [done|].
  cbn [fold_left]. apply IH.
  destruct call; cbn [runCall]; [by apply setBounds_tidy | by apply updateWall_tidy].
Qed.

Lemma boundary_updates_keep_world_tidy_witness :
  tidy [] (runCalls (Sample.world (Sample.config false true 1))
             [callSetBounds None None None None None None None None None;
              callUpdateWall false "top" 0 0 0 0]).
Proof.
  apply boundary_updates_keep_world_tidy.
  split; [|split].
  - cbn. vm_compute. constructor.
  - cbn. constructor.
  - cbn. constructor.
Defined.

(** ** Adding and removing bodies *)

(** X15. A body made by [create] gets the next identity and is put last in
    the world; when the identities in the world are older than the next one,
    removing that body again, handed over as itself or as the body of a game
    object, leaves the bodies of the world as they were before [create],
    whatever [deep] is.  Removing an object whose identity no body of the
    world has changes nothing. *)
Theorem create_then_remove (x y width height : Q) (options : Rectangle.Options)
    (deep : option bool) (this : World.t) :
  Forall (λ b, Rectangle.id b < Matter.nextId (engine this))
    (Matter.bodies (localWorld this)) →
  let body := (create x y width height options this).1 in
  let created := (create x y width height options this).2 in
  Rectangle.id body = Matter.nextId (engine this)
  ∧ Matter.bodies (localWorld created) = Matter.bodies (localWorld this) ++ [body]
  ∧ Matter.bodies (localWorld (remove (aBody body) deep created))
    = Matter.bodies (localWorld this)
  ∧ Matter.bodies (localWorld (remove (aGameObject body) deep created))
    = Matter.bodies (localWorld this)
  ∧ walls (remove (aBody body) deep created) = walls this
  ∧ ∀ stranger,
      Forall (λ b, Rectangle.id b ≠ Rectangle.id stranger)
        (Matter.bodies (localWorld this)) →
      remove (aBody stranger) deep (add stranger this) = this
      ∧ Matter.bodies (localWorld (remove (aBody stranger) deep this))
        = Matter.bodies (localWorld this).
Proof.
  intros Hfresh body created.
  assert (Hback : filter (λ b, Rectangle.id b ≠ Rectangle.id body)
                    (Matter.bodies (localWorld this) ++ [body])
                  = Matter.bodies (localWorld this)).
  { rewrite filter_app, filter_cons_False, filter_nil, app_nil_r by (by intros ?).
    by apply (filter_fresh _ (Matter.nextId (engine this))). }
  split; [done|]. split; [done|]. split; [exact Hback|]. split; [exact Hback|].
  split; [done|].
  intros stranger Hstranger.
  assert (Hsame : filter (λ b, Rectangle.id b ≠ Rectangle.id stranger)
                    (Matter.bodies (localWorld this))
                  = Matter.bodies (localWorld this)).
  { clear -Hstranger. induction Hstranger as [|b bodies Hb _ IH]; [done|].
    by rewrite filter_cons_True, IH. }
  split; [|exact Hsame].
  unfold remove, add, set_localWorld, set_engine, localWorld,
    Matter.Composite_remove, Matter.Composite_add.
  cbn [engine Matter.world Matter.bodies Matter.gravity Matter.updates Matter.events
       Matter.nextId walls enabled correction getDelta autoUpdate drawDebug debugConfig
       scaleWidth scaleHeight].
  rewrite filter_app, filter_cons_False, filter_nil, app_nil_r by (by intros ?).
  unfold localWorld in Hsame. rewrite Hsame.
  by destruct this as [[[] ? ? ?] ? ? ? ? ? ? ? ? ?].
Qed.

Lemma create_then_remove_witness :
  Matter.bodies
    (localWorld
       (remove (aGameObject (create 10 20 30 40 Sample.wallOptions
                               (Sample.world (Sample.config false true 1))).1)
          (Some true)
          (create 10 20 30 40 Sample.wallOptions
             (Sample.world (Sample.config false true 1))).2))
  = [].
Proof.
  exact (proj1 (proj2 (proj2 (proj2
           (create_then_remove 10 20 30 40 Sample.wallOptions (Some true)
              (Sample.world (Sample.config false true 1)) (List.Forall_nil _)))))).
Defined.

(** ** Pausing and stepping *)

Lemma update_frame (time delta : Q) (this : World.t) :
  enabled (update time delta this) = enabled this
  ∧ autoUpdate (update time delta this) = autoUpdate this
  ∧ getDelta (update time delta this) = getDelta this
  ∧ correction (update time delta this) = correction this
  ∧ walls (update time delta this) = walls this
  ∧ localWorld (update time delta this) = localWorld this.
Proof.
  unfold update. by destruct (enabled this && autoUpdate this).
Qed.

(** X16. A paused world is left as it is by [update], whatever
    [autoUpdate] is, while [step] still runs the engine on it; [pause]
    changes no property but [enabled] and emits PAUSE alone, [resume] emits
    RESUME alone; and [resume] after [pause] gives back a world that was
    enabled exactly as it was. *)
Theorem pause_stops_update_not_step (time delta : Q) (stepDelta stepCorrection : option Q)
    (this : World.t) :
  let paused := (pause this).1 in
  update time delta paused = paused
  ∧ Matter.updates (engine (step stepDelta stepCorrection paused))
    = Matter.updates (engine this) ++ [(stepDelta, stepCorrection)]
  ∧ paused = set_enabled this false
  ∧ (pause this).2 = [ {| Events.emitted := Events.PAUSE; Events.args := [] |} ]
  ∧ (resume paused).2 = [ {| Events.emitted := Events.RESUME; Events.args := [] |} ]
  ∧ (resume paused).1 = (resume this).1
  ∧ (enabled this = true → (resume paused).1 = this)
  ∧ (enabled this = false → (pause (resume this).1).1 = this).
Proof.
  intros paused. repeat (split; [done|]).
  split; destruct this; cbn; by intros ->.
Qed.

(** X17. Over any number of frames, [update] runs the engine once per frame
    when the world is enabled and updates itself, each time with
    [getDelta(time, delta)] of that frame and the correction of the world,
    in the order of the frames; otherwise it never runs it.  The bodies,
    gravity and walls of the world are not touched by [update] itself. *)
Theorem update_runs_once_per_frame (frames : list (Q * Q)) (this : World.t) :
  let final := fold_left (λ world frame, update frame.1 frame.2 world) frames this in
  Matter.updates (engine final)
  = Matter.updates (engine this)
    ++ (if enabled this && autoUpdate this
        then map (λ frame : Q * Q,
                    (Some (getDelta this frame.1 frame.2), Some (correction this)))
               frames
        else [])
  ∧ localWorld final = localWorld this
  ∧ walls final = walls this.
Proof.
  revert this. induction frames as [|frame frames IH]; intros this; cbn zeta.
  - cbn [fold_left map]. by destruct (enabled this && autoUpdate this); rewrite app_nil_r.
  - cbn [fold_left map].
    destruct (update_frame frame.1 frame.2 this)
      as (Henabled & Hauto & Hdelta & Hcorrection & Hwalls & Hworld).
    specialize (IH (update frame.1 frame.2 this)). cbn zeta in IH.
    destruct IH as (IHupdates & IHworld & IHwalls).
    rewrite IHupdates, IHworld, IHwalls, Henabled, Hauto, Hdelta, Hcorrection, Hwalls, Hworld.
    split; [|done]. unfold update.
    destruct (enabled this && autoUpdate this); [|done].
    cbn [set_engine engine Matter.Engine_update Matter.updates].
    by rewrite <- app_assoc.
Qed.

(** ** The listeners on the engine *)

Lemma Events_trigger_on (engine : Matter.Engine) (registered name : string)
    (callback : Matter.listener) (event : EngineEvent.t) :
  Matter.Events_trigger (Matter.Events_on engine registered callback) name event
  = Matter.Events_trigger engine name event
    ++ (if String.eqb registered name then callback event else []).
Proof.
  unfold Matter.Events_trigger, Matter.Events_on. cbn [Matter.events].
  rewrite flat_map_app. cbn [flat_map fst snd]. by rewrite app_nil_r.
Qed.

Lemma setEventsProxy_trigger (this : World.t) (name : string) (event : EngineEvent.t) :
  Matter.Events_trigger (engine (setEventsProxy this)) name event
  = Matter.Events_trigger (engine this) name event
    ++ (if String.eqb "beforeUpdate" name
        then updateListener Events.BEFORE_UPDATE event else [])
    ++ (if String.eqb "afterUpdate" name
        then updateListener Events.AFTER_UPDATE event else [])
    ++ (if String.eqb "collisionStart" name
        then collisionListener Events.COLLISION_START event else [])
    ++ (if String.eqb "collisionActive" name
        then collisionListener Events.COLLISION_ACTIVE event else [])
    ++ (if String.eqb "collisionEnd" name
        then collisionListener Events.COLLISION_END event else []).
Proof.
  unfold setEventsProxy. cbn [set_engine engine].
  rewrite !Events_trigger_on. by rewrite <- !app_assoc.
Qed.

(** X18. After [setEventsProxy], a beforeUpdate (afterUpdate) notification
    of the engine makes the listeners that were there before emit first and
    then adds one BEFORE_UPDATE (AFTER_UPDATE) emission that carries the
    event alone; a notification under any name other than the five bridged
    ones emits what it did before; the world, its walls and the engine calls
    are untouched.  The bridge is not idempotent: after a second
    [setEventsProxy] every notification is re-emitted twice. *)
Theorem setEventsProxy_bridges_updates (this : World.t) (name : string)
    (event : EngineEvent.t) :
  let bridged := setEventsProxy this in
  let before := {| Events.emitted := Events.BEFORE_UPDATE;
                   Events.args := [Events.event event] |} in
  let after := {| Events.emitted := Events.AFTER_UPDATE;
                  Events.args := [Events.event event] |} in
  Matter.Events_trigger (engine bridged) "beforeUpdate" event
  = Matter.Events_trigger (engine this) "beforeUpdate" event ++ [before]
  ∧ Matter.Events_trigger (engine bridged) "afterUpdate" event
    = Matter.Events_trigger (engine this) "afterUpdate" event ++ [after]
  ∧ (name ∉ ["beforeUpdate"; "afterUpdate"; "collisionStart"; "collisionActive";
             "collisionEnd"] →
     Matter.Events_trigger (engine bridged) name event
     = Matter.Events_trigger (engine this) name event)
  ∧ Matter.Events_trigger (engine (setEventsProxy bridged)) "beforeUpdate" event
    = Matter.Events_trigger (engine this) "beforeUpdate" event ++ [before; before]
  ∧ localWorld bridged = localWorld this
  ∧ walls bridged = walls this
  ∧ Matter.updates (engine bridged) = Matter.updates (engine this).
Proof.
  intros bridged before after. unfold bridged.
  split; [by rewrite setEventsProxy_trigger|].
  split; [by rewrite setEventsProxy_trigger|].
  split.
  - intros Hname. rewrite setEventsProxy_trigger.
    repeat (apply not_elem_of_cons in Hname as [?%not_eq_sym%String.eqb_neq Hname]).
    repeat match goal with H : String.eqb _ _ = false |- _ => rewrite H; clear H end.
    by rewrite !app_nil_r.
  - split; [|done]. rewrite !setEventsProxy_trigger. cbn [String.eqb Ascii.eqb Bool.eqb].
    cbn [app updateListener]. by rewrite <- app_assoc.
Qed.

(** ** Gravity over several calls *)

(** X19. However often [setGravity] is called without a scale, the scale
    stays what it was: after [disableGravity] such calls set the direction
    but the scale stays 0, so gravity stays off.  A [setGravity] with a
    scale decides gravity alone, whatever was set before, and none of these
    calls touches the bodies. *)
Theorem gravity_scale_survives (directions : list (option Q * option Q))
    (x y : option Q) (scale : Q) (this : World.t) :
  let redirect := λ world, fold_left (λ world (d : option Q * option Q),
                                        setGravity d.1 d.2 None world) directions world in
  Gravity.scale (Matter.gravity (localWorld (redirect this)))
  = Gravity.scale (Matter.gravity (localWorld this))
  ∧ Gravity.scale (Matter.gravity (localWorld (redirect (disableGravity this)))) = 0%Q
  ∧ Matter.gravity (localWorld (setGravity x y (Some scale) (redirect this)))
    = {| Gravity.x := default 0%Q x; Gravity.y := default 1%Q y; Gravity.scale := scale |}
  ∧ Matter.bodies (localWorld (redirect this)) = Matter.bodies (localWorld this).
Proof.
  intros redirect.
  assert (Hkeeps : ∀ world,
            Gravity.scale (Matter.gravity (localWorld (redirect world)))
            = Gravity.scale (Matter.gravity (localWorld world))
            ∧ Matter.bodies (localWorld (redirect world)) = Matter.bodies (localWorld world)).
  { unfold redirect. clear. induction directions as [|d directions IH]; intros world; [done|].
    cbn [fold_left]. destruct (IH (setGravity d.1 d.2 None world)) as [-> ->]. done. }
  split; [apply Hkeeps|]. split; [by rewrite (proj1 (Hkeeps _))|].
  split; [done|apply Hkeeps].
Qed.

(** ** The constructor *)

(** What the constructor does after the bounds are set touches neither the
    walls nor the bodies. *)
Lemma initialize_boundaryState (engine : Matter.Engine) (width height : Q)
    (config : Config.t) :
  let based :=
    set_walls
      match Config.gravity config with
      | Some gravity =>
          setGravity (GravityConfig.x gravity) (GravityConfig.y gravity)
            (GravityConfig.scale gravity) (blank engine width height)
      | None => blank engine width height
      end initialWalls in
  boundaryState based
  = (initialWalls, Matter.nextId engine, Matter.bodies (Matter.world engine))
  ∧ scaleWidth based = width
  ∧ scaleHeight based = height
  ∧ boundaryState (initialize engine width height config)
    = boundaryState
        match Config.setBounds config with
        | Some (Config.boundsFlag true) =>
            setBounds None None None None None None None None None based
        | Some (Config.boundsObject boundsConfig) =>
            setBounds (Some (default 0%Q (BoundsConfig.x boundsConfig)))
              (Some (default 0%Q (BoundsConfig.y boundsConfig)))
              (Some (default width (BoundsConfig.width boundsConfig)))
              (Some (default height (BoundsConfig.height boundsConfig)))
              (Some (default 64%Q (BoundsConfig.thickness boundsConfig)))
              (Some (default true (BoundsConfig.left boundsConfig)))
              (Some (default true (BoundsConfig.right boundsConfig)))
              (Some (default true (BoundsConfig.top boundsConfig)))
              (Some (default true (BoundsConfig.bottom boundsConfig))) based
        | Some (Config.boundsFlag false) | None => based
        end.
Proof.
  intros based. split; [|split; [|split]].
  - unfold based. by destruct (Config.gravity config).
  - unfold based. by destruct (Config.gravity config).
  - unfold based. by destruct (Config.gravity config).
  - unfold initialize. fold based. unfold GetFastValue.
    by destruct (Config.debug config) as [[[]|]|].
Qed.

(** X20. The bounds a World is constructed with.  With [setBounds] missing
    or false the walls stay [null] and no body is made.  With
    [setBounds: true] the four walls are made around the whole scene at a
    thickness of 128.  With a bounds object the thickness that is left out is
    64, not 128: the left wall, made first unless [left] is false, is the
    rectangle of that thickness left of the given or default area. *)
Theorem initialize_bounds (engine : Matter.Engine) (width height : Q) (config : Config.t) :
  let this := initialize engine width height config in
  let next := Matter.nextId engine in
  (Config.setBounds config = None ∨ Config.setBounds config = Some (Config.boundsFlag false) →
   boundaryState this = (initialWalls, next, Matter.bodies (Matter.world engine)))
  ∧ (Config.setBounds config = Some (Config.boundsFlag true) →
     let onLeft := wall next (0 - 128) (0 - 128) 128 (height + 128 * 2) in
     let onRight := wall (1 + next) (0 + width) (0 - 128) 128 (height + 128 * 2) in
     let onTop := wall (2 + next) 0 (0 - 128) width 128 in
     let onBottom := wall (3 + next) 0 (0 + height) width 128 in
     boundaryState this
     = (<["bottom" := Some onBottom]>
          (<["top" := Some onTop]>
             (<["right" := Some onRight]> (<["left" := Some onLeft]> initialWalls))),
        4 + next,
        Matter.bodies (Matter.world engine) ++ [onLeft; onRight; onTop; onBottom]))
  ∧ (∀ boundsConfig,
       Config.setBounds config = Some (Config.boundsObject boundsConfig) →
       let x := default 0%Q (BoundsConfig.x boundsConfig) in
       let y := default 0%Q (BoundsConfig.y boundsConfig) in
       let tall := default height (BoundsConfig.height boundsConfig) in
       let thickness := default 64%Q (BoundsConfig.thickness boundsConfig) in
       walls this !! "left"
       = Some (if default true (BoundsConfig.left boundsConfig)
               then Some (wall next (x - thickness) (y - thickness) thickness
                            (tall + thickness * 2))
               else None)).
Proof.
  intros this next.
  destruct (initialize_boundaryState engine width height config)
    as (Hbased & Hwidth & Hheight & Hthis).
  cbn zeta in Hbased, Hwidth, Hheight, Hthis. fold this in Hthis.
  set (based := set_walls _ initialWalls) in *.
  split; [|split].
  - intros [Hnone | Hfalse].
    + rewrite Hthis, Hnone. exact Hbased.
    + rewrite Hthis, Hfalse. exact Hbased.
  - intros Htrue onLeft onRight onTop onBottom.
    rewrite Hthis, Htrue, boundaryState_setBounds, Hbased, Hwidth, Hheight.
    unfold updateWallState. cbn [default from_option id].
    lookup_wall. by rewrite <- !app_assoc.
  - intros boundsConfig Hobject x y tall thickness.
    assert (Hwalls : walls this = (boundaryState this).1.1) by done.
    rewrite Hwalls, Hthis, Hobject, boundaryState_setBounds, Hbased.
    unfold updateWallState. cbn [default from_option id fst snd].
    by lookup_wall.
Qed.

Lemma initialize_bounds_witness :
  World.walls
    (World.initialize Sample.newEngine 800 600
       (Sample.settings (Some (World.Config.boundsObject Sample.emptyBounds)) None))
    !! "left"
  = Some (Some (wall 0 (0 - 64) (0 - 64) 64 (600 + 64 * 2))).
Proof.
  exact (proj2 (proj2 (initialize_bounds Sample.newEngine 800 600
                         (Sample.settings
                            (Some (World.Config.boundsObject Sample.emptyBounds)) None)))
           Sample.emptyBounds eq_refl).
Defined.

(** X21. The two formats of the [debug] setting.  When [debug] is a boolean
    or is missing, debug drawing is on exactly when it is [true], the fill
    is on exactly when the stroke is off (the stroke follows
    [debugWireframes], on when missing), static bodies are filled in their
    stroke colour, a sleeping static body is drawn at half opacity, and the
    keys the old format lacks have their defaults.  When [debug] is an
    object, debug drawing is on, every key is read from the object and the
    old keys of the configuration are not read: fill and stroke are both on
    unless the object says otherwise. *)
Theorem initialize_debug_formats (engine : Matter.Engine) (width height : Q)
    (config : Config.t) :
  let this := initialize engine width height config in
  let debug := debugConfig this in
  (∀ flag, Config.debug config = option_map Config.debugFlag flag →
     drawDebug this = default false flag
     ∧ DebugConfig.renderStroke debug = default true (Config.debugWireframes config)
     ∧ DebugConfig.renderFill debug = negb (DebugConfig.renderStroke debug)
     ∧ DebugConfig.staticFillColor debug = DebugConfig.staticStrokeColor debug
     ∧ DebugConfig.staticBodySleepOpacity debug = (5 / 10)%Q
     ∧ DebugConfig.lineThickness debug = 1%Q
     ∧ DebugConfig.sleepFillColor debug = 0x464646%Z
     ∧ DebugConfig.sleepStrokeColor debug = 0x999a99%Z)
  ∧ (∀ overrides, Config.debug config = Some (Config.debugObject overrides) →
       drawDebug this = true
       ∧ debug = resolveDebugConfig overrides
       ∧ DebugConfig.renderFill debug = default true (DebugOverrides.renderFill overrides)
       ∧ DebugConfig.renderStroke debug
         = default true (DebugOverrides.renderStroke overrides)
       ∧ DebugConfig.staticBodySleepOpacity debug
         = default (7 / 10)%Q (DebugOverrides.staticBodySleepOpacity overrides)).
Proof.
  intros this debug. unfold debug, this, initialize. split.
  - intros flag Hflag. rewrite Hflag. by destruct flag as [[]|].
  - intros overrides Hobject. by rewrite Hobject.
Qed.

Lemma initialize_debug_formats_witness :
  World.drawDebug
    (World.initialize Sample.newEngine 800 600
       (Sample.settings None (Some (World.Config.debugFlag true))))
  = true
  ∧ DebugConfig.renderFill
      (World.debugConfig
         (World.initialize Sample.newEngine 800 600
            (Sample.settings None (Some (World.Config.debugFlag true)))))
    = false.
Proof.
  destruct (proj1 (initialize_debug_formats Sample.newEngine 800 600
                     (Sample.settings None (Some (World.Config.debugFlag true))))
              (Some true) eq_refl) as (Hdraw & _ & Hfill & _).
  split; [exact Hdraw | exact Hfill].
Defined.

Lemma updateWall_updates (add : bool) (position : string) (x y width height : Q)
    (this : World.t) :
  Matter.updates (engine (updateWall add position x y width height this))
  = Matter.updates (engine this)
  ∧ Matter.events (engine (updateWall add position x y width height this))
    = Matter.events (engine this).
Proof.
  unfold updateWall. by destruct add, (walls this !! position) as [[?|]|].
Qed.

Lemma setBounds_updates (x y width height thickness : option Q)
    (onLeft onRight onTop onBottom : option bool) (this : World.t) :
  Matter.updates
    (engine (setBounds x y width height thickness onLeft onRight onTop onBottom this))
  = Matter.updates (engine this)
  ∧ Matter.events
      (engine (setBounds x y width height thickness onLeft onRight onTop onBottom this))
    = Matter.events (engine this).
Proof.
  unfold setBounds. split.
  - by rewrite !(proj1 (updateWall_updates _ _ _ _ _ _ _)).
  - by rewrite !(proj2 (updateWall_updates _ _ _ _ _ _ _)).
Qed.

(** X22. A World constructed without the stepping keys ([enabled],
    [autoUpdate], [getDelta], [correction]) runs the engine on every
    [update] with a delta of 1000/60 and a correction of 1, whatever the
    time and the delta of the frame are; constructed with
    [enabled: false] or [autoUpdate: false] it never runs it on [update].
    The constructor itself runs no engine step. *)
Theorem initialize_steps_at_60Hz (engine : Matter.Engine) (width height : Q)
    (config : Config.t) (time delta : Q) :
  let this := initialize engine width height config in
  Matter.updates (World.engine this) = Matter.updates engine
  ∧ (Config.enabled config = None → Config.autoUpdate config = None →
     Config.getDelta config = None → Config.correction config = None →
     Matter.updates (World.engine (update time delta this))
     = Matter.updates engine ++ [(Some (1000 / 60)%Q, Some 1%Q)])
  ∧ (Config.enabled config = Some false ∨ Config.autoUpdate config = Some false →
     update time delta this = this).
Proof.
  intros this.
  assert (Hupdates : Matter.updates (World.engine this) = Matter.updates engine).
  { unfold this, initialize.
    set (based := set_walls _ initialWalls).
    assert (Hbased : Matter.updates (World.engine based) = Matter.updates engine)
      by (unfold based; by destruct (Config.gravity config)).
    set (bounded := match Config.setBounds config with Some _ => _ | None => _ end).
    assert (Hbounded : Matter.updates (World.engine bounded) = Matter.updates engine).
    { unfold bounded. destruct (Config.setBounds config) as [[[]|]|]; [| exact Hbased | | exact Hbased].
      - by rewrite (proj1 (setBounds_updates _ _ _ _ _ _ _ _ _ _)).
      - by rewrite (proj1 (setBounds_updates _ _ _ _ _ _ _ _ _ _)). }
    rewrite <- Hbounded. by destruct (Config.debug config) as [[[]|]|]. }
  assert (Hflags : enabled this = default true (Config.enabled config)
                   ∧ autoUpdate this = default true (Config.autoUpdate config)
                   ∧ correction this = default 1%Q (Config.correction config)
                   ∧ getDelta this
                     = default (λ _ _, update60Hz) (Config.getDelta config)).
  { unfold this, initialize. by destruct (Config.debug config) as [[[]|]|]. }
  destruct Hflags as (Henabled & Hauto & Hcorrection & HgetDelta).
  split; [exact Hupdates|]. split.
  - intros He Ha Hg Hc. unfold update.
    rewrite Henabled, Hauto, Hcorrection, HgetDelta, He, Ha, Hg, Hc.
    cbn [default from_option id andb set_engine World.engine Matter.Engine_update
         Matter.updates].
    by rewrite Hupdates.
  - intros Hoff. unfold update. rewrite Henabled, Hauto.
    by destruct Hoff as [-> | ->]; rewrite ?andb_false_r.
Qed.

Lemma initialize_steps_at_60Hz_witness :
  Matter.updates
    (World.engine
       (update 5000 33 (initialize Sample.newEngine 800 600 (Sample.settings None None))))
  = [(Some (1000 / 60)%Q, Some 1%Q)].
Proof.
  exact (proj1 (proj2 (initialize_steps_at_60Hz Sample.newEngine 800 600
                         (Sample.settings None None) 5000 33))
           eq_refl eq_refl eq_refl eq_refl).
Defined.

Lemma updateWall_gravity (add : bool) (position : string) (x y width height : Q)
    (this : World.t) :
  Matter.gravity (localWorld (updateWall add position x y width height this))
  = Matter.gravity (localWorld this).
Proof.
  unfold updateWall. by destruct add, (walls this !! position) as [[?|]|].
Qed.

Lemma setBounds_gravity (x y width height thickness : option Q)
    (onLeft onRight onTop onBottom : option bool) (this : World.t) :
  Matter.gravity
    (localWorld (setBounds x y width height thickness onLeft onRight onTop onBottom this))
  = Matter.gravity (localWorld this).
Proof.
  unfold setBounds. by rewrite !updateWall_gravity.
Qed.

(** X23. The gravity a World is constructed with.  Without a [gravity]
    object the gravity of the engine is left as [Engine.create] made it.
    With one, a direction that is left out is not kept from the engine: [x]
    becomes 0 and [y] becomes 1; only a [scale] that is left out is kept.
    Neither the bounds nor the debug settings change gravity. *)
Theorem initialize_gravity (engine : Matter.Engine) (width height : Q) (config : Config.t) :
  let this := initialize engine width height config in
  let made := Matter.gravity (Matter.world engine) in
  (Config.gravity config = None → Matter.gravity (localWorld this) = made)
  ∧ (∀ gravity, Config.gravity config = Some gravity →
       Matter.gravity (localWorld this)
       = {| Gravity.x := default 0%Q (GravityConfig.x gravity);
            Gravity.y := default 1%Q (GravityConfig.y gravity);
            Gravity.scale := default (Gravity.scale made) (GravityConfig.scale gravity) |}).
Proof.
  intros this made.
  assert (Hthis : Matter.gravity (localWorld this)
                  = Matter.gravity
                      (localWorld
                         match Config.gravity config with
                         | Some gravity =>
                             setGravity (GravityConfig.x gravity) (GravityConfig.y gravity)
                               (GravityConfig.scale gravity) (blank engine width height)
                         | None => blank engine width height
                         end)).
  { unfold this, initialize.
    set (based := set_walls _ initialWalls).
    transitivity (Matter.gravity (localWorld based)); [|done].
    set (bounded := match Config.setBounds config with Some _ => _ | None => _ end).
    assert (Hbounded : Matter.gravity (localWorld bounded)
                       = Matter.gravity (localWorld based)).
    { unfold bounded.
      destruct (Config.setBounds config) as [[[]|]|]; [|done| |done];
        by rewrite setBounds_gravity. }
    rewrite <- Hbounded. by destruct (Config.debug config) as [[[]|]|]. }
  split.
  - intros Hnone. by rewrite Hthis, Hnone.
  - intros gravity Hsome. rewrite Hthis, Hsome.
    by destruct (GravityConfig.scale gravity).
Qed.

Lemma initialize_gravity_witness :
  Matter.gravity
    (localWorld
       (initialize Sample.newEngine 800 600
          (Sample.settings (Some (Config.boundsFlag true)) None)))
  = {| Gravity.x := 0%Q; Gravity.y := 1%Q; Gravity.scale := (1 / 1000)%Q |}.
Proof.
  exact (proj1 (initialize_gravity Sample.newEngine 800 600
                  (Sample.settings (Some (Config.boundsFlag true)) None)) eq_refl).
Defined.

Lemma initialize_events (engine : Matter.Engine) (width height : Q) (config : Config.t) :
  Matter.events (World.engine (initialize engine width height config))
  = Matter.events (World.engine (setEventsProxy (blank engine width height))).
Proof.
  unfold initialize.
  set (based := set_walls _ initialWalls).
  assert (Hbased : Matter.events (World.engine based) = Matter.events engine)
    by (unfold based; by destruct (Config.gravity config)).
  set (bounded := match Config.setBounds config with Some _ => _ | None => _ end).
  assert (Hbounded : Matter.events (World.engine bounded) = Matter.events engine).
  { unfold bounded.
    destruct (Config.setBounds config) as [[[]|]|]; [| exact Hbased | | exact Hbased];
      by rewrite (proj2 (setBounds_updates _ _ _ _ _ _ _ _ _ _)). }
  unfold setEventsProxy, Matter.Events_on.
  destruct (Config.debug config) as [[[]|]|];
    cbn [World.engine set_engine Matter.events blank createDebugGraphic set_drawDebug
         set_debugConfig set_autoUpdate set_getDelta set_correction set_enabled];
    by rewrite Hbounded.
Qed.

(** X24. A World is constructed with the bridge in place, once: whatever
    the configuration, an engine notification makes the listeners the engine
    already had emit first, and then a beforeUpdate or afterUpdate
    notification is re-emitted once with the event, and each of the three
    collision notifications once with the event and the bodies of its first
    pair. *)
Theorem initialize_bridges_once (engine : Matter.Engine) (width height : Q)
    (config : Config.t) (event : EngineEvent.t) :
  let this := initialize engine width height config in
  let had := λ name, Matter.Events_trigger engine name event in
  Matter.Events_trigger (World.engine this) "beforeUpdate" event
  = had "beforeUpdate"
    ++ [ {| Events.emitted := Events.BEFORE_UPDATE; Events.args := [Events.event event] |} ]
  ∧ Matter.Events_trigger (World.engine this) "afterUpdate" event
    = had "afterUpdate"
      ++ [ {| Events.emitted := Events.AFTER_UPDATE; Events.args := [Events.event event] |} ]
  ∧ (∀ notification name, (notification, name) ∈ collisionNotifications →
       Matter.Events_trigger (World.engine this) notification event
       = had notification
         ++ [ {| Events.emitted := name;
                 Events.args := [Events.event event;
                                 (firstPairBodies event).1;
                                 (firstPairBodies event).2] |} ])
  ∧ length (Matter.events (World.engine this)) = (length (Matter.events engine) + 5)%nat.
Proof.
  intros this had.
  assert (Htrigger : ∀ name,
            Matter.Events_trigger (World.engine this) name event
            = Matter.Events_trigger
                (World.engine (setEventsProxy (blank engine width height))) name event).
  { intros name. unfold Matter.Events_trigger, this. by rewrite initialize_events. }
  split; [by rewrite Htrigger, setEventsProxy_trigger|].
  split; [by rewrite Htrigger, setEventsProxy_trigger|].
  split.
  - intros notification name Hin. rewrite Htrigger, setEventsProxy_trigger.
    unfold collisionNotifications in Hin. unfold firstPairBodies, collisionListener.
    repeat (apply elem_of_cons in Hin as [[= -> ->] | Hin];
            [by destruct (EngineEvent.pairs event)|]).
    by apply elem_of_nil in Hin.
  - unfold this. rewrite initialize_events. unfold setEventsProxy, Matter.Events_on.
    cbn [World.engine set_engine Matter.events blank]. rewrite !length_app. cbn. lia.
Qed.

Lemma initialize_bridges_once_witness :
  let event :=
    {| EngineEvent.name := "collisionEnd"; EngineEvent.timestamp := 0%Q;
       EngineEvent.pairs := [] |} in
  Matter.Events_trigger
    (World.engine (initialize Sample.newEngine 800 600 (Sample.settings None None)))
    "collisionEnd" event
  = [ {| Events.emitted := Events.COLLISION_END;
         Events.args := [Events.event event; Events.undefined; Events.undefined] |} ].
Proof.
  intros event.
  exact (proj1 (proj2 (proj2 (initialize_bridges_once Sample.newEngine 800 600
                                (Sample.settings None None) event)))
           "collisionEnd" Events.COLLISION_END
           ltac:(vm_compute; repeat first [left; reflexivity | right])).
Defined.

(** ** Paths *)

Lemma takeWhile_cons {A : Type} (p : A → bool) (a : A) (l : list A) :
  takeWhile p (a :: l) = if p a then a :: takeWhile p l else [].
Proof. reflexivity. Qed.

Lemma dropWhile_cons {A : Type} (p : A → bool) (a : A) (l : list A) :
  dropWhile p (a :: l) = if p a then dropWhile p l else a :: l.
Proof. reflexivity. Qed.

Lemma takeWhile_dropWhile {A : Type} (p : A → bool) (l : list A) :
  takeWhile p l ++ dropWhile p l = l.
Proof.
  induction l as [|a l IH]; [done|]. cbn. destruct (p a); [|done]. cbn. by rewrite IH.
Qed.

Lemma takeWhile_Forall {A : Type} (p : A → bool) (l : list A) :
  Forall (λ a, p a = true) (takeWhile p l).
Proof.
  induction l as [|a l IH]; [constructor|]. cbn. destruct (p a) eqn:Ha; by constructor.
Qed.

Lemma takeWhile_app {A : Type} (p : A → bool) (run rest : list A) :
  Forall (λ a, p a = true) run →
  match rest with [] => True | a :: _ => p a = false end →
  takeWhile p (run ++ rest) = run ∧ dropWhile p (run ++ rest) = rest.
Proof.
  intros Hrun Hrest. induction Hrun as [|a run Ha _ [IHtake IHdrop]].
  - destruct rest as [|a rest]; [done|]. cbn. by rewrite Hrest.
  - cbn. rewrite Ha. cbn in IHtake, IHdrop. by rewrite IHtake, IHdrop.
Qed.

Lemma filter_rejected (p q : N → bool) (l : list N) :
  (∀ c, p c = true → q c = false) →
  Forall (λ c, p c = true) l → List.filter q l = [].
Proof.
  intros Hpq Hl. induction Hl as [|c l Hc _ IH]; [done|].
  cbn. by rewrite (Hpq c Hc).
Qed.

Lemma filter_accepted (q : N → bool) (l : list N) :
  Forall (λ c, q c = true) l → List.filter q l = l.
Proof.
  intros Hl. induction Hl as [|c l Hc _ IH]; [done|]. cbn. by rewrite Hc, IH.
Qed.

Lemma isCoordinate_cases (c : N) :
  isCoordinate c = true →
  (c = 45 ∨ (48 ≤ c ∧ c ≤ 57) ∨ c = 46 ∨ c = 101 ∨ c = 69)%N.
Proof.
  unfold isCoordinate.
  rewrite !orb_true_iff, andb_true_iff, !N.eqb_eq, !N.leb_le. tauto.
Qed.

Ltac decide_code_unit :=
  repeat match goal with
         | |- context [N.eqb ?a ?b] => destruct (N.eqb_spec a b); [lia|]
         | |- context [N.leb ?a ?b] => destruct (N.leb_spec a b); try lia
         end.

(** No code unit of a coordinate is white space, a comma or an [L]. *)
Lemma isCoordinate_only (c : N) :
  isCoordinate c = true → isWhiteSpace c = false ∧ isSeparator c = false ∧ isL c = false.
Proof.
  intros Hc%isCoordinate_cases. unfold isSeparator, isWhiteSpace, isL.
  split; [|split]; decide_code_unit; reflexivity.
Qed.

Lemma isWhiteSpace_not_coordinate (c : N) : isWhiteSpace c = true → isCoordinate c = false.
Proof.
  intros Hc. destruct (isCoordinate c) eqn:Hcoordinate; [|done].
  apply isCoordinate_only in Hcoordinate as (Hspace & _). congruence.
Qed.

Lemma isSeparator_not_coordinate (c : N) : isSeparator c = true → isCoordinate c = false.
Proof.
  intros Hc. destruct (isCoordinate c) eqn:Hcoordinate; [|done].
  apply isCoordinate_only in Hcoordinate as (_ & Hseparator & _). congruence.
Qed.

(** What a match at the head of [s] takes from [s]: its code units are
    those of a prefix of [s], and the coordinate code units of that prefix
    are the two groups, one after the other. *)
Lemma matchAt_Some (s x : list N) (y : option (list N)) (len : nat) :
  matchAt s = Some (x, y, len) →
  ∃ taken rest,
    s = taken ++ rest
    ∧ len = length taken
    ∧ List.filter isCoordinate taken = captured (x, y)
    ∧ x ≠ []
    ∧ Forall (λ c, isCoordinate c = true) x
    ∧ y ≠ Some []
    ∧ Forall (λ c, isCoordinate c = true) (default [] y).
Proof.
  unfold matchAt.
  set (afterL := match s with c :: rest => if isL c then rest else s | [] => s end).
  set (afterSpace := dropWhile isWhiteSpace afterL).
  set (afterX := dropWhile isCoordinate afterSpace).
  set (afterSeparators := dropWhile isSeparator afterX).
  set (rest := dropWhile isCoordinate afterSeparators).
  set (first := takeWhile isCoordinate afterSpace).
  set (second := takeWhile isCoordinate afterSeparators).
  assert (Hs : ∃ command, s = command ++ afterL
                          ∧ List.filter isCoordinate command = []).
  { unfold afterL. destruct s as [|c s']; [by exists []|].
    destruct (isL c) eqn:HL; [|by exists []].
    exists [c]. split; [done|]. cbn.
    destruct (isCoordinate c) eqn:Hc; [|done].
    apply isCoordinate_only in Hc as (_ & _ & Hc). congruence. }
  destruct Hs as (command & Hs & Hcommand).
  pose proof (takeWhile_dropWhile isWhiteSpace afterL) as HafterL.
  pose proof (takeWhile_dropWhile isCoordinate afterSpace) as HafterSpace.
  pose proof (takeWhile_dropWhile isSeparator afterX) as HafterX.
  pose proof (takeWhile_dropWhile isCoordinate afterSeparators) as HafterSeparators.
  fold afterSpace in HafterL. fold first afterX in HafterSpace.
  fold afterSeparators in HafterX. fold second rest in HafterSeparators.
  pose proof (takeWhile_Forall isCoordinate afterSpace) as Hfirst. fold first in Hfirst.
  pose proof (takeWhile_Forall isCoordinate afterSeparators) as Hsecond.
  fold second in Hsecond.
  assert (Hlen : ∀ taken, s = taken ++ rest → (length s - length rest)%nat = length taken).
  { intros taken Heq. apply (f_equal length) in Heq. rewrite length_app in Heq. lia. }
  assert (Htaken : s = (command ++ takeWhile isWhiteSpace afterL ++ first
                        ++ takeWhile isSeparator afterX ++ second) ++ rest).
  { rewrite <- !app_assoc.
    by rewrite HafterSeparators, HafterX, HafterSpace, HafterL. }
  assert (Hfilter : List.filter isCoordinate
                      (command ++ takeWhile isWhiteSpace afterL ++ first
                       ++ takeWhile isSeparator afterX ++ second)
                    = first ++ second).
  { rewrite !List.filter_app, Hcommand.
    rewrite (filter_rejected isWhiteSpace isCoordinate _ isWhiteSpace_not_coordinate
               (takeWhile_Forall _ _)).
    rewrite (filter_rejected isSeparator isCoordinate _ isSeparator_not_coordinate
               (takeWhile_Forall _ _)).
    by rewrite !filter_accepted. }
  clearbody first second rest.
  destruct first as [|c first]; [done|].
  intros [= <- <- <-].
  eexists _, rest. split; [exact Htaken|]. split; [by apply Hlen|].
  unfold captured. cbn [fst snd].
  destruct second as [|c' second].
  - split; [by rewrite Hfilter|]. split; [done|]. split; [done|]. split; [done|].
    constructor.
  - split; [by rewrite Hfilter|]. done.
Qed.

(** The pattern fails at a code unit only if that code unit belongs to no
    coordinate. *)
Lemma matchAt_None (c : N) (s : list N) :
  matchAt (c :: s) = None → isCoordinate c = false.
Proof.
  intros Hnone. destruct (isCoordinate c) eqn:Hc; [|done].
  apply isCoordinate_only in Hc as Honly. destruct Honly as (Hspace & _ & HL).
  unfold matchAt in Hnone. rewrite HL in Hnone.
  rewrite (dropWhile_cons isWhiteSpace), Hspace in Hnone.
  by rewrite (takeWhile_cons isCoordinate), Hc in Hnone.
Qed.

Lemma matches_skip (s : list N) (skip : nat) : matches skip s = matches 0 (drop skip s).
Proof.
  revert skip. induction s as [|c s IH]; intros [|skip]; try done.
  cbn [matches drop]. apply IH.
Qed.

Lemma matches_cons (c : N) (s : list N) :
  matches 0 (c :: s)
  = match matchAt (c :: s) with
    | Some (x, y, len) => (x, y) :: matches 0 (drop len (c :: s))
    | None => matches 0 s
    end.
Proof.
  cbn [matches]. destruct (matchAt (c :: s)) as [[[x y] len]|] eqn:Hmatch; [|done].
  rewrite matches_skip. f_equal.
  apply matchAt_Some in Hmatch as (taken & rest & Hs & -> & Hfilter & Hx & _).
  destruct taken as [|c' taken]; [|by cbn; rewrite Nat.sub_0_r].
  exfalso. unfold captured in Hfilter. cbn in Hfilter.
  symmetry in Hfilter. by apply app_eq_nil in Hfilter as [? _].
Qed.

Lemma matches_captured_length (n : nat) (path : list N) :
  length path ≤ n →
  concat (map captured (matches 0 path)) = List.filter isCoordinate path
  ∧ Forall (λ m : list N * option (list N),
              m.1 ≠ [] ∧ Forall (λ c, isCoordinate c = true) m.1
              ∧ m.2 ≠ Some [] ∧ Forall (λ c, isCoordinate c = true) (default [] m.2))
      (matches 0 path).
Proof.
  revert path. induction n as [|n IH]; intros [|c path] Hlength;
    try done; [cbn in Hlength; lia|].
  rewrite matches_cons.
  destruct (matchAt (c :: path)) as [[[x y] len]|] eqn:Hmatch.
  - apply matchAt_Some in Hmatch
      as (taken & rest & Hs & -> & Hfilter & Hx & Hxs & Hy & Hys).
    rewrite Hs, drop_app_length, List.filter_app, Hfilter.
    assert (Htaken : taken ≠ []).
    { intros ->. unfold captured in Hfilter. cbn in Hfilter.
      symmetry in Hfilter. by apply app_eq_nil in Hfilter as [? _]. }
    destruct (IH rest) as [IHcaptured IHtokens].
    { apply (f_equal length) in Hs. rewrite length_app in Hs. cbn in Hs, Hlength.
      destruct taken; [done|]. cbn in Hs. lia. }
    cbn [map concat]. rewrite IHcaptured. split; [done|].
    constructor; [|exact IHtokens]. done.
  - apply matchAt_None in Hmatch. cbn [List.filter]. rewrite Hmatch.
    apply IH. cbn in Hlength. lia.
Qed.

(** X25. What [fromPath] reads of a path.  The matches of its pattern, in
    order, capture every code unit of the path that can belong to a
    coordinate (a digit, [-], [.], [e] or [E]) and nothing else: the
    captured groups, one after the other, are the path with every other code
    unit taken out.  The first group of a match is never empty, and the
    second is either [undefined] or not empty. *)
Theorem fromPath_captures_coordinates (path : list N) :
  concat (map captured (matches 0 path)) = List.filter isCoordinate path
  ∧ Forall (λ m : list N * option (list N),
              m.1 ≠ [] ∧ Forall (λ c, isCoordinate c = true) m.1
              ∧ m.2 ≠ Some [] ∧ Forall (λ c, isCoordinate c = true) (default [] m.2))
      (matches 0 path).
Proof. by apply (matches_captured_length (length path)). Qed.

Lemma concat_nonempty_length {A : Type} (ls : list (list A)) :
  Forall (λ l, l ≠ []) ls → length ls ≤ length (concat ls).
Proof.
  intros Hls. induction Hls as [|l ls Hl _ IH]; [done|].
  cbn [concat length]. rewrite length_app. destruct l; [done|]. cbn. lia.
Qed.

Section FromPathProperties.

Variable Number : Type.
Variable parseFloat : option (list N) → Number.

(** X26. [fromPath] puts the points it reads after the points it is given,
    which it keeps in their order; it reads at most one point per coordinate
    code unit of the path; and it reads no point at all exactly when the
    path has no code unit that can belong to a coordinate. *)
Theorem fromPath_appends_points (path : list N) (points : list (Point.t Number)) :
  fromPath Number parseFloat path (Some points)
  = points ++ fromPath Number parseFloat path None
  ∧ length (fromPath Number parseFloat path None)
    ≤ length (List.filter isCoordinate path)
  ∧ (fromPath Number parseFloat path None = []
     ↔ Forall (λ c, isCoordinate c = false) path).
Proof.
  unfold fromPath. cbn [default from_option id app].
  destruct (matches_captured_length (length path) path (le_n _)) as [Hcaptured Htokens].
  assert (Hnonempty : Forall (λ l : list N, l ≠ []) (map captured (matches 0 path))).
  { apply Forall_fmap. eapply Forall_impl; [exact Htokens|].
    intros [x y] (Hx & _). unfold captured. cbn in *. by destruct x. }
  apply concat_nonempty_length in Hnonempty as Hlength.
  rewrite Hcaptured, length_map in Hlength.
  split; [done|]. split; [by rewrite length_map|].
  split.
  - intros Hnone. apply (f_equal length) in Hnone. rewrite length_map in Hnone.
    destruct (matches 0 path); [|done]. cbn in Hcaptured.
    clear -Hcaptured. induction path as [|c path IH]; [constructor|].
    cbn in Hcaptured. destruct (isCoordinate c) eqn:Hc; [done|].
    constructor; [done|]. by apply IH.
  - intros Hpath.
    assert (Hfilter : List.filter isCoordinate path = []).
    { clear -Hpath. induction Hpath as [|c path Hc _ IH]; [done|].
      cbn. by rewrite Hc. }
    rewrite Hfilter in Hlength. by destruct (matches 0 path); [|cbn in Hlength; lia].
Qed.

End FromPathProperties.

Lemma dropWhile_stops (p : N → bool) (s : list N) : stopsAt p s → dropWhile p s = s.
Proof. destruct s as [|c s]; [done|]. cbn. by intros ->. Qed.

Lemma matchAt_written (x y rest : list N) :
  x ≠ [] → y ≠ [] →
  Forall (λ c, isCoordinate c = true) x →
  Forall (λ c, isCoordinate c = true) y →
  stopsAt isCoordinate rest →
  matchAt ([76%N] ++ x ++ [44%N] ++ y ++ rest)
  = Some (x, Some y, length ([76%N] ++ x ++ [44%N] ++ y)).
Proof.
  intros Hx Hy Hxs Hys Hrest. unfold matchAt.
  cbn [app]. change (isL 76) with true. cbv iota.
  assert (Hhead : ∀ run tail, run ≠ [] → Forall (λ c, isCoordinate c = true) run →
                    stopsAt isWhiteSpace (run ++ tail) ∧ stopsAt isSeparator (run ++ tail)).
  { intros [|c run] tail Hrun Hall; [done|]. apply Forall_cons in Hall as [Hc _].
    apply isCoordinate_only in Hc as (? & ? & _). by cbn. }
  rewrite (dropWhile_stops isWhiteSpace) by (by apply Hhead).
  destruct (takeWhile_app isCoordinate x (44%N :: y ++ rest) Hxs eq_refl) as [-> ->].
  rewrite (dropWhile_cons isSeparator). change (isSeparator 44) with true. cbv iota.
  rewrite (dropWhile_stops isSeparator) by (by apply Hhead).
  assert (Hstop : match rest with [] => True | a :: _ => isCoordinate a = false end)
    by (by destruct rest).
  destruct (takeWhile_app isCoordinate y rest Hys Hstop) as [-> ->].
  destruct x as [|c x]; [done|]. destruct y as [|c' y]; [done|].
  do 2 f_equal. cbn [length app]. rewrite !length_app. cbn [length].
  rewrite ?length_app. lia.
Qed.

(** X27. Writing and reading back.  A path written as one [L] command per
    point, each with its two coordinates separated by a comma, is read as
    exactly those points in that order, each with both coordinates defined,
    whenever every coordinate is a non-empty run of coordinate code
    units. *)
Theorem fromPath_reads_written_path (points : list (list N * list N)) :
  Forall (λ point : list N * list N,
            point.1 ≠ [] ∧ point.2 ≠ []
            ∧ Forall (λ c, isCoordinate c = true) point.1
            ∧ Forall (λ c, isCoordinate c = true) point.2) points →
  matches 0 (writePath points) = map (λ point, (point.1, Some point.2)) points
  ∧ ∀ (Number : Type) (parseFloat : option (list N) → Number),
      fromPath Number parseFloat (writePath points) None
      = map (λ point, {| Point.x := parseFloat (Some point.1);
                         Point.y := parseFloat (Some point.2) |}) points.
Proof.
  intros Hpoints.
  assert (Hmatches : matches 0 (writePath points)
                     = map (λ point, (point.1, Some point.2)) points).
  { induction Hpoints as [|[x y] points (Hx & Hy & Hxs & Hys) _ IH]; [done|].
    cbn [fst snd] in *.
    assert (Hrest : stopsAt isCoordinate (writePath points)) by (by destruct points).
    change (writePath ((x, y) :: points))
      with (([76%N] ++ x ++ [44%N] ++ y) ++ writePath points).
    pose proof (matchAt_written x y (writePath points) Hx Hy Hxs Hys Hrest) as Hmatch.
    rewrite <- !app_assoc in *. cbn [app] in *.
    rewrite matches_cons, Hmatch.
    cbn [map fst snd]. f_equal.
    rewrite <- IH. f_equal.
    change (76%N :: x ++ 44%N :: y ++ writePath points)
      with ((76%N :: x) ++ (44%N :: y) ++ writePath points).
    rewrite app_assoc. by apply drop_app_length'. }
  split; [exact Hmatches|].
  intros Number parseFloat. unfold fromPath. cbn [default from_option id app].
  rewrite Hmatches, map_map. done.
Qed.

Lemma fromPath_reads_written_path_witness :
  matches 0 (writePath [([49; 48]%N, [50]%N); ([45; 51]%N, [52; 46; 53]%N)])
  = [([49; 48]%N, Some [50]%N); ([45; 51]%N, Some [52; 46; 53]%N)].
Proof.
  apply (fromPath_reads_written_path
           [([49; 48]%N, [50]%N); ([45; 51]%N, [52; 46; 53]%N)]).
  repeat constructor; done.
Defined.
